(** * RISC-V CPU integration tests: assembler and reference CPU

    A shallow embedding of [integration_tests/assembler.py] (the two-pass
    encoder) and of the [ReferenceCPU] class of the randomized
    [integration_tests/tests_runner.py], together with the properties of
    the toolchain that are stated about them.

    Python integers are [Z]; text is [string] (one byte per character,
    ASCII input); dictionaries are [gmap]s; the register file is a
    [list Z] indexed the way Python indexes a list; a raised exception is
    the left summand of a result. *)

From Stdlib Require Import ZArith String Ascii List Lia Bool DecimalString
  DecimalPos DecimalFacts DecimalZ.
From stdpp Require Import base option list gmap strings.

Local Open Scope string_scope.
Local Open Scope Z_scope.

(** ** Exceptions *)

Inductive PyErr : Type :=
| IndexError (msg : string)
| KeyError (msg : string)
| TypeError (msg : string)
| ValueError (msg : string).

Definition res (A : Type) : Type := (PyErr + A)%type.

Definition Ok {A} (x : A) : res A := inr x.
Definition Raise {A} (e : PyErr) : res A := inl e.

Definition bind {A B} (m : res A) (k : A -> res B) : res B :=
  match m with
  | inl e => inl e
  | inr x => k x
  end.

Notation "'let*' x ':=' m 'in' k" := (bind m (fun x => k))
  (at level 10, x pattern, m at level 100, k at level 200).

Definition message (e : PyErr) : string :=
  match e with
  | IndexError m | KeyError m | TypeError m | ValueError m => m
  end.

(** [l[i]] on a list of length [n]: a negative index counts from the end. *)
Definition py_index (n : nat) (i : Z) : option nat :=
  if 0 <=? i then (if i <? Z.of_nat n then Some (Z.to_nat i) else None)
  else if - Z.of_nat n <=? i then Some (Z.to_nat (Z.of_nat n + i))
  else None.

(** ** The reference CPU *)

Module ReferenceCPU.

Record cpu : Type := { regs : list Z; mem : gmap Z Z }.

(** [__init__]: x0 is an ordinary cell of the list. *)
Definition init : cpu := {| regs := replicate 32 0; mem := ∅ |}.

Definition _to_unsigned_32 (val : Z) : Z := Z.land val 0xFFFFFFFF.

Definition _to_signed_32 (val : Z) : Z :=
  let val := Z.land val 0xFFFFFFFF in
  if negb (Z.land val 0x80000000 =? 0) then val - 0x100000000 else val.

Definition _sign_extend_12 (imm12 : Z) : Z :=
  let imm12 := Z.land imm12 0xFFF in
  if negb (Z.land imm12 0x800 =? 0) then imm12 - 0x1000 else imm12.

Definition set_reg (idx val : Z) (self : cpu) : res cpu :=
  match py_index (length (regs self)) idx with
  | Some i => Ok {| regs := <[i := _to_unsigned_32 val]> (regs self);
                    mem := mem self |}
  | None => Raise (IndexError "list assignment index out of range")
  end.

Definition get_reg (idx : Z) (self : cpu) : res Z :=
  match py_index (length (regs self)) idx with
  | Some i =>
      match regs self !! i with
      | Some v => Ok v
      | None => Raise (IndexError "list index out of range")
      end
  | None => Raise (IndexError "list index out of range")
  end.

Definition store_word (addr val : Z) (self : cpu) : cpu :=
  let aligned_addr := (addr / 4) * 4 in
  {| regs := regs self;
     mem := <[aligned_addr := _to_unsigned_32 val]> (mem self) |}.

Definition load_word (addr : Z) (self : cpu) : Z :=
  let aligned_addr := (addr / 4) * 4 in
  default 0 (mem self !! aligned_addr).

(** The [if]/[elif] chain of [execute]: either the early [return] of
    [sw] (left, with the state it leaves) or the value of the local [res]
    that goes on to the commit (right).  An operation that matches no
    branch leaves [res = 0]. *)
Definition execute_res (op : string) (u_rs1 u_rs2 s_rs1 s_rs2 s_imm : Z)
    (imm : option Z) (self : cpu) : res (cpu + Z) :=
  if (op =? "add")%string then Ok (inr (u_rs1 + u_rs2))
  else if (op =? "sub")%string then Ok (inr (u_rs1 - u_rs2))
  else if (op =? "and")%string then Ok (inr (Z.land u_rs1 u_rs2))
  else if (op =? "or")%string then Ok (inr (Z.lor u_rs1 u_rs2))
  else if (op =? "slt")%string then
    Ok (inr (if s_rs1 <? s_rs2 then 1 else 0))
  else if (op =? "addi")%string then Ok (inr (u_rs1 + s_imm))
  else if (op =? "lui")%string then
    match imm with
    | Some i => Ok (inr (Z.shiftl (Z.land i 0xFFFFF) 12))
    | None =>
        Raise (TypeError
                 "unsupported operand type(s) for &: 'NoneType' and 'int'")
    end
  else if (op =? "sw")%string then
    let addr := Z.land (u_rs1 + s_imm) 0xFFFFFFFF in
    Ok (inl (store_word addr u_rs2 self))
  else if (op =? "lw")%string then
    let addr := Z.land (u_rs1 + s_imm) 0xFFFFFFFF in
    Ok (inr (load_word addr self))
  else Ok (inr 0).

(** [execute(op, rd, rs1, rs2=None, imm=None)]. *)
Definition execute (op : string) (rd rs1 : Z) (rs2 imm : option Z)
    (self : cpu) : res cpu :=
  let* u_rs1 := get_reg rs1 self in
  let* u_rs2 := match rs2 with
                | Some r => get_reg r self
                | None => Ok 0
                end in
  let s_rs1 := _to_signed_32 u_rs1 in
  let s_rs2 := _to_signed_32 u_rs2 in
  let s_imm := match imm with
               | Some i =>
                   let raw := _to_unsigned_32 i in
                   if negb (op =? "lui")%string then i else raw
               | None => 0
               end in
  let* r := execute_res op u_rs1 u_rs2 s_rs1 s_rs2 s_imm imm self in
  match r with
  | inl self' => Ok self'
  | inr res => set_reg rd res self
  end.

(** One call [sim.execute(...)] of a generator, and a straight run of them. *)
Record call : Type :=
  { c_op : string; c_rd : Z; c_rs1 : Z; c_rs2 : option Z; c_imm : option Z }.

Definition execute_call (c : call) (self : cpu) : res cpu :=
  execute (c_op c) (c_rd c) (c_rs1 c) (c_rs2 c) (c_imm c) self.

Fixpoint run (cs : list call) (self : cpu) : res cpu :=
  match cs with
  | [] => Ok self
  | c :: cs' => let* self' := execute_call c self in run cs' self'
  end.

End ReferenceCPU.

(** ** The assembler *)

Module Assembler.

(** *** The string methods the assembler uses *)

(** [str.isspace] on one ASCII character: TAB..CR, FS..US and the space. *)
Definition isspace (c : ascii) : bool :=
  let n := nat_of_ascii c in
  ((9 <=? n) && (n <=? 13) || (28 <=? n) && (n <=? 32))%nat.

(** [int] skips white space with the C predicate: TAB..CR and the space. *)
Definition c_isspace (c : ascii) : bool :=
  let n := nat_of_ascii c in
  ((9 <=? n) && (n <=? 13) || (n =? 32))%nat.

Fixpoint lstrip_with (sp : ascii -> bool) (s : string) : string :=
  match s with
  | String c s' => if sp c then lstrip_with sp s' else s
  | EmptyString => EmptyString
  end.

Fixpoint rev_onto (s acc : string) : string :=
  match s with
  | String c s' => rev_onto s' (String c acc)
  | EmptyString => acc
  end.

Definition rstrip_with (sp : ascii -> bool) (s : string) : string :=
  rev_onto (lstrip_with sp (rev_onto s "")) "".

Definition strip_with (sp : ascii -> bool) (s : string) : string :=
  rstrip_with sp (lstrip_with sp s).

(** [s.strip()] *)
Definition strip (s : string) : string := strip_with isspace s.

(** [c in s] for a one-character [c]. *)
Fixpoint contains (c : ascii) (s : string) : bool :=
  match s with
  | String d s' => if Ascii.eqb d c then true else contains c s'
  | EmptyString => false
  end.

(** [s.split(sep)] for a one-character separator. *)
Fixpoint split (sep : ascii) (s : string) : list string :=
  match s with
  | EmptyString => [""]
  | String c s' =>
      if Ascii.eqb c sep then "" :: split sep s'
      else match split sep s' with
           | h :: t => String c h :: t
           | [] => [String c ""]
           end
  end.

(** [s.replace(",", "")] *)
Fixpoint remove (c : ascii) (s : string) : string :=
  match s with
  | String d s' => if Ascii.eqb d c then remove c s' else String d (remove c s')
  | EmptyString => EmptyString
  end.

(** [s.endswith(c)] for a one-character [c]. *)
Fixpoint endswith (c : ascii) (s : string) : bool :=
  match s with
  | EmptyString => false
  | String d EmptyString => Ascii.eqb d c
  | String _ s' => endswith c s'
  end.

(** [s[:-1]] *)
Fixpoint drop_last (s : string) : string :=
  match s with
  | EmptyString => EmptyString
  | String _ EmptyString => EmptyString
  | String c s' => String c (drop_last s')
  end.

(** [s[:n]] and [s[n:]] for [0 <= n], and [s[a:b]]. *)
Fixpoint take (n : nat) (s : string) : string :=
  match n, s with
  | S n', String c s' => String c (take n' s')
  | _, _ => EmptyString
  end.

Fixpoint drop (n : nat) (s : string) : string :=
  match n, s with
  | S n', String _ s' => drop n' s'
  | _, _ => s
  end.

Definition slice (a b : nat) (s : string) : string := take (b - a) (drop a s).

(** [s[i]] for [0 <= i]: a one-character string. *)
Definition char_at (s : string) (i : nat) : res string :=
  match String.get i s with
  | Some c => Ok (String c "")
  | None => Raise (IndexError "string index out of range")
  end.

(** [l[i]] for [0 <= i]. *)
Definition item {A} (l : list A) (i : nat) : res A :=
  match l !! i with
  | Some x => Ok x
  | None => Raise (IndexError "list index out of range")
  end.

(** [re.split(r'\s+', s)]: cut at every maximal run of white space; a run
    at either end leaves an empty string there. *)
Fixpoint re_split_ws (s : string) (in_run : bool) : list string :=
  match s with
  | EmptyString => [""]
  | String c s' =>
      if isspace c then
        (if in_run then re_split_ws s' true else "" :: re_split_ws s' true)
      else match re_split_ws s' false with
           | h :: t => String c h :: t
           | [] => [String c ""]
           end
  end.

(** ["".join(l)] *)
Definition join (l : list string) : string := foldr String.append "" l.

(** *** [int(s, 0)] *)

Definition digit_value (c : ascii) : option Z :=
  let n := Z.of_nat (nat_of_ascii c) in
  if (48 <=? n) && (n <=? 57) then Some (n - 48)
  else if (97 <=? n) && (n <=? 122) then Some (n - 87)
  else if (65 <=? n) && (n <=? 90) then Some (n - 55)
  else None.

(** The digits of a literal in [base], single underscores allowed between
    two digits only.  [after_us] holds at the start and after an
    underscore, where a digit has to follow. *)
Fixpoint digits (base : Z) (s : string) (after_us : bool) (acc : Z)
    : option Z :=
  match s with
  | EmptyString => if after_us then None else Some acc
  | String c s' =>
      if Ascii.eqb c "_" then
        (if after_us then None else digits base s' true acc)
      else match digit_value c with
           | Some d =>
               if d <? base then digits base s' false (acc * base + d)
               else None
           | None => None
           end
  end.

Definition skip_underscore (s : string) : string :=
  match s with
  | String "_" s' => s'
  | _ => s
  end.

(** The digit characters of a literal; underscores do not count. *)
Fixpoint digit_count (s : string) : Z :=
  match s with
  | EmptyString => 0
  | String c s' =>
      if Ascii.eqb c "_" then digit_count s' else 1 + digit_count s'
  end.

(** A decimal literal.  One of more than 4300 digits is refused with a
    [ValueError]: 4300 is the default of [sys.int_max_str_digits], the
    bound Python puts on conversions between [int] and decimal text.  The
    bases 2, 8 and 16 have no such bound. *)
Definition decimal_literal (s : string) : option Z :=
  if 4300 <? digit_count s then None else digits 10 s true 0.

(** The unsigned part: a [0x]/[0o]/[0b] prefix selects the base (one
    underscore may follow it); a decimal literal that starts with [0] has
    to be zero. *)
Definition unsigned_literal (s : string) : option Z :=
  match s with
  | String "0" (String c r) =>
      if Ascii.eqb c "x" || Ascii.eqb c "X" then
        digits 16 (skip_underscore r) true 0
      else if Ascii.eqb c "o" || Ascii.eqb c "O" then
        digits 8 (skip_underscore r) true 0
      else if Ascii.eqb c "b" || Ascii.eqb c "B" then
        digits 2 (skip_underscore r) true 0
      else match decimal_literal s with
           | Some 0 => Some 0
           | _ => None
           end
  | _ => decimal_literal s
  end.

(** [int(s, 0)]; [None] stands for the [ValueError] it raises. *)
Definition int0 (s : string) : option Z :=
  match strip_with c_isspace s with
  | String "+" r => unsigned_literal r
  | String "-" r => Z.opp <$> unsigned_literal r
  | r => unsigned_literal r
  end.

(** *** [to_bin] *)

Fixpoint bin_pos (p : positive) (acc : string) : string :=
  match p with
  | xH => String "1" acc
  | xO p' => bin_pos p' (String "0" acc)
  | xI p' => bin_pos p' (String "1" acc)
  end.

(** The binary digits of [|n|], most significant first. *)
Definition bin_digits (n : Z) : string :=
  match n with
  | Z0 => "0"
  | Zpos p | Zneg p => bin_pos p ""
  end.

Fixpoint zeros (n : nat) : string :=
  match n with
  | O => EmptyString
  | S n' => String "0" (zeros n')
  end.

(** [f"{val:0{width}b}"]: the digits, zero-padded on the left up to
    [width] characters, the sign of a negative number first and counted
    in the width.  The digits are never cut. *)
Definition format_0b (val : Z) (width : nat) : string :=
  let d := bin_digits val in
  if val <? 0 then "-" +:+ zeros (width - 1 - String.length d) +:+ d
  else zeros (width - String.length d) +:+ d.

Definition to_bin (val : Z) (bits : nat) : string :=
  let val := if val <? 0 then Z.shiftl 1 (Z.of_nat bits) + val else val in
  format_0b val bits.

(** *** The register map and the instruction table *)

Definition str_of_nat (n : nat) : string :=
  DecimalString.NilEmpty.string_of_uint (Nat.to_uint n).

Definition regs : gmap string Z :=
  foldl (fun m kv => <[kv.1 := kv.2]> m)
    (list_to_map ((fun i => ("x" +:+ str_of_nat i, Z.of_nat i)) <$> seq 0 32))
    [("zero", 0); ("ra", 1); ("sp", 2); ("gp", 3); ("tp", 4); ("t0", 5);
     ("t1", 6); ("t2", 7); ("s0", 8); ("fp", 8); ("s1", 9); ("a0", 10);
     ("a1", 11); ("a2", 12); ("a3", 13); ("a4", 14); ("a5", 15); ("a6", 16);
     ("a7", 17); ("s2", 18); ("s3", 19); ("s4", 20); ("s5", 21); ("s6", 22);
     ("s7", 23); ("s8", 24); ("s9", 25); ("s10", 26); ("s11", 27);
     ("t3", 28); ("t4", 29); ("t5", 30); ("t6", 31)].

Definition parse_reg (s : string) : res Z :=
  let s := remove "," (strip s) in
  match regs !! s with
  | Some r => Ok r
  | None => Raise (ValueError ("Unknown register: " +:+ s))
  end.

Definition parse_imm (s : string) (labels : gmap string Z) (pc : Z) : res Z :=
  let s := remove "," (strip s) in
  match labels !! s with
  | Some target => Ok (target - pc)
  | None =>
      match int0 s with
      | Some v => Ok v
      | None => Raise (ValueError ("Invalid immediate: " +:+ s))
      end
  end.

(** A descriptor is a small dictionary from field name to bit string. *)
Definition descriptor : Type := list (string * string).

Definition opcodes : list (string * descriptor) :=
  [("add",  [("type", "R"); ("opcode", "0110011"); ("funct3", "000"); ("funct7", "0000000")]);
   ("sub",  [("type", "R"); ("opcode", "0110011"); ("funct3", "000"); ("funct7", "0100000")]);
   ("and",  [("type", "R"); ("opcode", "0110011"); ("funct3", "111"); ("funct7", "0000000")]);
   ("or",   [("type", "R"); ("opcode", "0110011"); ("funct3", "110"); ("funct7", "0000000")]);
   ("slt",  [("type", "R"); ("opcode", "0110011"); ("funct3", "010"); ("funct7", "0000000")]);
   ("addi", [("type", "I"); ("opcode", "0010011"); ("funct3", "000")]);
   ("lw",   [("type", "I_load"); ("opcode", "0000011"); ("funct3", "010")]);
   ("jalr", [("type", "I"); ("opcode", "1100111"); ("funct3", "000")]);
   ("sw",   [("type", "S"); ("opcode", "0100011"); ("funct3", "010")]);
   ("beq",  [("type", "B"); ("opcode", "1100011"); ("funct3", "000")]);
   ("bne",  [("type", "B"); ("opcode", "1100011"); ("funct3", "001")]);
   ("blt",  [("type", "B"); ("opcode", "1100011"); ("funct3", "100")]);
   ("lui",  [("type", "U"); ("opcode", "0110111")]);
   ("jal",  [("type", "J"); ("opcode", "1101111")])].

Fixpoint lookup_key {A} (k : string) (d : list (string * A)) : option A :=
  match d with
  | [] => None
  | (k', v) :: d' => if (k' =? k)%string then Some v else lookup_key k d'
  end.

(** [op[k]] *)
Definition field (op : descriptor) (k : string) : res string :=
  match lookup_key k op with
  | Some v => Ok v
  | None => Raise (KeyError k)
  end.

(** *** Pass 1: labels *)

Record pass1 : Type :=
  { labels : gmap string Z; pc : Z; instructions : list (Z * string) }.

Definition pass1_init : pass1 :=
  {| labels := ∅; pc := 0; instructions := [] |}.

Definition set_label (name : string) (st : pass1) : pass1 :=
  {| labels := <[name := pc st]> (labels st);
     pc := pc st; instructions := instructions st |}.

Definition queue (line : string) (st : pass1) : pass1 :=
  {| labels := labels st;
     pc := pc st + 4;
     instructions := instructions st ++ [(pc st, line)] |}.

(** One turn of the first loop of [assemble]. *)
Definition pass1_line (st : pass1) (line : string) : res pass1 :=
  let* code := item (split "#" line) 0 in
  let line := strip code in
  if (line =? "")%string then Ok st
  else if endswith ":" line then Ok (set_label (drop_last line) st)
  else if contains ":" line then
    let parts := split ":" line in
    let* name := item parts 0 in
    let st := set_label (strip name) st in
    let* rest := item parts 1 in
    let line := strip rest in
    if (line =? "")%string then Ok st else Ok (queue line st)
  else Ok (queue line st).

Fixpoint pass1_lines (st : pass1) (lines : list string) : res pass1 :=
  match lines with
  | [] => Ok st
  | line :: lines' =>
      let* st' := pass1_line st line in pass1_lines st' lines'
  end.

(** *** Pass 2: one instruction *)

(** The [imm(rs1)] operand of [lw] and [sw]. *)
Definition memory_operand (arg : string) (labels : gmap string Z) (pc : Z)
    : res (Z * Z) :=
  if contains "(" arg && endswith ")" arg then
    match split "(" (drop_last arg) with
    | [val_part; reg_part] =>
        let* imm := parse_imm val_part labels pc in
        let* rs1 := parse_reg reg_part in
        Ok (imm, rs1)
    | [_] => Raise (ValueError "not enough values to unpack (expected 2, got 1)")
    | _ => Raise (ValueError "too many values to unpack (expected 2)")
    end
  else Raise (ValueError ("Invalid memory operand: " +:+ arg)).

(** The body of the second loop of [assemble] for one queued line. *)
Definition encode (labels : gmap string Z) (pc : Z) (line : string)
    : res string :=
  let parts := re_split_ws line false in
  let* instr := item parts 0 in
  let args := strip <$> split "," (join (tail parts)) in
  match lookup_key instr opcodes with
  | None => Raise (ValueError ("Unknown instruction: " +:+ instr))
  | Some op =>
      let* otype := field op "type" in
      let* opcode := field op "opcode" in
      if (otype =? "R")%string then
        let* a0 := item args 0 in
        let* rd := parse_reg a0 in
        let* a1 := item args 1 in
        let* rs1 := parse_reg a1 in
        let* a2 := item args 2 in
        let* rs2 := parse_reg a2 in
        let* funct3 := field op "funct3" in
        let* funct7 := field op "funct7" in
        Ok (funct7 +:+ to_bin rs2 5 +:+ to_bin rs1 5 +:+ funct3
              +:+ to_bin rd 5 +:+ opcode)
      else if (otype =? "I")%string then
        let* a0 := item args 0 in
        let* rd := parse_reg a0 in
        let* a1 := item args 1 in
        let* rs1 := parse_reg a1 in
        let* a2 := item args 2 in
        let* imm := parse_imm a2 labels pc in
        let* funct3 := field op "funct3" in
        Ok (to_bin imm 12 +:+ to_bin rs1 5 +:+ funct3 +:+ to_bin rd 5
              +:+ opcode)
      else if (otype =? "I_load")%string then
        let* a0 := item args 0 in
        let* rd := parse_reg a0 in
        let* a1 := item args 1 in
        let* operand := memory_operand a1 labels pc in
        let imm := operand.1 in
        let rs1 := operand.2 in
        let* funct3 := field op "funct3" in
        Ok (to_bin imm 12 +:+ to_bin rs1 5 +:+ funct3 +:+ to_bin rd 5
              +:+ opcode)
      else if (otype =? "S")%string then
        let* a0 := item args 0 in
        let* rs2 := parse_reg a0 in
        let* a1 := item args 1 in
        let* operand := memory_operand a1 labels pc in
        let imm := operand.1 in
        let rs1 := operand.2 in
        let* funct3 := field op "funct3" in
        let imm_bin := to_bin imm 12 in
        Ok (take 7 imm_bin +:+ to_bin rs2 5 +:+ to_bin rs1 5 +:+ funct3
              +:+ drop 7 imm_bin +:+ opcode)
      else if (otype =? "B")%string then
        let* a0 := item args 0 in
        let* rs1 := parse_reg a0 in
        let* a1 := item args 1 in
        let* rs2 := parse_reg a1 in
        let* a2 := item args 2 in
        let* imm := parse_imm a2 labels pc in
        let* funct3 := field op "funct3" in
        let imm_bin := to_bin imm 13 in
        let* b12 := char_at imm_bin 0 in
        let* b11 := char_at imm_bin 1 in
        let b10_5 := slice 2 8 imm_bin in
        let b4_1 := slice 8 12 imm_bin in
        Ok (b12 +:+ b10_5 +:+ to_bin rs2 5 +:+ to_bin rs1 5 +:+ funct3
              +:+ b4_1 +:+ b11 +:+ opcode)
      else if (otype =? "U")%string then
        let* a0 := item args 0 in
        let* rd := parse_reg a0 in
        let* a1 := item args 1 in
        let* imm := parse_imm a1 labels pc in
        Ok (to_bin imm 20 +:+ to_bin rd 5 +:+ opcode)
      else if (otype =? "J")%string then
        let* a0 := item args 0 in
        let* rd := parse_reg a0 in
        let* a1 := item args 1 in
        let* imm := parse_imm a1 labels pc in
        let imm_bin := to_bin imm 21 in
        let* b20 := char_at imm_bin 0 in
        let b19_12 := slice 1 9 imm_bin in
        let* b11 := char_at imm_bin 9 in
        let b10_1 := slice 10 20 imm_bin in
        Ok (b20 +:+ b10_1 +:+ b11 +:+ b19_12 +:+ to_bin rd 5 +:+ opcode)
      else Ok ""
  end.

(** The second loop: the words so far are lost when one line raises. *)
Fixpoint pass2 (labels : gmap string Z) (instrs : list (Z * string))
    : res (list string) :=
  match instrs with
  | [] => Ok []
  | (pc, line) :: instrs' =>
      let* bin_str := encode labels pc line in
      let* binary_lines := pass2 labels instrs' in
      Ok (bin_str :: binary_lines)
  end.

Definition assemble (lines : list string) : res (list string) :=
  let* st := pass1_lines pass1_init lines in
  pass2 (labels st) (instructions st).

End Assembler.

(** ** The program generators of the randomized tests *)

(** [str(n)] of an integer, as an f-string renders it: the decimal text
    of [n].  (Python writes it for [|n| < 10^4300]; beyond that bound
    [str] raises, and no generator builds such a number.) *)
Definition py_str (n : Z) : string := NilZero.string_of_int (Z.to_int n).

Module Generators.

(** [l.append(x)] *)
Definition append {A} (l : list A) (x : A) : list A := (l ++ [x])%list.

(** A test under construction: the reference CPU and the lines of the
    program that go with it. *)
Record gen : Type := { sim : ReferenceCPU.cpu; asm : list string }.

(** [gen_alu_chaos], the body of the loop over [enumerate(patterns)]: load
    the constant [pat] into register [(i % 31) + 1] with [lui] and, when
    the low part is not zero, [addi]. *)
Definition load_pattern (i : nat) (pat : Z) (g : gen) : res gen :=
  let reg_idx := Z.of_nat i mod 31 + 1 in
  let val_u32 := Z.land pat 0xFFFFFFFF in
  let upper_20 := Z.land (Z.shiftr val_u32 12) 0xFFFFF in
  let lower_12 := Z.land val_u32 0xFFF in
  let upper_20 :=
    if negb (Z.land lower_12 0x800 =? 0) then Z.land (upper_20 + 1) 0xFFFFF
    else upper_20 in
  let lower_12_asm :=
    if negb (Z.land lower_12 0x800 =? 0) then lower_12 - 4096
    else lower_12 in
  let* sim1 := ReferenceCPU.execute "lui" reg_idx 0 None (Some upper_20)
                 (sim g) in
  let asm1 :=
    append (asm g) ("lui x" +:+ py_str reg_idx +:+ ", " +:+ py_str upper_20) in
  if negb (lower_12_asm =? 0) then
    let* sim2 := ReferenceCPU.execute "addi" reg_idx reg_idx None
                   (Some lower_12_asm) sim1 in
    Ok {| sim := sim2;
          asm := append asm1 ("addi x" +:+ py_str reg_idx +:+ ", x"
                            +:+ py_str reg_idx +:+ ", "
                            +:+ py_str lower_12_asm) |}
  else Ok {| sim := sim1; asm := asm1 |}.

Definition patterns : list Z :=
  [0; 1; -1; 0xAAAAAAAA; 0x55555555; 0x7FFFFFFF; 0x80000000; 12345; -9876].

(** The loop over [enumerate(patterns)], from index [i] on. *)
Fixpoint load_patterns (i : nat) (pats : list Z) (g : gen) : res gen :=
  match pats with
  | [] => Ok g
  | pat :: pats' =>
      let* g' := load_pattern i pat g in load_patterns (S i) pats' g'
  end.

(** [for _ in range(n)]: the body [n] times, until one turn raises. *)
Fixpoint repeat_body (n : nat) (body : ReferenceCPU.cpu -> res ReferenceCPU.cpu)
    (self : ReferenceCPU.cpu) : res ReferenceCPU.cpu :=
  match n with
  | O => Ok self
  | S n' => let* self' := body self in repeat_body n' body self'
  end.

(** A generated test: its name, its program and the expected values. *)
Record test : Type :=
  { name : string; program : list string; checks : list (string * Z) }.

(** [gen_loops], the calls on the reference CPU for the drawn
    [loop_cnt]: the two initial [addi], then the effect of the loop. *)
Definition gen_loops_sim (loop_cnt : Z) : res ReferenceCPU.cpu :=
  let cnt_reg := 5 in
  let acc_reg := 6 in
  let* sim1 := ReferenceCPU.execute "addi" cnt_reg 0 None (Some loop_cnt)
                 ReferenceCPU.init in
  let* sim2 := ReferenceCPU.execute "addi" acc_reg 0 None (Some 0) sim1 in
  repeat_body (Z.to_nat loop_cnt)
    (fun self =>
       let* self1 := ReferenceCPU.execute "addi" acc_reg acc_reg None
                       (Some 2) self in
       ReferenceCPU.execute "addi" cnt_reg cnt_reg None (Some (-1)) self1)
    sim2.

(** [gen_loops], one test: the program text and the expected values. *)
Definition gen_loops_case (test_id loop_cnt : Z) : res test :=
  let cnt_reg := 5 in
  let acc_reg := 6 in
  let* sim3 := gen_loops_sim loop_cnt in
  let asm :=
    ["addi x" +:+ py_str cnt_reg +:+ ", x0, " +:+ py_str loop_cnt;
     "addi x" +:+ py_str acc_reg +:+ ", x0, 0";
     "loop_start:";
     "addi x" +:+ py_str acc_reg +:+ ", x" +:+ py_str acc_reg +:+ ", 2";
     "addi x" +:+ py_str cnt_reg +:+ ", x" +:+ py_str cnt_reg +:+ ", -1";
     "bne x" +:+ py_str cnt_reg +:+ ", x0, loop_start"] in
  let* acc := ReferenceCPU.get_reg acc_reg sim3 in
  Ok {| name := "Loop_" +:+ py_str (test_id + 1);
        program := asm;
        checks := [("x" +:+ py_str acc_reg, acc);
                   ("x" +:+ py_str cnt_reg, 0)] |}.

(** What one turn of the loop of [gen_memory_walk] draws: the action and
    the random numbers it uses. *)
Inductive draw : Type :=
| Move (k : Z)
| Write (k val : Z)
| Read (k dest : Z).

(** The walk: CPU, program so far, and the pointer the generator tracks. *)
Record walk : Type :=
  { w_sim : ReferenceCPU.cpu; w_asm : list string; current_ptr : Z }.

(** [gen_memory_walk] up to the loop. *)
Definition walk_start : res walk :=
  let ptr_reg := 1 in
  let current_ptr := 1000 in
  let* sim1 := ReferenceCPU.execute "addi" ptr_reg 0 None (Some current_ptr)
                 ReferenceCPU.init in
  Ok {| w_sim := sim1;
        w_asm := ["addi x" +:+ py_str ptr_reg +:+ ", x0, "
                    +:+ py_str current_ptr];
        current_ptr := current_ptr |}.

(** One turn of the loop of [gen_memory_walk]. *)
Definition walk_step (w : walk) (d : draw) : res walk :=
  let ptr_reg := 1 in
  let data_reg := 2 in
  match d with
  | Move k =>
      let move_amt := k * 4 in
      if (0 <=? current_ptr w + move_amt) && (current_ptr w + move_amt <? 2000)
      then
        let* sim1 := ReferenceCPU.execute "addi" ptr_reg ptr_reg None
                       (Some move_amt) (w_sim w) in
        Ok {| w_sim := sim1;
              w_asm := append (w_asm w) ("addi x" +:+ py_str ptr_reg +:+ ", x"
                                     +:+ py_str ptr_reg +:+ ", "
                                     +:+ py_str move_amt);
              current_ptr := current_ptr w + move_amt |}
      else Ok w
  | Write k val =>
      let offset := k * 4 in
      let addr := Z.land (current_ptr w + offset) 0xFFFFFFFF in
      if negb ((0 <=? addr) && (addr <? 2040)) then Ok w
      else
        let* sim1 := ReferenceCPU.execute "addi" data_reg 0 None (Some val)
                       (w_sim w) in
        let asm1 := append (w_asm w) ("addi x" +:+ py_str data_reg +:+ ", x0, "
                                  +:+ py_str val) in
        let* sim2 := ReferenceCPU.execute "sw" 0 ptr_reg (Some data_reg)
                       (Some offset) sim1 in
        Ok {| w_sim := sim2;
              w_asm := append asm1 ("sw x" +:+ py_str data_reg +:+ ", "
                                  +:+ py_str offset +:+ "(x"
                                  +:+ py_str ptr_reg +:+ ")");
              current_ptr := current_ptr w |}
  | Read k dest =>
      let offset := k * 4 in
      let addr := Z.land (current_ptr w + offset) 0xFFFFFFFF in
      if negb ((0 <=? addr) && (addr <? 2040)) then Ok w
      else
        let* sim1 := ReferenceCPU.execute "lw" dest ptr_reg None
                       (Some offset) (w_sim w) in
        Ok {| w_sim := sim1;
              w_asm := append (w_asm w) ("lw x" +:+ py_str dest +:+ ", "
                                     +:+ py_str offset +:+ "(x"
                                     +:+ py_str ptr_reg +:+ ")");
              current_ptr := current_ptr w |}
  end.

Fixpoint walk_steps (w : walk) (ds : list draw) : res walk :=
  match ds with
  | [] => Ok w
  | d :: ds' => let* w' := walk_step w d in walk_steps w' ds'
  end.

End Generators.

(** ** Notions used to state the properties *)

(** The register file has its 32 cells. *)
Definition wf (self : ReferenceCPU.cpu) : Prop :=
  length (ReferenceCPU.regs self) = 32%nat.

(** An index Python accepts on a list of 32 cells. *)
Definition valid_reg (idx : Z) : Prop := -32 <= idx < 32.

(** The second operand as [execute] fetches it. *)
Definition fetch_rs2 (rs2 : option Z) (self : ReferenceCPU.cpu) : res Z :=
  match rs2 with
  | Some r => ReferenceCPU.get_reg r self
  | None => Ok 0
  end.

(** The signed reading of a 32-bit unsigned value, as arithmetic. *)
Definition signed32 (a : Z) : Z := if a <? 2 ^ 31 then a else a - 2 ^ 32.

(** The sign extension of the low 12 bits of an integer, as arithmetic. *)
Definition sext12 (i : Z) : Z :=
  let low := i mod 2 ^ 12 in if low <? 2 ^ 11 then low else low - 2 ^ 12.

(** Two register indices name the same cell. *)
Definition same_cell (i j : Z) : Prop := py_index 32 i = py_index 32 j.

(** The operations [execute] has a branch for. *)
Definition supported : list string :=
  ["add"; "sub"; "and"; "or"; "slt"; "addi"; "lui"; "sw"; "lw"].

(** The operations that end in the commit to [rd]. *)
Definition writes_rd : list string :=
  ["add"; "sub"; "and"; "or"; "slt"; "addi"; "lui"; "lw"].

(** The address [sw] and [lw] compute from the base register and [imm]. *)
Definition effective_address (u_rs1 : Z) (imm : option Z) : Z :=
  Z.land (u_rs1 + default 0 imm) 0xFFFFFFFF.

(** The memory cell a call writes, when it is a [sw]. *)
Definition sw_cell (c : ReferenceCPU.call) (self : ReferenceCPU.cpu)
    : option Z :=
  if (ReferenceCPU.c_op c =? "sw")%string then
    match ReferenceCPU.get_reg (ReferenceCPU.c_rs1 c) self with
    | inr u_rs1 =>
        Some (effective_address u_rs1 (ReferenceCPU.c_imm c) / 4 * 4)
    | inl _ => None
    end
  else None.

(** Some call of the run [cs], started in [self], stores to cell [A]. *)
Fixpoint stores_to (A : Z) (cs : list ReferenceCPU.call)
    (self : ReferenceCPU.cpu) : Prop :=
  match cs with
  | [] => False
  | c :: cs' =>
      sw_cell c self = Some A
      \/ match ReferenceCPU.execute_call c self with
         | inr self' => stores_to A cs' self'
         | inl _ => False
         end
  end.

(** [addi] would reduce any integer passed as [imm] to its low 12 bits,
    sign-extended, before adding it. *)
Definition addi_sign_extends_every_immediate : Prop :=
  forall (self : ReferenceCPU.cpu) (rd rs1 imm a : Z),
    wf self -> valid_reg rd ->
    ReferenceCPU.get_reg rs1 self = Ok a ->
    exists self',
      ReferenceCPU.execute "addi" rd rs1 None (Some imm) self = Ok self'
      /\ ReferenceCPU.get_reg rd self'
         = Ok ((a + ReferenceCPU._sign_extend_12 imm) mod 2 ^ 32).

(** The number a string of binary digits denotes, first character most
    significant, and the test that a string has binary digits only. *)
Definition bit_value (c : ascii) : Z := if Ascii.eqb c "1" then 1 else 0.

Fixpoint bin_value (s : string) : Z :=
  match s with
  | EmptyString => 0
  | String c s' => bit_value c * 2 ^ Z.of_nat (String.length s') + bin_value s'
  end.

Fixpoint all_bits (s : string) : bool :=
  match s with
  | EmptyString => true
  | String c s' => (Ascii.eqb c "0" || Ascii.eqb c "1") && all_bits s'
  end.

(** [to_bin] would fit every integer into the field. *)
Definition to_bin_wraps_every_integer : Prop :=
  forall (v : Z) (bits : nat),
    String.length (Assembler.to_bin v bits) = bits
    /\ all_bits (Assembler.to_bin v bits) = true
    /\ bin_value (Assembler.to_bin v bits) = v mod 2 ^ Z.of_nat bits.

(** Bit [i] of an immediate in two's complement, and the [n] bits from
    bit [lo] upwards, most significant first. *)
Definition imm_bit (imm : Z) (i : nat) : string :=
  if Z.testbit imm (Z.of_nat i) then "1" else "0".

Fixpoint imm_bits (imm : Z) (lo n : nat) : string :=
  match n with
  | O => ""
  | S n' => imm_bit imm (lo + n') +:+ imm_bits imm lo n'
  end.

(** The B-type word as the layout lists its fields:
    imm[12] | imm[10:5] | rs2 | rs1 | funct3 | imm[4:1] | imm[11] | opcode. *)
Definition b_type_layout (imm rs2 rs1 : Z) (funct3 opcode : string) : string :=
  imm_bits imm 12 1 +:+ imm_bits imm 5 6 +:+ imm_bits rs2 0 5
    +:+ imm_bits rs1 0 5 +:+ funct3 +:+ imm_bits imm 1 4
    +:+ imm_bits imm 11 1 +:+ opcode.

(** The LoopSum program of the directed tests. *)
Definition loop_sum : list string :=
  ["# Sum numbers from 1 to 10. Result should be 55.";
   "addi x1, x0, 10";
   "addi x2, x0, 0";
   "addi x3, x0, -1";
   "loop:";
   "add x2, x2, x1";
   "add x1, x1, x3";
   "bne x1, x0, loop"].

(** What pass 1 looks at in a source line: the text before the comment,
    stripped. *)
Definition code_of (line : string) : string :=
  Assembler.strip (hd "" (Assembler.split "#" line)).

(** The label a source line declares, if it declares one: [name:] alone,
    or [name: instr]. *)
Definition label_of (line : string) : option string :=
  let code := code_of line in
  if (code =? "")%string then None
  else if Assembler.endswith ":" code then Some (Assembler.drop_last code)
  else if Assembler.contains ":" code then
    Some (Assembler.strip (hd "" (Assembler.split ":" code)))
  else None.

(** Two programs with the same three instructions and one label [end]:
    referenced before its declaration, and after it. *)
Definition forward_program : list string :=
  ["jal x0, end"; "addi x1, x0, 1"; "addi x2, x0, 2"; "end:"].

Definition backward_program : list string :=
  ["end:"; "addi x1, x0, 1"; "addi x2, x0, 2"; "jal x0, end"].

(** The token [t] occurs in the message [m]. *)
Fixpoint occurs (t m : string) : bool :=
  String.prefix t m
  || match m with
     | String _ m' => occurs t m'
     | EmptyString => false
     end.

(** The message of the exception a call raised, if it raised one. *)
Definition raised {A} (r : res A) : option string :=
  match r with
  | inl e => Some (message e)
  | inr _ => None
  end.

(** A value that fits 32 bits unsigned. *)
Definition u32 (v : Z) : Prop := 0 <= v < 2 ^ 32.

(** The state a run keeps: 32 registers of 32 bits, and memory cells at
    word-aligned 32-bit addresses holding 32-bit values. *)
Definition state_ok (self : ReferenceCPU.cpu) : Prop :=
  length (ReferenceCPU.regs self) = 32%nat
  /\ Forall u32 (ReferenceCPU.regs self)
  /\ map_Forall (fun a v => a mod 4 = 0 /\ u32 a /\ u32 v)
       (ReferenceCPU.mem self).

(** The numbers one turn of the memory walk may draw: a move of -50..50
    words, an offset of -100..100 words, a 12-bit value to write, a
    destination among x3..x31 for a read. *)
Definition draw_ok (d : Generators.draw) : Prop :=
  match d with
  | Generators.Move k => -50 <= k <= 50
  | Generators.Write k val => -100 <= k <= 100 /\ -2048 <= val <= 2047
  | Generators.Read k dest => -100 <= k <= 100 /\ 3 <= dest <= 31
  end.

(** What the memory walk keeps: register 1 is the pointer the generator
    tracks, a multiple of 4 below 2000; register 0 is 0; every memory
    cell lies word-aligned below 2040. *)
Definition walk_ok (w : Generators.walk) : Prop :=
  wf (Generators.w_sim w)
  /\ ReferenceCPU.get_reg 1 (Generators.w_sim w)
     = Ok (Generators.current_ptr w)
  /\ ReferenceCPU.get_reg 0 (Generators.w_sim w) = Ok 0
  /\ 0 <= Generators.current_ptr w < 2000
  /\ Generators.current_ptr w mod 4 = 0
  /\ map_Forall (fun a v => a mod 4 = 0 /\ 0 <= a < 2040 /\ u32 v)
       (ReferenceCPU.mem (Generators.w_sim w)).

(** A bit string read as a two's-complement number of its length. *)
Definition signed_value (s : string) : Z :=
  let n := Z.of_nat (String.length s) in
  if bin_value s <? 2 ^ (n - 1) then bin_value s else bin_value s - 2 ^ n.

(** No character of [s] satisfies [p]. *)
Fixpoint lacks (p : ascii -> bool) (s : string) : bool :=
  match s with
  | EmptyString => true
  | String c s' => negb (p c) && lacks p s'
  end.

(** A token: neither white space nor a comma in it. *)
Definition plain (s : string) : bool :=
  lacks (fun c => Assembler.isspace c || Ascii.eqb c ",") s.

(** The operands as the generators write them, [a, b, c], and a whole
    instruction [op a, b, c]. *)
Fixpoint operands_text (args : list string) : string :=
  match args with
  | [] => ""
  | [a] => a
  | a :: rest => a +:+ ", " +:+ operands_text rest
  end.

Definition instruction_text (m : string) (args : list string) : string :=
  m +:+ " " +:+ operands_text args.

(** The operand list pass 2 cuts out of a line. *)
Definition operands_of (line : string) : list string :=
  Assembler.strip
    <$> Assembler.split ","
          (Assembler.join (tail (Assembler.re_split_ws line false))).

(** A string without its white space. *)
Fixpoint squeeze (s : string) : string :=
  match s with
  | EmptyString => EmptyString
  | String c s' =>
      if Assembler.isspace c then squeeze s' else String c (squeeze s')
  end.

(** The words of the six formats, field by field, each immediate field
    given by the bits of the immediate it holds. *)
Definition reg_field (r : Z) : string := imm_bits r 0 5.

Definition r_type_layout (funct7 : string) (rs2 rs1 : Z) (funct3 : string)
    (rd : Z) (opcode : string) : string :=
  funct7 +:+ reg_field rs2 +:+ reg_field rs1 +:+ funct3 +:+ reg_field rd
    +:+ opcode.

Definition i_type_layout (imm rs1 : Z) (funct3 : string) (rd : Z)
    (opcode : string) : string :=
  imm_bits imm 0 12 +:+ reg_field rs1 +:+ funct3 +:+ reg_field rd +:+ opcode.

Definition s_type_layout (imm rs2 rs1 : Z) (funct3 opcode : string)
    : string :=
  imm_bits imm 5 7 +:+ reg_field rs2 +:+ reg_field rs1 +:+ funct3
    +:+ imm_bits imm 0 5 +:+ opcode.

Definition u_type_layout (imm rd : Z) (opcode : string) : string :=
  imm_bits imm 0 20 +:+ reg_field rd +:+ opcode.

Definition j_type_layout (imm rd : Z) (opcode : string) : string :=
  imm_bits imm 20 1 +:+ imm_bits imm 1 10 +:+ imm_bits imm 11 1
    +:+ imm_bits imm 12 8 +:+ reg_field rd +:+ opcode.

(** A field of the instruction table: [n] binary digits. *)
Definition bit_field (n : nat) (s : string) : Prop :=
  String.length s = n /\ all_bits s = true.

(** The memory operand [imm(reg)] as the generators write it. *)
Definition memory_text (imm_part reg_part : string) : string :=
  imm_part +:+ "(" +:+ reg_part +:+ ")".

(** No opening parenthesis in the string. *)
Definition no_paren (s : string) : bool := lacks (fun c => Ascii.eqb c "(") s.

(** What pass 1 keeps: the address is four times the number of queued
    lines, the line queued at position [i] has address [4 i] and is not
    empty, and every label points at a multiple of 4 between 0 and the
    current address. *)
Definition pass1_ok (st : Assembler.pass1) : Prop :=
  Assembler.pc st = 4 * Z.of_nat (length (Assembler.instructions st))
  /\ (forall i a l,
        Assembler.instructions st !! i = Some (a, l) ->
        a = 4 * Z.of_nat i /\ l <> "")
  /\ map_Forall (fun (_ : string) t =>
                   0 <= t <= Assembler.pc st /\ t mod 4 = 0)
       (Assembler.labels st).

(** A decimal digit. *)
Definition is_digit (c : ascii) : bool :=
  let n := nat_of_ascii c in ((48 <=? n) && (n <=? 57))%nat.

(** A string of decimal digits, or such a string after a minus sign. *)
Fixpoint all_digits (s : string) : bool :=
  match s with
  | EmptyString => true
  | String c s' => is_digit c && all_digits s'
  end.

Definition decimal_text (s : string) : bool :=
  match s with
  | String "-" r => all_digits r
  | _ => all_digits s
  end.

(** The normal form of a decimal number never starts with [0], except
    for zero itself. *)
Definition leading (d : Decimal.uint) : bool :=
  match d with
  | Decimal.Nil | Decimal.D0 _ => false
  | _ => true
  end.

(** Every key of the register map is an ABI name or [x] and the decimal
    text of its number. *)
Definition abi_names : list string :=
  ["zero"; "ra"; "sp"; "gp"; "tp"; "t0"; "t1"; "t2"; "s0"; "fp"; "s1";
   "a0"; "a1"; "a2"; "a3"; "a4"; "a5"; "a6"; "a7"; "s2"; "s3"; "s4"; "s5";
   "s6"; "s7"; "s8"; "s9"; "s10"; "s11"; "t3"; "t4"; "t5"; "t6"].

(** A token of a generated line: not empty, and free of white space,
    commas, comment signs and colons. *)
Definition token (s : string) : bool :=
  negb (s =? "")%string
  && lacks (fun c => Assembler.isspace c || Ascii.eqb c "," || Ascii.eqb c "#"
                     || Ascii.eqb c ":") s.

(** The first, and the last, character of [s] does not satisfy [sp]. *)
Definition head_ok (sp : ascii -> bool) (s : string) : bool :=
  match s with
  | String c _ => negb (sp c)
  | EmptyString => true
  end.

Fixpoint last_ok (sp : ascii -> bool) (s : string) : bool :=
  match s with
  | EmptyString => true
  | String c EmptyString => negb (sp c)
  | String _ s' => last_ok sp s'
  end.

(** A line pass 1 queues as it stands. *)
Definition clean_line (l : string) : Prop :=
  l <> ""
  /\ head_ok Assembler.isspace l = true
  /\ last_ok Assembler.isspace l = true
  /\ lacks (fun c => Ascii.eqb c "#") l = true
  /\ lacks (fun c => Ascii.eqb c ":") l = true.

(** The lines the generators write with their f-strings. *)
Definition addi_text (rd rs1 imm : Z) : string :=
  "addi x" +:+ py_str rd +:+ ", x" +:+ py_str rs1 +:+ ", " +:+ py_str imm.

Definition sw_text (rs2 imm rs1 : Z) : string :=
  "sw x" +:+ py_str rs2 +:+ ", " +:+ py_str imm +:+ "(x" +:+ py_str rs1
    +:+ ")".

Definition lw_text (rd imm rs1 : Z) : string :=
  "lw x" +:+ py_str rd +:+ ", " +:+ py_str imm +:+ "(x" +:+ py_str rs1
    +:+ ")".

(** A line of the memory walk: [addi], [sw] or [lw] on registers
    0..31 with a 12-bit immediate. *)
Definition walk_line (l : string) : Prop :=
  exists a b imm,
    0 <= a < 32 /\ 0 <= b < 32 /\ -2048 <= imm < 2048
    /\ (l = addi_text a b imm \/ l = sw_text a imm b \/ l = lw_text a imm b).

(** A line that assembles on its own: pass 1 queues it as it stands and,
    without labels, it encodes to a word of 32 binary digits wherever it
    stands. *)
Definition assembles_alone (l : string) : Prop :=
  clean_line l
  /\ forall pc, exists w, Assembler.encode ∅ pc l = Ok w /\ bit_field 32 w.

(** ** Bit-level facts *)

Lemma land_mask32 (v : Z) : Z.land v 0xFFFFFFFF = v mod 2 ^ 32.
Proof. change 0xFFFFFFFF with (Z.ones 32). apply Z.land_ones. lia. Qed.

Lemma land_one_bit (n v : Z) :
  0 <= n -> Z.land v (2 ^ n) = if Z.testbit v n then 2 ^ n else 0.
Proof.
  intros Hn. apply Z.bits_inj'. intros k Hk.
  rewrite Z.land_spec, Z.pow2_bits_eqb by lia.
  destruct (Z.eqb_spec n k) as [->|Hne].
  - destruct (Z.testbit v k) eqn:E; simpl.
    + rewrite Z.pow2_bits_true; auto.
    + now rewrite Z.bits_0.
  - rewrite andb_false_r.
    destruct (Z.testbit v n).
    + rewrite Z.pow2_bits_false; auto.
    + now rewrite Z.bits_0.
Qed.

Lemma top_bit (n v : Z) :
  0 <= n -> 0 <= v < 2 ^ (n + 1) -> Z.testbit v n = (2 ^ n <=? v).
Proof.
  intros Hn Hv.
  rewrite Z.pow_add_r in Hv by lia. change (2 ^ 1) with 2 in Hv.
  assert (Hp : 0 < 2 ^ n) by (apply Z.pow_pos_nonneg; lia).
  rewrite Z.testbit_eqb by lia.
  destruct (Z.leb_spec (2 ^ n) v) as [Hge|Hlt].
  - assert (Hq : v / 2 ^ n = 1).
    { symmetry. apply (Z.div_unique v (2 ^ n) 1 (v - 2 ^ n)); lia. }
    now rewrite Hq.
  - rewrite Z.div_small by lia. reflexivity.
Qed.

Lemma land_top_bit_zero (n v : Z) :
  0 <= n -> 0 <= v < 2 ^ (n + 1) ->
  (Z.land v (2 ^ n) =? 0) = (v <? 2 ^ n).
Proof.
  intros Hn Hv.
  assert (Hp : 0 < 2 ^ n) by (apply Z.pow_pos_nonneg; lia).
  rewrite land_one_bit, top_bit by assumption.
  destruct (Z.leb_spec (2 ^ n) v), (Z.ltb_spec v (2 ^ n));
    try lia; try reflexivity; apply Z.eqb_neq; lia.
Qed.

Lemma to_signed_32_spec (a : Z) :
  0 <= a < 2 ^ 32 -> ReferenceCPU._to_signed_32 a = signed32 a.
Proof.
  intros Ha. unfold ReferenceCPU._to_signed_32, signed32.
  rewrite land_mask32, Z.mod_small by assumption.
  change 0x80000000 with (2 ^ 31).
  rewrite (land_top_bit_zero 31) by (simpl; lia).
  change 0x100000000 with (2 ^ 32).
  now destruct (a <? 2 ^ 31).
Qed.

Lemma sign_extend_12_spec (i : Z) : ReferenceCPU._sign_extend_12 i = sext12 i.
Proof.
  unfold ReferenceCPU._sign_extend_12, sext12.
  change 0xFFF with (Z.ones 12). rewrite Z.land_ones by lia.
  change 0x800 with (2 ^ 11). change 0x1000 with (2 ^ 12).
  assert (H : 0 <= i mod 2 ^ 12 < 2 ^ 12) by (apply Z.mod_pos_bound; lia).
  rewrite (land_top_bit_zero 11) by (simpl; lia).
  now destruct (i mod 2 ^ 12 <? 2 ^ 11).
Qed.

Lemma sext12_in_range (i : Z) : -2048 <= i <= 2047 -> sext12 i = i.
Proof.
  intros Hi. unfold sext12. change (2 ^ 12) with 4096. change (2 ^ 11) with 2048.
  destruct (Z.ltb_spec (i mod 4096) 2048) as [H|H];
    Z.div_mod_to_equations; lia.
Qed.

(** ** The register file *)

Lemma py_index_valid (idx : Z) :
  valid_reg idx -> exists i, py_index 32 idx = Some i /\ (i < 32)%nat.
Proof.
  unfold valid_reg, py_index. intros H.
  destruct (Z.leb_spec 0 idx).
  - destruct (Z.ltb_spec idx (Z.of_nat 32)); [|lia].
    eexists; split; [reflexivity|lia].
  - destruct (Z.leb_spec (- Z.of_nat 32) idx); [|lia].
    eexists; split; [reflexivity|lia].
Qed.

Lemma get_reg_total (idx : Z) (self : ReferenceCPU.cpu) :
  wf self -> valid_reg idx -> exists v, ReferenceCPU.get_reg idx self = Ok v.
Proof.
  intros Hwf Hidx. destruct (py_index_valid idx Hidx) as (i & Hi & Hlt).
  unfold ReferenceCPU.get_reg. rewrite Hwf, Hi.
  destruct (lookup_lt_is_Some_2 (ReferenceCPU.regs self) i) as [v Hv].
  { rewrite Hwf. exact Hlt. }
  rewrite Hv. eauto.
Qed.

(** What the commit [self.set_reg(rd, res)] leaves behind. *)
Lemma set_reg_spec (rd val : Z) (self : ReferenceCPU.cpu) :
  wf self -> valid_reg rd ->
  exists self',
    ReferenceCPU.set_reg rd val self = Ok self'
    /\ wf self'
    /\ ReferenceCPU.mem self' = ReferenceCPU.mem self
    /\ ReferenceCPU.get_reg rd self' = Ok (ReferenceCPU._to_unsigned_32 val)
    /\ (forall idx, ~ same_cell idx rd ->
          ReferenceCPU.get_reg idx self' = ReferenceCPU.get_reg idx self).
Proof.
  intros Hwf Hrd. destruct (py_index_valid rd Hrd) as (i & Hi & Hlt).
  unfold ReferenceCPU.set_reg. rewrite Hwf, Hi.
  eexists. split; [reflexivity|].
  assert (Hlen : length (<[i:=ReferenceCPU._to_unsigned_32 val]>
                           (ReferenceCPU.regs self)) = 32%nat)
    by (rewrite length_insert; exact Hwf).
  repeat split.
  - exact Hlen.
  - unfold ReferenceCPU.get_reg. simpl. rewrite Hlen, Hi.
    rewrite list_lookup_insert_eq by (rewrite Hwf; exact Hlt). reflexivity.
  - intros idx Hne. unfold ReferenceCPU.get_reg. simpl. rewrite Hlen, Hwf.
    unfold same_cell in Hne. rewrite Hi in Hne.
    destruct (py_index 32 idx) as [j|] eqn:Hj; [|reflexivity].
    rewrite list_lookup_insert_ne by congruence. reflexivity.
Qed.

(** [execute] on an operation that reaches the commit. *)
Lemma execute_commit (op : string) (rd rs1 : Z) (rs2 imm : option Z)
    (self : ReferenceCPU.cpu) (u1 u2 r : Z) :
  wf self -> valid_reg rd ->
  ReferenceCPU.get_reg rs1 self = Ok u1 ->
  fetch_rs2 rs2 self = Ok u2 ->
  ReferenceCPU.execute_res op u1 u2
    (ReferenceCPU._to_signed_32 u1) (ReferenceCPU._to_signed_32 u2)
    (match imm with
     | Some i => if negb (op =? "lui")%string then i
                 else ReferenceCPU._to_unsigned_32 i
     | None => 0
     end) imm self = Ok (inr r) ->
  exists self',
    ReferenceCPU.execute op rd rs1 rs2 imm self = Ok self'
    /\ wf self'
    /\ ReferenceCPU.mem self' = ReferenceCPU.mem self
    /\ ReferenceCPU.get_reg rd self' = Ok (ReferenceCPU._to_unsigned_32 r)
    /\ (forall idx, ~ same_cell idx rd ->
          ReferenceCPU.get_reg idx self' = ReferenceCPU.get_reg idx self).
Proof.
  intros Hwf Hrd H1 H2 Hres.
  destruct (set_reg_spec rd r self Hwf Hrd) as (self' & Hset & Hrest).
  exists self'. split; [|exact Hrest].
  unfold ReferenceCPU.execute. rewrite H1. simpl.
  unfold fetch_rs2 in H2. rewrite H2. simpl.
  rewrite Hres. simpl. exact Hset.
Qed.

(** ** The reference CPU: arithmetic *)

(** C2.  For 32-bit unsigned register contents [a] and [b], [add] stores
    [(a + b) mod 2^32] into [rd], [sub] stores [(a - b) mod 2^32], and
    [slt] stores 1 exactly when [a] read as a signed 32-bit number is less
    than [b] read the same way, 0 otherwise; with [a = 0x80000000] and
    [b = 0] it stores 1. *)
Theorem reference_add_sub_slt (self : ReferenceCPU.cpu) (rd rs1 rs2 : Z)
    (imm : option Z) (a b : Z) :
  wf self -> valid_reg rd ->
  ReferenceCPU.get_reg rs1 self = Ok a ->
  ReferenceCPU.get_reg rs2 self = Ok b ->
  0 <= a < 2 ^ 32 -> 0 <= b < 2 ^ 32 ->
  (exists s1,
      ReferenceCPU.execute "add" rd rs1 (Some rs2) imm self = Ok s1
      /\ ReferenceCPU.get_reg rd s1 = Ok ((a + b) mod 2 ^ 32))
  /\ (exists s2,
      ReferenceCPU.execute "sub" rd rs1 (Some rs2) imm self = Ok s2
      /\ ReferenceCPU.get_reg rd s2 = Ok ((a - b) mod 2 ^ 32))
  /\ (exists s3,
      ReferenceCPU.execute "slt" rd rs1 (Some rs2) imm self = Ok s3
      /\ ReferenceCPU.get_reg rd s3
         = Ok (if signed32 a <? signed32 b then 1 else 0)
      /\ (a = 0x80000000 -> b = 0 -> ReferenceCPU.get_reg rd s3 = Ok 1)).
Proof.
  intros Hwf Hrd H1 H2 Ha Hb.
  split; [|split].
  - destruct (execute_commit "add" rd rs1 (Some rs2) imm self a b (a + b))
      as (s & He & _ & _ & Hg & _); auto.
    exists s. split; [exact He|]. rewrite Hg.
    unfold ReferenceCPU._to_unsigned_32. now rewrite land_mask32.
  - destruct (execute_commit "sub" rd rs1 (Some rs2) imm self a b (a - b))
      as (s & He & _ & _ & Hg & _); auto.
    exists s. split; [exact He|]. rewrite Hg.
    unfold ReferenceCPU._to_unsigned_32. now rewrite land_mask32.
  - destruct (execute_commit "slt" rd rs1 (Some rs2) imm self a b
                (if signed32 a <? signed32 b then 1 else 0))
      as (s & He & _ & _ & Hg & _); auto.
    { unfold ReferenceCPU.execute_res. simpl.
      now rewrite !to_signed_32_spec by assumption. }
    assert (Hv : ReferenceCPU.get_reg rd s
                 = Ok (if signed32 a <? signed32 b then 1 else 0)).
    { rewrite Hg. now destruct (signed32 a <? signed32 b). }
    exists s. split; [exact He|]. split; [exact Hv|].
    intros -> ->. exact Hv.
Qed.

Lemma reference_add_sub_slt_witness :
  let self := {| ReferenceCPU.regs := <[1%nat := 0x80000000]> (replicate 32 0);
                 ReferenceCPU.mem := ∅ |} in
  exists s3,
    ReferenceCPU.execute "slt" 3 1 (Some 2) None self = Ok s3
    /\ ReferenceCPU.get_reg 3 s3 = Ok 1.
Proof.
  intros self.
  destruct (reference_add_sub_slt self 3 1 2 None 0x80000000 0)
    as (_ & _ & s3 & He & _ & Hv).
  - reflexivity.
  - unfold valid_reg. lia.
  - reflexivity.
  - reflexivity.
  - lia.
  - lia.
  - exists s3. split; [exact He|]. apply Hv; reflexivity.
Defined.

(** ** The reference CPU: the immediate of [addi] *)

(** [execute] adds the immediate as it is passed: 2048, which the 12-bit
    field reads as -2048, is added as 2048. *)
Lemma addi_2048_not_sign_extended : ~ addi_sign_extends_every_immediate.
Proof.
  intros H.
  destruct (H ReferenceCPU.init 1 0 2048 0) as (self' & He & Hg).
  - reflexivity.
  - unfold valid_reg. lia.
  - reflexivity.
  - vm_compute in He. injection He as <-. vm_compute in Hg. discriminate Hg.
Qed.

(** C5, as the code has it.  [addi] stores [(rs1 + imm) mod 2^32] for the
    integer [imm] it is passed; when [imm] lies in [-2048, 2047] this is
    [(rs1 + sign_extend_12(imm)) mod 2^32]. *)
Theorem addi_adds_the_immediate_as_passed (self : ReferenceCPU.cpu)
    (rd rs1 imm a : Z) :
  wf self -> valid_reg rd ->
  ReferenceCPU.get_reg rs1 self = Ok a ->
  exists self',
    ReferenceCPU.execute "addi" rd rs1 None (Some imm) self = Ok self'
    /\ ReferenceCPU.get_reg rd self' = Ok ((a + imm) mod 2 ^ 32)
    /\ (-2048 <= imm <= 2047 ->
        ReferenceCPU.get_reg rd self'
        = Ok ((a + ReferenceCPU._sign_extend_12 imm) mod 2 ^ 32)).
Proof.
  intros Hwf Hrd H1.
  destruct (execute_commit "addi" rd rs1 None (Some imm) self a 0 (a + imm))
    as (s & He & _ & _ & Hg & _); auto.
  assert (Hv : ReferenceCPU.get_reg rd s = Ok ((a + imm) mod 2 ^ 32)).
  { rewrite Hg. unfold ReferenceCPU._to_unsigned_32. now rewrite land_mask32. }
  exists s. split; [exact He|]. split; [exact Hv|].
  intros Hi. now rewrite sign_extend_12_spec, sext12_in_range.
Qed.

Lemma addi_adds_the_immediate_as_passed_witness :
  exists self',
    ReferenceCPU.execute "addi" 5 0 None (Some (-1)) ReferenceCPU.init
    = Ok self'
    /\ ReferenceCPU.get_reg 5 self' = Ok 0xFFFFFFFF.
Proof.
  destruct (addi_adds_the_immediate_as_passed ReferenceCPU.init 5 0 (-1) 0)
    as (self' & He & Hv & _).
  - reflexivity.
  - unfold valid_reg. lia.
  - reflexivity.
  - exists self'. split; [exact He|exact Hv].
Defined.

(** ** The reference CPU: operations outside the supported set *)

Lemma eqb_unsupported (op s : string) :
  ~ In op supported -> In s supported -> (op =? s)%string = false.
Proof.
  intros Hop Hs. apply String.eqb_neq. intros ->. contradiction.
Qed.

(** C9.  An operation name outside [add, sub, and, or, slt, addi, lui, sw,
    lw] raises nothing: [execute] falls through to the commit with
    [res = 0], so register [rd] becomes 0, memory and the other
    registers stay as they were. *)
Theorem unsupported_op_writes_zero (op : string) (rd rs1 : Z)
    (rs2 imm : option Z) (self : ReferenceCPU.cpu) (u1 u2 : Z) :
  ~ In op supported ->
  wf self -> valid_reg rd ->
  ReferenceCPU.get_reg rs1 self = Ok u1 ->
  fetch_rs2 rs2 self = Ok u2 ->
  exists self',
    ReferenceCPU.execute op rd rs1 rs2 imm self = Ok self'
    /\ ReferenceCPU.get_reg rd self' = Ok 0
    /\ ReferenceCPU.mem self' = ReferenceCPU.mem self
    /\ (forall idx, ~ same_cell idx rd ->
          ReferenceCPU.get_reg idx self' = ReferenceCPU.get_reg idx self).
Proof.
  intros Hop Hwf Hrd H1 H2.
  destruct (execute_commit op rd rs1 rs2 imm self u1 u2 0)
    as (s & He & _ & Hm & Hg & Ho); auto.
  { unfold ReferenceCPU.execute_res.
    rewrite !(eqb_unsupported op) by (assumption || (simpl; tauto)).
    reflexivity. }
  exists s. repeat split; assumption.
Qed.

Lemma unsupported_op_writes_zero_witness :
  let self := {| ReferenceCPU.regs := <[7%nat := 99]> (replicate 32 0);
                 ReferenceCPU.mem := {[ 8 := 5 ]} |} in
  exists self',
    ReferenceCPU.execute "mul" 7 1 (Some 2) (Some 3) self = Ok self'
    /\ ReferenceCPU.get_reg 7 self' = Ok 0
    /\ ReferenceCPU.mem self' = {[ 8 := 5 ]}.
Proof.
  intros self.
  destruct (unsupported_op_writes_zero "mul" 7 1 (Some 2) (Some 3) self 0 0)
    as (self' & He & Hg & Hm & _).
  - unfold supported. simpl. intuition discriminate.
  - reflexivity.
  - unfold valid_reg. lia.
  - reflexivity.
  - reflexivity.
  - exists self'. repeat split; assumption.
Defined.

(** ** The reference CPU: register 0 *)

(** C10.  Register 0 is an ordinary cell: each operation that writes a
    register, called with [rd = 0], stores its result [r] masked to 32
    bits, that is [r mod 2^32], into register 0, and [get_reg(0)] returns
    it. *)
Theorem register_zero_is_writable (op : string) (rs1 : Z)
    (rs2 imm : option Z) (self : ReferenceCPU.cpu) (u1 u2 : Z) :
  In op writes_rd ->
  (op = "lui" -> imm <> None) ->
  wf self ->
  ReferenceCPU.get_reg rs1 self = Ok u1 ->
  fetch_rs2 rs2 self = Ok u2 ->
  exists r self',
    ReferenceCPU.execute_res op u1 u2
      (ReferenceCPU._to_signed_32 u1) (ReferenceCPU._to_signed_32 u2)
      (match imm with
       | Some i => if negb (op =? "lui")%string then i
                   else ReferenceCPU._to_unsigned_32 i
       | None => 0
       end) imm self = Ok (inr r)
    /\ ReferenceCPU.execute op 0 rs1 rs2 imm self = Ok self'
    /\ ReferenceCPU.get_reg 0 self' = Ok (r mod 2 ^ 32)
    /\ ReferenceCPU.regs self' !! 0%nat = Some (r mod 2 ^ 32).
Proof.
  intros Hop Hlui Hwf H1 H2.
  assert (Hr : exists r,
    ReferenceCPU.execute_res op u1 u2
      (ReferenceCPU._to_signed_32 u1) (ReferenceCPU._to_signed_32 u2)
      (match imm with
       | Some i => if negb (op =? "lui")%string then i
                   else ReferenceCPU._to_unsigned_32 i
       | None => 0
       end) imm self = Ok (inr r)).
  { unfold writes_rd in Hop. simpl in Hop.
    destruct imm as [i|].
    - repeat (destruct Hop as [<-|Hop]; [eexists; reflexivity|]).
      contradiction.
    - repeat (destruct Hop as [<-|Hop];
              [first [eexists; reflexivity | now contradiction Hlui]|]).
      contradiction. }
  destruct Hr as [r Hr].
  destruct (execute_commit op 0 rs1 rs2 imm self u1 u2 r)
    as (s & He & Hwf' & _ & Hg & _); auto.
  { unfold valid_reg. lia. }
  unfold ReferenceCPU._to_unsigned_32 in Hg. rewrite land_mask32 in Hg.
  exists r, s. repeat split; try assumption.
  unfold ReferenceCPU.get_reg in Hg. rewrite Hwf' in Hg.
  change (py_index 32 0) with (Some 0%nat) in Hg.
  unfold Ok, Raise in Hg.
  destruct (ReferenceCPU.regs s !! 0%nat); [congruence|discriminate].
Qed.

Lemma register_zero_is_writable_witness :
  exists self',
    ReferenceCPU.execute "addi" 0 0 None (Some 5) ReferenceCPU.init = Ok self'
    /\ ReferenceCPU.get_reg 0 self' = Ok 5.
Proof.
  destruct (register_zero_is_writable "addi" 0 None (Some 5)
              ReferenceCPU.init 0 0)
    as (r & self' & Hr & He & Hg & _).
  - unfold writes_rd. simpl. tauto.
  - discriminate.
  - reflexivity.
  - reflexivity.
  - reflexivity.
  - exists self'. split; [exact He|].
    vm_compute in Hr. injection Hr as <-. exact Hg.
Defined.

(** ** The reference CPU: memory *)

Lemma execute_sw (rd rs1 : Z) (rs2 imm : option Z) (self : ReferenceCPU.cpu)
    (u1 u2 : Z) :
  ReferenceCPU.get_reg rs1 self = Ok u1 ->
  fetch_rs2 rs2 self = Ok u2 ->
  ReferenceCPU.execute "sw" rd rs1 rs2 imm self
  = Ok (ReferenceCPU.store_word (effective_address u1 imm) u2 self).
Proof.
  intros H1 H2. unfold ReferenceCPU.execute. rewrite H1. simpl.
  unfold fetch_rs2 in H2. rewrite H2. simpl.
  destruct imm; reflexivity.
Qed.

(** Only the branch of [sw] returns early. *)
Lemma execute_res_early (op : string) (u1 u2 s1 s2 s_imm : Z)
    (imm : option Z) (self self' : ReferenceCPU.cpu) :
  ReferenceCPU.execute_res op u1 u2 s1 s2 s_imm imm self = Ok (inl self') ->
  op = "sw"
  /\ self' = ReferenceCPU.store_word (Z.land (u1 + s_imm) 0xFFFFFFFF) u2 self.
Proof.
  unfold ReferenceCPU.execute_res, Ok, Raise.
  repeat match goal with
         | |- context [if (op =? ?s)%string then _ else _] =>
             destruct (String.eqb_spec op s)
         end;
    try discriminate; try (destruct imm; discriminate).
  intros [= <-]. split; [assumption|reflexivity].
Qed.

(** A call that is not a store to cell [A] leaves [A] unwritten. *)
Lemma execute_call_keeps_unwritten (c : ReferenceCPU.call)
    (self self' : ReferenceCPU.cpu) (A : Z) :
  ReferenceCPU.execute_call c self = Ok self' ->
  sw_cell c self <> Some A ->
  ReferenceCPU.mem self !! A = None ->
  ReferenceCPU.mem self' !! A = None.
Proof.
  destruct c as [op rd rs1 rs2 imm].
  unfold ReferenceCPU.execute_call, ReferenceCPU.execute, sw_cell. simpl.
  destruct (ReferenceCPU.get_reg rs1 self) as [e|u1]; [discriminate|]. simpl.
  destruct (match rs2 with
            | Some r => ReferenceCPU.get_reg r self
            | None => Ok 0
            end) as [e|u2]; [discriminate|]. simpl.
  destruct (ReferenceCPU.execute_res _ _ _ _ _ _ _ _) as [e|[s|r]] eqn:Er;
    simpl; [discriminate| |].
  - apply execute_res_early in Er as [-> ->]. simpl.
    intros [= <-] Hcell Hnone. simpl.
    rewrite lookup_insert_ne; [exact Hnone|].
    intros Heq. apply Hcell. f_equal. rewrite <- Heq.
    unfold effective_address. now destruct imm.
  - unfold ReferenceCPU.set_reg.
    destruct (py_index _ rd); [|discriminate].
    intros [= <-] _ Hnone. exact Hnone.
Qed.

Lemma run_keeps_unwritten (cs : list ReferenceCPU.call) (A : Z) :
  forall self self',
    ReferenceCPU.run cs self = Ok self' ->
    ~ stores_to A cs self ->
    ReferenceCPU.mem self !! A = None ->
    ReferenceCPU.mem self' !! A = None.
Proof.
  induction cs as [|c cs IH]; simpl; intros self self' Hrun Hno Hnone.
  - injection Hrun as <-. exact Hnone.
  - destruct (ReferenceCPU.execute_call c self) as [e|s1] eqn:Ec;
      [discriminate|]. simpl in Hrun.
    apply (IH s1 self' Hrun).
    + tauto.
    + apply (execute_call_keeps_unwritten c self s1 A Ec); tauto.
Qed.

Lemma aligned_same_word (a a' : Z) : a' / 4 = a / 4 -> a' / 4 * 4 = a / 4 * 4.
Proof. now intros ->. Qed.

(** C3.  [sw] and [lw] access the word cell at [(a div 4) * 4] of the
    effective address [a]: [sw] puts the stored register there and changes
    no register; [lw] reads that cell, 0 when it is absent; a word [v]
    stored at address 6 is what a load from address 4 or from address 7
    observes; and after any run of calls from the initial state, a cell no
    [sw] of the run stored to is absent, so [lw] yields 0 for it. *)
Theorem sw_lw_word_cell (self : ReferenceCPU.cpu) (rd rs1 : Z)
    (rs2 imm : option Z) (u1 u2 : Z) :
  wf self -> valid_reg rd ->
  ReferenceCPU.get_reg rs1 self = Ok u1 ->
  fetch_rs2 rs2 self = Ok u2 ->
  let a := effective_address u1 imm in
  (exists s1,
      ReferenceCPU.execute "sw" rd rs1 rs2 imm self = Ok s1
      /\ ReferenceCPU.regs s1 = ReferenceCPU.regs self
      /\ ReferenceCPU.mem s1
         = <[a / 4 * 4 := u2 mod 2 ^ 32]> (ReferenceCPU.mem self))
  /\ (exists s2,
      ReferenceCPU.execute "lw" rd rs1 rs2 imm self = Ok s2
      /\ ReferenceCPU.mem s2 = ReferenceCPU.mem self
      /\ ReferenceCPU.get_reg rd s2
         = Ok (default 0 (ReferenceCPU.mem self !! (a / 4 * 4)) mod 2 ^ 32)
      /\ (ReferenceCPU.mem self !! (a / 4 * 4) = None ->
          ReferenceCPU.get_reg rd s2 = Ok 0))
  /\ (forall v a',
        0 <= v < 2 ^ 32 -> a' / 4 = a / 4 ->
        ReferenceCPU.load_word a' (ReferenceCPU.store_word a v self) = v)
  /\ (forall v,
        0 <= v < 2 ^ 32 ->
        ReferenceCPU.load_word 4 (ReferenceCPU.store_word 6 v self) = v
        /\ ReferenceCPU.load_word 7 (ReferenceCPU.store_word 6 v self) = v)
  /\ (forall cs s,
        ReferenceCPU.run cs ReferenceCPU.init = Ok s ->
        forall b, ~ stores_to (b / 4 * 4) cs ReferenceCPU.init ->
        ReferenceCPU.load_word b s = 0).
Proof.
  intros Hwf Hrd H1 H2 a.
  assert (Hst : forall v x x', 0 <= v < 2 ^ 32 -> x' / 4 = x / 4 ->
            ReferenceCPU.load_word x' (ReferenceCPU.store_word x v self) = v).
  { intros v x x' Hv Hx.
    unfold ReferenceCPU.load_word, ReferenceCPU.store_word. simpl.
    rewrite (aligned_same_word x x' Hx), lookup_insert_eq. simpl.
    unfold ReferenceCPU._to_unsigned_32.
    rewrite land_mask32. now apply Z.mod_small. }
  split; [|split; [|split; [|split]]].
  - exists (ReferenceCPU.store_word a u2 self).
    split; [now apply execute_sw|]. split; [reflexivity|].
    unfold ReferenceCPU.store_word. simpl.
    unfold ReferenceCPU._to_unsigned_32. now rewrite land_mask32.
  - destruct (execute_commit "lw" rd rs1 rs2 imm self u1 u2
                (ReferenceCPU.load_word a self))
      as (s & He & _ & Hm & Hg & _); auto.
    exists s. split; [exact He|]. split; [exact Hm|].
    unfold ReferenceCPU._to_unsigned_32 in Hg. rewrite land_mask32 in Hg.
    split; [exact Hg|].
    intros Hnone. rewrite Hg. unfold ReferenceCPU.load_word.
    now rewrite Hnone.
  - intros v a'. apply Hst.
  - intros v Hv. split; apply Hst; auto.
  - intros cs s Hrun b Hno. unfold ReferenceCPU.load_word.
    rewrite (run_keeps_unwritten cs (b / 4 * 4) _ _ Hrun Hno); reflexivity.
Qed.

Lemma sw_lw_word_cell_witness :
  let self := {| ReferenceCPU.regs :=
                   <[2%nat := 0xDEADBEEF]> (<[1%nat := 2]> (replicate 32 0));
                 ReferenceCPU.mem := ∅ |} in
  exists s1 s2,
    ReferenceCPU.execute "sw" 0 1 (Some 2) (Some 4) self = Ok s1
    /\ ReferenceCPU.regs s1 = ReferenceCPU.regs self
    /\ ReferenceCPU.mem s1 = {[ 4 := 0xDEADBEEF ]}
    /\ ReferenceCPU.execute "lw" 3 1 None (Some 5) s1 = Ok s2
    /\ ReferenceCPU.get_reg 3 s2 = Ok 0xDEADBEEF.
Proof.
  intros self.
  destruct (sw_lw_word_cell self 0 1 (Some 2) (Some 4) 2 0xDEADBEEF)
    as ((s1 & He1 & Hr1 & Hm1) & _).
  - reflexivity.
  - unfold valid_reg. lia.
  - reflexivity.
  - reflexivity.
  - assert (Hs1 : s1 = {| ReferenceCPU.regs := ReferenceCPU.regs self;
                          ReferenceCPU.mem := {[ 4 := 0xDEADBEEF ]} |}).
    { destruct s1 as [r m]. simpl in Hr1, Hm1. subst r m. reflexivity. }
    destruct (sw_lw_word_cell s1 3 1 None (Some 5) 2 0)
      as (_ & (s2 & He2 & _ & Hg2 & _) & _).
    + rewrite Hs1. reflexivity.
    + unfold valid_reg. lia.
    + rewrite Hs1. reflexivity.
    + reflexivity.
    + exists s1, s2. split; [exact He1|]. split; [exact Hr1|].
      split; [rewrite Hs1; reflexivity|]. split; [exact He2|].
      rewrite Hg2, Hs1. reflexivity.
Defined.

(** ** The assembler: [to_bin] *)

Section BinaryStrings.

Lemma app_nil (t : string) : "" +:+ t = t.
Proof. reflexivity. Qed.

Lemma app_cons (c : ascii) (s t : string) :
  String c s +:+ t = String c (s +:+ t).
Proof. reflexivity. Qed.

Lemma length_app (s t : string) :
  String.length (s +:+ t) = (String.length s + String.length t)%nat.
Proof.
  induction s as [|c s IH]; [reflexivity|].
  rewrite app_cons. simpl. now rewrite IH.
Qed.

Lemma bin_value_app (s t : string) :
  bin_value (s +:+ t)
  = bin_value s * 2 ^ Z.of_nat (String.length t) + bin_value t.
Proof.
  induction s as [|c s IH]; [rewrite app_nil; simpl; lia|].
  rewrite app_cons. simpl.
  rewrite IH, length_app, Nat2Z.inj_add, Z.pow_add_r by lia. ring.
Qed.

Lemma all_bits_app (s t : string) :
  all_bits (s +:+ t) = all_bits s && all_bits t.
Proof.
  induction s as [|c s IH]; [reflexivity|].
  rewrite app_cons. simpl. now rewrite IH, andb_assoc.
Qed.

Lemma length_zeros (n : nat) : String.length (Assembler.zeros n) = n.
Proof. induction n; simpl; congruence. Qed.

Lemma bin_value_zeros (n : nat) : bin_value (Assembler.zeros n) = 0.
Proof. induction n; simpl; [reflexivity|]. rewrite IHn. reflexivity. Qed.

Lemma all_bits_zeros (n : nat) : all_bits (Assembler.zeros n) = true.
Proof. induction n; simpl; auto. Qed.

Lemma length_bin_pos (p : positive) (acc : string) :
  String.length (Assembler.bin_pos p acc)
  = (Pos.size_nat p + String.length acc)%nat.
Proof.
  revert acc. induction p as [p IH|p IH|]; intros acc; simpl;
    try rewrite IH; simpl; lia.
Qed.

Lemma bin_value_bin_pos (p : positive) (acc : string) :
  bin_value (Assembler.bin_pos p acc)
  = Z.pos p * 2 ^ Z.of_nat (String.length acc) + bin_value acc.
Proof.
  revert acc. induction p as [p IH|p IH|]; intros acc; simpl Assembler.bin_pos.
  - rewrite IH. simpl bin_value. simpl String.length.
    rewrite Nat2Z.inj_succ, Z.pow_succ_r by lia.
    change (bit_value "1") with 1. lia.
  - rewrite IH. simpl bin_value. simpl String.length.
    rewrite Nat2Z.inj_succ, Z.pow_succ_r by lia.
    change (bit_value "0") with 0. lia.
  - simpl. change (bit_value "1") with 1. lia.
Qed.

Lemma all_bits_bin_pos (p : positive) (acc : string) :
  all_bits acc = true -> all_bits (Assembler.bin_pos p acc) = true.
Proof.
  revert acc. induction p as [p IH|p IH|]; intros acc H; simpl;
    try apply IH; simpl; exact H.
Qed.

Lemma size_nat_bound (p : positive) :
  forall bits : nat,
    Z.pos p < 2 ^ Z.of_nat bits -> (Pos.size_nat p <= bits)%nat.
Proof.
  induction p as [p IH|p IH|]; intros [|b] H;
    try (change (2 ^ Z.of_nat 0) with 1 in H; lia);
    rewrite Nat2Z.inj_succ, Z.pow_succ_r in H by lia; simpl;
    try (apply le_n_S, IH); lia.
Qed.

(** The digits of a number that fits the field, padded to the field. *)
Lemma format_0b_fits (val : Z) (bits : nat) :
  (1 <= bits)%nat -> 0 <= val < 2 ^ Z.of_nat bits ->
  String.length (Assembler.format_0b val bits) = bits
  /\ all_bits (Assembler.format_0b val bits) = true
  /\ bin_value (Assembler.format_0b val bits) = val.
Proof.
  intros Hb Hv. unfold Assembler.format_0b.
  destruct (Z.ltb_spec val 0) as [?|_]; [lia|].
  assert (Hd : (String.length (Assembler.bin_digits val) <= bits)%nat
               /\ all_bits (Assembler.bin_digits val) = true
               /\ bin_value (Assembler.bin_digits val) = val).
  { destruct val as [|p|p]; simpl.
    - repeat split. exact Hb.
    - rewrite length_bin_pos, bin_value_bin_pos. simpl.
      repeat split.
      + pose proof (size_nat_bound p bits (proj2 Hv)). lia.
      + now apply all_bits_bin_pos.
      + lia.
    - lia. }
  destruct Hd as (Hl & Ha & Hval).
  rewrite length_app, all_bits_app, bin_value_app, length_zeros,
    all_bits_zeros, bin_value_zeros, Ha, Hval.
  repeat split; simpl; lia.
Qed.

End BinaryStrings.

(** [to_bin] pads and never cuts: 4096 in a field of 12 bits comes out as
    13 characters. *)
Lemma to_bin_4096_overflows_12_bits : ~ to_bin_wraps_every_integer.
Proof.
  intros H. destruct (H 4096 12%nat) as (Hlen & _).
  vm_compute in Hlen. discriminate Hlen.
Qed.

(** C4, as the code has it.  For a field of at least one bit and a value
    [v] with [-2^bits <= v < 2^bits], [to_bin(v, bits)] is a string of
    exactly [bits] characters, each 0 or 1, whose binary value is
    [v mod 2^bits]: a negative value is biased by [2^bits]. *)
Theorem to_bin_in_range (v : Z) (bits : nat) :
  (1 <= bits)%nat ->
  - 2 ^ Z.of_nat bits <= v < 2 ^ Z.of_nat bits ->
  String.length (Assembler.to_bin v bits) = bits
  /\ all_bits (Assembler.to_bin v bits) = true
  /\ bin_value (Assembler.to_bin v bits) = v mod 2 ^ Z.of_nat bits
  /\ (v < 0 ->
      Assembler.to_bin v bits = Assembler.to_bin (2 ^ Z.of_nat bits + v) bits).
Proof.
  intros Hb Hv. unfold Assembler.to_bin.
  rewrite Z.shiftl_1_l.
  assert (Hp : 0 < 2 ^ Z.of_nat bits) by (apply Z.pow_pos_nonneg; lia).
  destruct (Z.ltb_spec v 0) as [Hneg|Hpos].
  - destruct (format_0b_fits (2 ^ Z.of_nat bits + v) bits Hb) as (Hl & Ha & Hval);
      [lia|].
    split; [exact Hl|]. split; [exact Ha|]. split.
    + rewrite Hval.
      apply (Z.mod_unique v (2 ^ Z.of_nat bits) (-1)); lia.
    + intros _. destruct (Z.ltb_spec (2 ^ Z.of_nat bits + v) 0); [lia|reflexivity].
  - destruct (format_0b_fits v bits Hb) as (Hl & Ha & Hval); [lia|].
    split; [exact Hl|]. split; [exact Ha|]. split.
    + rewrite Hval. symmetry. apply Z.mod_small. lia.
    + lia.
Qed.

Lemma to_bin_in_range_witness :
  Assembler.to_bin (-8) 13 = "1111111111000"
  /\ String.length (Assembler.to_bin (-8) 13) = 13%nat
  /\ bin_value (Assembler.to_bin (-8) 13) = (-8) mod 2 ^ 13.
Proof.
  destruct (to_bin_in_range (-8) 13) as (Hl & _ & Hval & _).
  - lia.
  - simpl. lia.
  - split; [reflexivity|]. split; [exact Hl|exact Hval].
Defined.

(** Outside the range the string is longer than the field or carries a
    sign, and a field of no bits still gets one character. *)
Example to_bin_out_of_range :
  Assembler.to_bin 4096 12 = "1000000000000"
  /\ Assembler.to_bin (-5000) 12 = "-01110001000"
  /\ Assembler.to_bin 0 0 = "0".
Proof. repeat split; reflexivity. Qed.

(** ** The scenario [addi x1, x0, 10] *)

(** C1.  The line [addi x1, x0, 10] encodes to the one word
    00000000101000000000000010010011, made of imm = 000000001010,
    rs1 = 00000, funct3 = 000, rd = 00001 and opcode = 0010011; and
    [addi] with rd = 1, rs1 = 0, imm = 10 on the initial register file
    leaves 10 in register 1 and 0 in every other register. *)
Theorem addi_x1_x0_10 :
  Assembler.assemble ["addi x1, x0, 10"]
  = Ok ["00000000101000000000000010010011"]
  /\ "00000000101000000000000010010011"
     = "000000001010" +:+ "00000" +:+ "000" +:+ "00001" +:+ "0010011"
  /\ Assembler.to_bin 10 12 = "000000001010"
  /\ Assembler.parse_reg "x0" = Ok 0 /\ Assembler.to_bin 0 5 = "00000"
  /\ Assembler.parse_reg "x1" = Ok 1 /\ Assembler.to_bin 1 5 = "00001"
  /\ exists self',
       ReferenceCPU.execute "addi" 1 0 None (Some 10) ReferenceCPU.init
       = Ok self'
       /\ ReferenceCPU.mem self' = ∅
       /\ ReferenceCPU.get_reg 1 self' = Ok 10
       /\ forall i : nat,
            (i < 32)%nat -> i <> 1%nat ->
            ReferenceCPU.get_reg (Z.of_nat i) self' = Ok 0.
Proof.
  repeat (split; [vm_compute; reflexivity|]).
  eexists. split; [reflexivity|]. split; [reflexivity|].
  split; [reflexivity|].
  intros i Hlt Hne.
  do 32 (destruct i as [|i]; [first [reflexivity | contradiction]|]).
  lia.
Qed.

(** ** The assembler: one instruction *)

(** Evaluation of [encode] on a given line up to the first call that
    depends on the label table: the closed calls are computed one by one,
    the pending ones are left as they are. *)
Ltac eval_closed t := let v := eval vm_compute in t in change t with v.

Ltac encode_step :=
  match goal with
  | |- context [bind (inr ?x) ?k] =>
      change (bind (inr x) k) with (k x); cbv beta
  | |- context [Assembler.re_split_ws ?s ?b] =>
      eval_closed (Assembler.re_split_ws s b)
  | |- context [Assembler.item ?l ?n] => eval_closed (Assembler.item l n)
  | |- context [Assembler.lookup_key ?k ?d] =>
      eval_closed (Assembler.lookup_key k d); cbv iota
  | |- context [Assembler.field ?d ?k] => eval_closed (Assembler.field d k)
  | |- context [Assembler.parse_reg ?s] => eval_closed (Assembler.parse_reg s)
  | |- context [String.eqb ?a ?b] => eval_closed (String.eqb a b); cbv iota
  end.

(** An operand that names a label resolves to the distance from the
    instruction to the label. *)
Lemma parse_imm_label (s name : string) (labels : gmap string Z)
    (pc target : Z) :
  Assembler.remove "," (Assembler.strip s) = name ->
  labels !! name = Some target ->
  Assembler.parse_imm s labels pc = Ok (target - pc).
Proof.
  intros Hs Hl. unfold Assembler.parse_imm. rewrite Hs, Hl. reflexivity.
Qed.

(** C6.  With [loop] declared at address [L], the instruction
    [bne x1, x0, loop] two instructions later, at [L + 8], gets the
    immediate -8, rendered on 13 bits as 1111111111000 and packed as
    imm[12] | imm[10:5] | rs2 | rs1 | funct3 | imm[4:1] | imm[11] | opcode
    into the word 1111111 00000 00001 001 1100 1 1100011. *)
Theorem bne_loop_two_instructions_back (labels : gmap string Z) (L : Z) :
  labels !! "loop" = Some L ->
  Assembler.parse_imm "loop" labels (L + 8) = Ok (-8)
  /\ Assembler.to_bin (-8) 13 = "1111111111000"
  /\ Assembler.encode labels (L + 8) "bne x1, x0, loop"
     = Ok ("1111111" +:+ "00000" +:+ "00001" +:+ "001" +:+ "1100" +:+ "1"
             +:+ "1100011")
  /\ b_type_layout (-8) 0 1 "001" "1100011"
     = "1111111" +:+ "00000" +:+ "00001" +:+ "001" +:+ "1100" +:+ "1"
         +:+ "1100011".
Proof.
  intros H.
  assert (Hp : Assembler.parse_imm "loop" labels (L + 8) = Ok (-8)).
  { rewrite (parse_imm_label "loop" "loop" labels (L + 8) L).
    - f_equal. lia.
    - reflexivity.
    - exact H. }
  split; [exact Hp|]. split; [reflexivity|]. split; [|reflexivity].
  unfold Assembler.encode. cbv zeta.
  repeat encode_step.
  rewrite Hp. vm_compute. reflexivity.
Qed.

Lemma bne_loop_two_instructions_back_witness :
  exists st,
    Assembler.pass1_lines Assembler.pass1_init loop_sum = Ok st
    /\ Assembler.labels st !! "loop" = Some 12
    /\ last (Assembler.instructions st) = Some (12 + 8, "bne x1, x0, loop")
    /\ Assembler.encode (Assembler.labels st) (12 + 8) "bne x1, x0, loop"
       = Ok "11111110000000001001110011100011"
    /\ Assembler.assemble loop_sum
       = Ok ["00000000101000000000000010010011";
             "00000000000000000000000100010011";
             "11111111111100000000000110010011";
             "00000000000100010000000100110011";
             "00000000001100001000000010110011";
             "11111110000000001001110011100011"].
Proof.
  eexists. split; [vm_compute; reflexivity|].
  split; [vm_compute; reflexivity|].
  split; [vm_compute; reflexivity|].
  split; [|vm_compute; reflexivity].
  apply (bne_loop_two_instructions_back _ 12).
  vm_compute. reflexivity.
Defined.

(** ** The assembler: pass 1 *)

Lemma split_cons (sep : ascii) (s : string) :
  exists h t, Assembler.split sep s = h :: t.
Proof.
  destruct s as [|c s]; simpl; [eauto|].
  destruct (Ascii.eqb c sep); [eauto|].
  destruct (Assembler.split sep s); eauto.
Qed.

Lemma split_contains (sep : ascii) (s : string) :
  Assembler.contains sep s = true ->
  exists h1 h2 t, Assembler.split sep s = h1 :: h2 :: t.
Proof.
  induction s as [|c s IH]; simpl; [discriminate|].
  destruct (Ascii.eqb c sep).
  - intros _. destruct (split_cons sep s) as (h & t & ->). eauto.
  - intros H. destruct (IH H) as (h1 & h2 & t & ->). eauto.
Qed.

(** One line of pass 1 never raises; it records the label the line
    declares at the current address and moves the address on by 0 or 4. *)
Lemma pass1_line_spec (st : Assembler.pass1) (line : string) :
  exists st',
    Assembler.pass1_line st line = Ok st'
    /\ Assembler.labels st'
       = match label_of line with
         | Some name => <[name := Assembler.pc st]> (Assembler.labels st)
         | None => Assembler.labels st
         end.
Proof.
  unfold Assembler.pass1_line, label_of, code_of.
  destruct (split_cons "#" line) as (h & t & ->). simpl.
  destruct (Assembler.strip h =? "")%string; [eauto|].
  destruct (Assembler.endswith ":" (Assembler.strip h)); [eauto|].
  destruct (Assembler.contains ":" (Assembler.strip h)) eqn:Hc; [|eauto].
  destruct (split_contains _ _ Hc) as (h1 & h2 & t' & ->). simpl.
  destruct (Assembler.strip h2 =? "")%string; eauto.
Qed.

(** Pass 1 runs to the end of every program. *)
Lemma pass1_lines_total (lines : list string) :
  forall st, exists st', Assembler.pass1_lines st lines = Ok st'.
Proof.
  induction lines as [|line lines IH]; intros st; simpl; [eauto|].
  destruct (pass1_line_spec st line) as (st1 & -> & _). simpl. apply IH.
Qed.

Lemma pass1_lines_app (pre post : list string) :
  forall st,
    Assembler.pass1_lines st (pre ++ post)
    = let* st' := Assembler.pass1_lines st pre in
      Assembler.pass1_lines st' post.
Proof.
  induction pre as [|line pre IH]; intros st; simpl; [reflexivity|].
  destruct (Assembler.pass1_line st line) as [e|st1]; simpl;
    [reflexivity|apply IH].
Qed.

(** A label that is in the table, or declared by a line still to come, is
    in the table at the end. *)
Lemma pass1_lines_declared (name : string) (lines : list string) :
  forall st st',
    Assembler.pass1_lines st lines = Ok st' ->
    is_Some (Assembler.labels st !! name)
    \/ (exists line, In line lines /\ label_of line = Some name) ->
    is_Some (Assembler.labels st' !! name).
Proof.
  induction lines as [|line lines IH]; simpl; intros st st' Hrun Hdecl.
  - injection Hrun as <-. destruct Hdecl as [H|(l & [] & _)]. exact H.
  - destruct (pass1_line_spec st line) as (st1 & Hline & Hlab).
    rewrite Hline in Hrun. simpl in Hrun.
    apply (IH st1 st' Hrun).
    destruct Hdecl as [H|(l & [<-|Hin] & Hl)].
    + left. rewrite Hlab. destruct (label_of line) as [n|]; [|exact H].
      destruct (decide (n = name)) as [->|Hne].
      * rewrite lookup_insert_eq. eauto.
      * rewrite lookup_insert_ne by exact Hne. exact H.
    + left. rewrite Hlab, Hl, lookup_insert_eq. eauto.
    + right. eauto.
Qed.

(** Lines that do not declare a label leave its entry as it is. *)
Lemma pass1_lines_undeclared (name : string) (lines : list string) :
  forall st st',
    Assembler.pass1_lines st lines = Ok st' ->
    (forall line, In line lines -> label_of line <> Some name) ->
    Assembler.labels st' !! name = Assembler.labels st !! name.
Proof.
  induction lines as [|line lines IH]; simpl; intros st st' Hrun Hno.
  - injection Hrun as <-. reflexivity.
  - destruct (pass1_line_spec st line) as (st1 & Hline & Hlab).
    rewrite Hline in Hrun. simpl in Hrun.
    rewrite (IH st1 st' Hrun) by auto.
    rewrite Hlab. destruct (label_of line) as [n|] eqn:Hn; [|reflexivity].
    apply lookup_insert_ne. intros ->. apply (Hno line); auto.
Qed.

(** C7.  Pass 1 runs over the whole program before pass 2 starts, and
    pass 2 encodes every instruction against the table pass 1 ended with.
    So a label declared by any line of the program, above or below the
    instruction that names it, resolves, and to the address of the label
    minus the address of the instruction; the address of the label is the
    address pass 1 had reached at its (last) declaration. *)
Theorem labels_resolve_wherever_declared (lines : list string) :
  exists st,
    Assembler.pass1_lines Assembler.pass1_init lines = Ok st
    /\ Assembler.assemble lines
       = Assembler.pass2 (Assembler.labels st) (Assembler.instructions st)
    /\ (forall line name,
          In line lines -> label_of line = Some name ->
          exists target,
            Assembler.labels st !! name = Some target
            /\ forall s pc,
                 Assembler.remove "," (Assembler.strip s) = name ->
                 Assembler.parse_imm s (Assembler.labels st) pc
                 = Ok (target - pc))
    /\ (forall (pre : list string) line post name,
          lines = (pre ++ line :: post)%list ->
          label_of line = Some name ->
          (forall l, In l post -> label_of l <> Some name) ->
          exists st_pre,
            Assembler.pass1_lines Assembler.pass1_init pre = Ok st_pre
            /\ Assembler.labels st !! name = Some (Assembler.pc st_pre)).
Proof.
  destruct (pass1_lines_total lines Assembler.pass1_init) as [st Hst].
  exists st. split; [exact Hst|]. split; [|split].
  - unfold Assembler.assemble. rewrite Hst. reflexivity.
  - intros line name Hin Hl.
    destruct (pass1_lines_declared name lines _ st Hst) as [target Ht].
    { right. eauto. }
    exists target. split; [exact Ht|].
    intros s pc Hs. now apply (parse_imm_label s name).
  - intros pre line post name -> Hl Hno.
    rewrite pass1_lines_app in Hst.
    destruct (pass1_lines_total pre Assembler.pass1_init) as [st_pre Hpre].
    rewrite Hpre in Hst. simpl in Hst.
    exists st_pre. split; [exact Hpre|].
    destruct (pass1_line_spec st_pre line) as (st1 & Hline & Hlab).
    rewrite Hline in Hst. simpl in Hst.
    rewrite (pass1_lines_undeclared name post st1 st Hst Hno).
    rewrite Hlab, Hl. apply lookup_insert_eq.
Qed.

Lemma labels_resolve_wherever_declared_witness :
  (exists st target,
      Assembler.pass1_lines Assembler.pass1_init forward_program = Ok st
      /\ Assembler.labels st !! "end" = Some target
      /\ Assembler.parse_imm "end" (Assembler.labels st) 0 = Ok (target - 0))
  /\ Assembler.assemble forward_program
     = Ok ["00000000110000000000000001101111";
           "00000000000100000000000010010011";
           "00000000001000000000000100010011"]
  /\ Assembler.assemble backward_program
     = Ok ["00000000000100000000000010010011";
           "00000000001000000000000100010011";
           "11111111100111111111000001101111"].
Proof.
  split; [|split; vm_compute; reflexivity].
  destruct (labels_resolve_wherever_declared forward_program)
    as (st & Hst & _ & Hres & _).
  destruct (Hres "end:" "end") as (target & Ht & Hp).
  - unfold forward_program. simpl. tauto.
  - vm_compute. reflexivity.
  - exists st, target. split; [exact Hst|]. split; [exact Ht|].
    apply Hp. vm_compute. reflexivity.
Defined.

(** ** The assembler: errors *)

Lemma prefix_refl (t : string) : String.prefix t t = true.
Proof.
  induction t as [|c t IH]; simpl; [reflexivity|].
  destruct (ascii_dec c c); [exact IH|contradiction].
Qed.

Lemma occurs_refl (t : string) : occurs t t = true.
Proof.
  destruct t as [|a t]; [reflexivity|].
  change (occurs (String a t) (String a t))
    with (String.prefix (String a t) (String a t) || occurs (String a t) t).
  now rewrite prefix_refl.
Qed.

(** A message that ends with the token names it. *)
Lemma occurs_app (p t : string) : occurs t (p +:+ t) = true.
Proof.
  induction p as [|c p IH].
  - rewrite app_nil. apply occurs_refl.
  - rewrite app_cons. simpl. rewrite IH. apply orb_true_r.
Qed.

(** The words of a program that assembles: one for each queued line. *)
Lemma pass2_length (labels : gmap string Z) (instrs : list (Z * string)) :
  forall words,
    Assembler.pass2 labels instrs = Ok words ->
    length words = length instrs.
Proof.
  induction instrs as [|[pc line] instrs IH]; simpl; intros words H.
  - injection H as <-. reflexivity.
  - destruct (Assembler.encode labels pc line) as [e|w]; [discriminate|].
    simpl in H.
    destruct (Assembler.pass2 labels instrs) as [e|ws]; [discriminate|].
    simpl in H. injection H as <-. simpl. f_equal. now apply IH.
Qed.

(** The first line that raises ends the call with its exception; the
    words encoded before it are dropped. *)
Lemma pass2_raises (labels : gmap string Z) (pre : list (Z * string))
    (pc : Z) (line : string) (post : list (Z * string)) (e : PyErr) :
  forall words,
    Assembler.pass2 labels pre = Ok words ->
    Assembler.encode labels pc line = Raise e ->
    Assembler.pass2 labels (pre ++ (pc, line) :: post) = Raise e.
Proof.
  induction pre as [|[pc0 l0] pre IH]; simpl; intros words Hpre Henc.
  - rewrite Henc. reflexivity.
  - destruct (Assembler.encode labels pc0 l0) as [e0|w]; [discriminate|].
    simpl in *.
    destruct (Assembler.pass2 labels pre) as [e0|ws]; [discriminate|].
    rewrite (IH ws eq_refl Henc). reflexivity.
Qed.

Lemma encode_unknown_instruction (labels : gmap string Z) (pc : Z)
    (line instr : string) :
  Assembler.item (Assembler.re_split_ws line false) 0 = Ok instr ->
  Assembler.lookup_key instr Assembler.opcodes = None ->
  Assembler.encode labels pc line
  = Raise (ValueError ("Unknown instruction: " +:+ instr))
  /\ occurs instr ("Unknown instruction: " +:+ instr) = true.
Proof.
  intros Hi Hk. split; [|apply occurs_app].
  unfold Assembler.encode. cbv zeta. rewrite Hi.
  change (bind (Ok instr) ?k) with (k instr). cbv beta.
  rewrite Hk. reflexivity.
Qed.

Lemma parse_reg_unknown (s : string) :
  let token := Assembler.remove "," (Assembler.strip s) in
  Assembler.regs !! token = None ->
  Assembler.parse_reg s = Raise (ValueError ("Unknown register: " +:+ token))
  /\ occurs token ("Unknown register: " +:+ token) = true.
Proof.
  intros token H. split; [|apply occurs_app].
  unfold Assembler.parse_reg. fold token. rewrite H. reflexivity.
Qed.

(** A token that is neither a label of the table nor a number. *)
Lemma parse_imm_invalid (s : string) (labels : gmap string Z) (pc : Z) :
  let token := Assembler.remove "," (Assembler.strip s) in
  labels !! token = None ->
  Assembler.int0 token = None ->
  Assembler.parse_imm s labels pc
  = Raise (ValueError ("Invalid immediate: " +:+ token))
  /\ occurs token ("Invalid immediate: " +:+ token) = true.
Proof.
  intros token Hl Hi. split; [|apply occurs_app].
  unfold Assembler.parse_imm. fold token. rewrite Hl, Hi. reflexivity.
Qed.

(** The operand of a load or store that the guard of the code turns
    down: no opening parenthesis, or no closing one at the end. *)
Lemma memory_operand_rejected (arg : string) (labels : gmap string Z)
    (pc : Z) :
  Assembler.contains "(" arg && Assembler.endswith ")" arg = false ->
  Assembler.memory_operand arg labels pc
  = Raise (ValueError ("Invalid memory operand: " +:+ arg))
  /\ occurs arg ("Invalid memory operand: " +:+ arg) = true.
Proof.
  intros H. split; [|apply occurs_app].
  unfold Assembler.memory_operand. rewrite H. reflexivity.
Qed.

(** The operand the guard lets through although it is not [imm(reg)]: a
    second opening parenthesis makes the unpacking of the two parts raise,
    with a message that does not depend on the operand. *)
Lemma memory_operand_unpack (arg : string) (labels : gmap string Z) (pc : Z)
    (p1 p2 p3 : string) (rest : list string) :
  Assembler.contains "(" arg = true ->
  Assembler.endswith ")" arg = true ->
  Assembler.split "(" (Assembler.drop_last arg) = p1 :: p2 :: p3 :: rest ->
  Assembler.memory_operand arg labels pc
  = Raise (ValueError "too many values to unpack (expected 2)").
Proof.
  intros Hc He Hs. unfold Assembler.memory_operand.
  rewrite Hc, He, Hs. reflexivity.
Qed.

(** C8, where the code goes wrong.  The malformed operand [4((x2)] of a
    load or a store ends the call with the exception of a failed
    unpacking, whose message does not name the operand; the operand
    [4[x2]] ends it with the message that names it. *)
Theorem doubled_parenthesis_operand_not_named :
  Assembler.assemble ["lw x1, 4((x2)"]
  = Raise (ValueError "too many values to unpack (expected 2)")
  /\ Assembler.assemble ["sw x1, 4((x2)"]
     = Raise (ValueError "too many values to unpack (expected 2)")
  /\ raised (Assembler.assemble ["addi x1, x0, 10"; "lw x1, 4((x2)"])
     = Some "too many values to unpack (expected 2)"
  /\ occurs "4((x2)" "too many values to unpack (expected 2)" = false
  /\ Assembler.assemble ["lw x1, 4[x2]"]
     = Raise (ValueError "Invalid memory operand: 4[x2]")
  /\ occurs "4[x2]" "Invalid memory operand: 4[x2]" = true.
Proof. repeat split; vm_compute; reflexivity. Qed.

(** ** Whole programs *)

(** [assemble] returns the words of all queued lines, or raises and
    returns none. *)
Lemma assemble_whole_or_nothing (lines : list string) :
  exists st,
    Assembler.pass1_lines Assembler.pass1_init lines = Ok st
    /\ ((exists words,
            Assembler.assemble lines = Ok words
            /\ length words = length (Assembler.instructions st))
        \/ (exists e, Assembler.assemble lines = Raise e)).
Proof.
  destruct (pass1_lines_total lines Assembler.pass1_init) as [st Hst].
  exists st. split; [exact Hst|].
  unfold Assembler.assemble. rewrite Hst. simpl.
  destruct (Assembler.pass2 (Assembler.labels st) (Assembler.instructions st))
    as [e|words] eqn:Hp.
  - right. exists e. reflexivity.
  - left. exists words. split; [reflexivity|].
    now apply (pass2_length (Assembler.labels st)).
Qed.

(** [lui x9, 1] then [addi x9, x9, 0] leaves 4096 in register 9. *)
Example run_lui_addi :
  exists self',
    ReferenceCPU.run
      [ {| ReferenceCPU.c_op := "lui"; ReferenceCPU.c_rd := 9;
           ReferenceCPU.c_rs1 := 0; ReferenceCPU.c_rs2 := None;
           ReferenceCPU.c_imm := Some 1 |};
        {| ReferenceCPU.c_op := "addi"; ReferenceCPU.c_rd := 9;
           ReferenceCPU.c_rs1 := 9; ReferenceCPU.c_rs2 := None;
           ReferenceCPU.c_imm := Some 0 |} ]
      ReferenceCPU.init = Ok self'
    /\ ReferenceCPU.get_reg 9 self' = Ok 4096.
Proof. eexists. split; reflexivity. Qed.

(** ** The reference CPU: what every run keeps *)

Lemma u32_mask (v : Z) : u32 (ReferenceCPU._to_unsigned_32 v).
Proof.
  unfold u32, ReferenceCPU._to_unsigned_32. rewrite land_mask32.
  apply Z.mod_pos_bound. lia.
Qed.

Lemma aligned_cell (a : Z) :
  u32 a -> (a / 4 * 4) mod 4 = 0 /\ u32 (a / 4 * 4).
Proof.
  unfold u32. intros Ha. split.
  - apply Z.mod_mul. lia.
  - change (2 ^ 32) with 4294967296 in *. Z.div_mod_to_equations. lia.
Qed.

(** A call that returns went one of two ways: the store of [sw], or the
    commit of a result to [rd]. *)
Lemma execute_cases (op : string) (rd rs1 : Z) (rs2 imm : option Z)
    (self self' : ReferenceCPU.cpu) :
  ReferenceCPU.execute op rd rs1 rs2 imm self = Ok self' ->
  (exists addr val,
      op = "sw" /\ self' = ReferenceCPU.store_word (Z.land addr 0xFFFFFFFF) val self)
  \/ (exists r, ReferenceCPU.set_reg rd r self = Ok self').
Proof.
  unfold ReferenceCPU.execute.
  destruct (ReferenceCPU.get_reg rs1 self) as [e|u1]; [discriminate|]. simpl.
  destruct (match rs2 with
            | Some r => ReferenceCPU.get_reg r self
            | None => Ok 0
            end) as [e|u2]; [discriminate|]. simpl.
  destruct (ReferenceCPU.execute_res _ _ _ _ _ _ _ _) as [e|[s|r]] eqn:Er;
    simpl; [discriminate| |].
  - apply execute_res_early in Er as [-> ->]. intros [= <-].
    left. eauto.
  - intros H. right. eauto.
Qed.

Lemma state_ok_init : state_ok ReferenceCPU.init.
Proof.
  split; [reflexivity|]. split.
  - apply Forall_forall. intros x Hx. apply elem_of_replicate in Hx as [-> _].
    unfold u32. lia.
  - apply map_Forall_empty.
Qed.

Lemma state_ok_execute (op : string) (rd rs1 : Z) (rs2 imm : option Z)
    (self self' : ReferenceCPU.cpu) :
  state_ok self ->
  ReferenceCPU.execute op rd rs1 rs2 imm self = Ok self' ->
  state_ok self'.
Proof.
  intros (Hlen & Hregs & Hmem) He.
  apply execute_cases in He as [(addr & val & _ & ->)|(r & Hset)].
  - split; [exact Hlen|]. split; [exact Hregs|]. simpl.
    apply map_Forall_insert_2; [|exact Hmem].
    assert (Ha : u32 (Z.land addr 4294967295)) by apply u32_mask.
    destruct (aligned_cell _ Ha) as [H4 Hu].
    split; [exact H4|]. split; [exact Hu|apply u32_mask].
  - unfold ReferenceCPU.set_reg in Hset.
    destruct (py_index _ rd) as [i|]; [|discriminate].
    injection Hset as <-. unfold state_ok. simpl.
    split; [now rewrite length_insert|]. split; [|exact Hmem].
    apply Forall_insert; [exact Hregs|apply u32_mask].
Qed.

(** X1.  From the initial state every run of calls that returns leaves 32
    registers, each within 32 bits, and a memory whose cells sit at
    word-aligned addresses below 2^32 and hold values within 32 bits. *)
Theorem run_keeps_state_ok (cs : list ReferenceCPU.call)
    (self : ReferenceCPU.cpu) :
  ReferenceCPU.run cs ReferenceCPU.init = Ok self -> state_ok self.
Proof.
  assert (H : forall s s', state_ok s -> ReferenceCPU.run cs s = Ok s' ->
                           state_ok s').
  { induction cs as [|c cs IH]; simpl; intros s s' Hs Hrun.
    - injection Hrun as <-. exact Hs.
    - destruct (ReferenceCPU.execute_call c s) as [e|s1] eqn:Ec;
        [discriminate|]. simpl in Hrun.
      apply (IH s1 s'); [|exact Hrun].
      now apply (state_ok_execute _ _ _ _ _ s s1 Hs Ec). }
  apply H. exact state_ok_init.
Qed.

Lemma run_keeps_state_ok_witness :
  exists self,
    ReferenceCPU.run
      [ {| ReferenceCPU.c_op := "addi"; ReferenceCPU.c_rd := 2;
           ReferenceCPU.c_rs1 := 0; ReferenceCPU.c_rs2 := None;
           ReferenceCPU.c_imm := Some (-1) |};
        {| ReferenceCPU.c_op := "sw"; ReferenceCPU.c_rd := 0;
           ReferenceCPU.c_rs1 := 2; ReferenceCPU.c_rs2 := Some 2;
           ReferenceCPU.c_imm := Some 0 |} ]
      ReferenceCPU.init = Ok self
    /\ ReferenceCPU.mem self = {[ 0xFFFFFFFC := 0xFFFFFFFF ]}
    /\ state_ok self.
Proof.
  eexists. split; [reflexivity|]. split; [reflexivity|].
  apply (run_keeps_state_ok
           [ {| ReferenceCPU.c_op := "addi"; ReferenceCPU.c_rd := 2;
                ReferenceCPU.c_rs1 := 0; ReferenceCPU.c_rs2 := None;
                ReferenceCPU.c_imm := Some (-1) |};
             {| ReferenceCPU.c_op := "sw"; ReferenceCPU.c_rd := 0;
                ReferenceCPU.c_rs1 := 2; ReferenceCPU.c_rs2 := Some 2;
                ReferenceCPU.c_imm := Some 0 |} ]).
  reflexivity.
Defined.

(** ** The reference CPU: the remaining operations *)

(** X2.  [lui] stores the low 20 bits of its immediate, shifted left by
    12: the value is [(imm mod 2^20) * 4096], its low 12 bits are zero,
    and the base register plays no part. *)
Theorem lui_upper_immediate (self : ReferenceCPU.cpu) (rd rs1 : Z)
    (rs2 : option Z) (i u1 u2 : Z) :
  wf self -> valid_reg rd ->
  ReferenceCPU.get_reg rs1 self = Ok u1 ->
  fetch_rs2 rs2 self = Ok u2 ->
  exists self',
    ReferenceCPU.execute "lui" rd rs1 rs2 (Some i) self = Ok self'
    /\ ReferenceCPU.get_reg rd self' = Ok (i mod 2 ^ 20 * 4096)
    /\ (i mod 2 ^ 20 * 4096) mod 4096 = 0
    /\ u32 (i mod 2 ^ 20 * 4096).
Proof.
  intros Hwf Hrd H1 H2.
  destruct (execute_commit "lui" rd rs1 rs2 (Some i) self u1 u2
              (Z.shiftl (Z.land i 0xFFFFF) 12))
    as (s & He & _ & _ & Hg & _); auto.
  assert (Hm : 0 <= i mod 2 ^ 20 < 2 ^ 20) by (apply Z.mod_pos_bound; lia).
  assert (Hu : u32 (i mod 2 ^ 20 * 4096)).
  { unfold u32. change (2 ^ 32) with (2 ^ 20 * 4096). nia. }
  exists s. split; [exact He|]. split; [|split; [apply Z.mod_mul; lia|exact Hu]].
  rewrite Hg. f_equal. unfold ReferenceCPU._to_unsigned_32.
  change 0xFFFFF with (Z.ones 20).
  rewrite Z.land_ones, Z.shiftl_mul_pow2, land_mask32 by lia.
  change (2 ^ 12) with 4096. apply Z.mod_small. exact Hu.
Qed.

Lemma lui_upper_immediate_witness :
  exists self',
    ReferenceCPU.execute "lui" 9 0 None (Some 0x12345) ReferenceCPU.init
    = Ok self'
    /\ ReferenceCPU.get_reg 9 self' = Ok 0x12345000.
Proof.
  destruct (lui_upper_immediate ReferenceCPU.init 9 0 None 0x12345 0 0)
    as (self' & He & Hg & _).
  - reflexivity.
  - unfold valid_reg. lia.
  - reflexivity.
  - reflexivity.
  - exists self'. split; [exact He|exact Hg].
Defined.

Lemma land_u32 (a b : Z) : u32 a -> u32 b -> u32 (Z.land a b).
Proof.
  unfold u32. intros Ha Hb.
  assert (H : Z.land (Z.land a b) (Z.ones 32) = Z.land a b).
  { rewrite <- Z.land_assoc, (Z.land_ones b 32), Z.mod_small by lia.
    reflexivity. }
  rewrite <- H, Z.land_ones by lia. apply Z.mod_pos_bound. lia.
Qed.

Lemma lor_u32 (a b : Z) : u32 a -> u32 b -> u32 (Z.lor a b).
Proof.
  unfold u32. intros Ha Hb.
  assert (H : Z.land (Z.lor a b) (Z.ones 32) = Z.lor a b).
  { rewrite Z.land_lor_distr_l, !Z.land_ones, !Z.mod_small by lia.
    reflexivity. }
  rewrite <- H, Z.land_ones by lia. apply Z.mod_pos_bound. lia.
Qed.

(** X3.  On 32-bit operands [and] and [or] store the bitwise conjunction
    and disjunction themselves: the results already fit 32 bits. *)
Theorem reference_and_or (self : ReferenceCPU.cpu) (rd rs1 rs2 : Z)
    (imm : option Z) (a b : Z) :
  wf self -> valid_reg rd ->
  ReferenceCPU.get_reg rs1 self = Ok a ->
  ReferenceCPU.get_reg rs2 self = Ok b ->
  u32 a -> u32 b ->
  (exists s1,
      ReferenceCPU.execute "and" rd rs1 (Some rs2) imm self = Ok s1
      /\ ReferenceCPU.get_reg rd s1 = Ok (Z.land a b))
  /\ (exists s2,
      ReferenceCPU.execute "or" rd rs1 (Some rs2) imm self = Ok s2
      /\ ReferenceCPU.get_reg rd s2 = Ok (Z.lor a b)).
Proof.
  intros Hwf Hrd H1 H2 Ha Hb. split.
  - destruct (execute_commit "and" rd rs1 (Some rs2) imm self a b (Z.land a b))
      as (s & He & _ & _ & Hg & _); auto.
    exists s. split; [exact He|]. rewrite Hg. f_equal.
    unfold ReferenceCPU._to_unsigned_32. rewrite land_mask32.
    apply Z.mod_small. now apply land_u32.
  - destruct (execute_commit "or" rd rs1 (Some rs2) imm self a b (Z.lor a b))
      as (s & He & _ & _ & Hg & _); auto.
    exists s. split; [exact He|]. rewrite Hg. f_equal.
    unfold ReferenceCPU._to_unsigned_32. rewrite land_mask32.
    apply Z.mod_small. now apply lor_u32.
Qed.

Lemma reference_and_or_witness :
  let self := {| ReferenceCPU.regs :=
                   <[2%nat := 0x55555555]>
                     (<[1%nat := 0xAAAAAAAA]> (replicate 32 0));
                 ReferenceCPU.mem := ∅ |} in
  (exists s1,
      ReferenceCPU.execute "and" 3 1 (Some 2) None self = Ok s1
      /\ ReferenceCPU.get_reg 3 s1 = Ok 0)
  /\ (exists s2,
      ReferenceCPU.execute "or" 3 1 (Some 2) None self = Ok s2
      /\ ReferenceCPU.get_reg 3 s2 = Ok 0xFFFFFFFF).
Proof.
  intros self.
  apply (reference_and_or self 3 1 2 None 0xAAAAAAAA 0x55555555).
  - reflexivity.
  - unfold valid_reg. lia.
  - reflexivity.
  - reflexivity.
  - unfold u32. lia.
  - unfold u32. lia.
Defined.

(** X4.  The signed reading of any integer lies in [-2^31, 2^31), is
    congruent to it modulo 2^32, and masking it gives back the unsigned
    reading. *)
Theorem signed_unsigned_round_trip (v : Z) :
  - 2 ^ 31 <= ReferenceCPU._to_signed_32 v < 2 ^ 31
  /\ ReferenceCPU._to_signed_32 v mod 2 ^ 32 = v mod 2 ^ 32
  /\ ReferenceCPU._to_unsigned_32 (ReferenceCPU._to_signed_32 v)
     = ReferenceCPU._to_unsigned_32 v
  /\ (0 <= v < 2 ^ 31 -> ReferenceCPU._to_signed_32 v = v).
Proof.
  assert (Hm : 0 <= v mod 2 ^ 32 < 2 ^ 32) by (apply Z.mod_pos_bound; lia).
  assert (Hs : ReferenceCPU._to_signed_32 v = signed32 (v mod 2 ^ 32)).
  { rewrite <- (to_signed_32_spec (v mod 2 ^ 32) Hm).
    unfold ReferenceCPU._to_signed_32.
    rewrite !land_mask32, Z.mod_mod by lia. reflexivity. }
  rewrite Hs. unfold ReferenceCPU._to_unsigned_32. rewrite !land_mask32.
  unfold signed32.
  change (2 ^ 31) with 2147483648 in *. change (2 ^ 32) with 4294967296 in *.
  assert (Hv : 0 <= v < 2147483648 -> v mod 4294967296 = v)
    by (intros; apply Z.mod_small; lia).
  revert Hm Hv. clear Hs. generalize (v mod 4294967296). intros m Hm Hv.
  destruct (Z.ltb_spec m 2147483648) as [Hlt|Hge];
    repeat split; try lia;
    try (Z.div_mod_to_equations; lia);
    intros Hr; specialize (Hv Hr); lia.
Qed.

(** ** The reference CPU: register indices out of range *)

Lemma py_index_invalid (idx : Z) : ~ valid_reg idx -> py_index 32 idx = None.
Proof.
  unfold valid_reg, py_index. intros H.
  destruct (Z.leb_spec 0 idx).
  - destruct (Z.ltb_spec idx (Z.of_nat 32)); [lia|reflexivity].
  - destruct (Z.leb_spec (- Z.of_nat 32) idx); [lia|reflexivity].
Qed.

(** Every operation but [sw] reaches the commit, [lui] when it is given
    an immediate. *)
Lemma execute_res_commit (op : string) (u1 u2 s1 s2 s_imm : Z)
    (imm : option Z) (self : ReferenceCPU.cpu) :
  op <> "sw" -> (op = "lui" -> imm <> None) ->
  exists r,
    ReferenceCPU.execute_res op u1 u2 s1 s2 s_imm imm self = Ok (inr r).
Proof.
  intros Hsw Hlui. unfold ReferenceCPU.execute_res.
  repeat match goal with
         | |- context [if (op =? ?s)%string then _ else _] =>
             destruct (String.eqb_spec op s)
         end;
    try (eexists; reflexivity); try contradiction.
  destruct imm as [i|]; [eexists; reflexivity|].
  now contradiction Hlui.
Qed.

(** X5.  A base register index outside [-32, 31] makes every operation
    raise [IndexError], also [lui], which does not use the base.  With a
    destination outside the range and operands that are read, [sw] never
    looks at [rd] and stores; [lui] called without an immediate raises
    its [TypeError] before the commit; every other call raises
    [IndexError] at the commit. *)
Theorem execute_index_errors (op : string) (rd rs1 : Z) (rs2 imm : option Z)
    (self : ReferenceCPU.cpu) :
  wf self ->
  (~ valid_reg rs1 ->
   ReferenceCPU.execute op rd rs1 rs2 imm self
   = Raise (IndexError "list index out of range"))
  /\ (forall u1 u2,
        ReferenceCPU.get_reg rs1 self = Ok u1 ->
        fetch_rs2 rs2 self = Ok u2 ->
        ~ valid_reg rd ->
        ReferenceCPU.execute op rd rs1 rs2 imm self
        = if (op =? "sw")%string then
            Ok (ReferenceCPU.store_word (effective_address u1 imm) u2 self)
          else
            match imm with
            | None =>
                if (op =? "lui")%string then
                  Raise (TypeError
                           "unsupported operand type(s) for &: 'NoneType' and 'int'")
                else Raise (IndexError "list assignment index out of range")
            | Some _ =>
                Raise (IndexError "list assignment index out of range")
            end).
Proof.
  intros Hwf. split.
  - intros Hrs1. unfold ReferenceCPU.execute, ReferenceCPU.get_reg.
    rewrite Hwf, (py_index_invalid rs1 Hrs1). reflexivity.
  - intros u1 u2 H1 H2 Hrd.
    destruct (String.eqb_spec op "sw") as [->|Hsw]; [now apply execute_sw|].
    assert (Hcommit :
              (op = "lui" -> imm <> None) ->
              ReferenceCPU.execute op rd rs1 rs2 imm self
              = Raise (IndexError "list assignment index out of range")).
    { intros Hlui. unfold ReferenceCPU.execute. rewrite H1. simpl.
      unfold fetch_rs2 in H2. rewrite H2. simpl.
      destruct (execute_res_commit op u1 u2
                  (ReferenceCPU._to_signed_32 u1)
                  (ReferenceCPU._to_signed_32 u2)
                  (match imm with
                   | Some i => if negb (op =? "lui")%string then i
                               else ReferenceCPU._to_unsigned_32 i
                   | None => 0
                   end) imm self Hsw Hlui) as [r ->].
      simpl. unfold ReferenceCPU.set_reg.
      rewrite Hwf, (py_index_invalid rd Hrd). reflexivity. }
    destruct imm as [i|].
    + apply Hcommit. discriminate.
    + destruct (String.eqb_spec op "lui") as [->|Hlui].
      * unfold ReferenceCPU.execute. rewrite H1. simpl.
        unfold fetch_rs2 in H2. rewrite H2. reflexivity.
      * apply Hcommit. intros E. contradiction.
Qed.

Lemma execute_index_errors_witness :
  ReferenceCPU.execute "lui" 1 32 None (Some 1) ReferenceCPU.init
  = Raise (IndexError "list index out of range")
  /\ ReferenceCPU.execute "sw" 99 0 (Some 0) (Some 8) ReferenceCPU.init
     = Ok (ReferenceCPU.store_word 8 0 ReferenceCPU.init)
  /\ ReferenceCPU.execute "add" 99 0 (Some 0) None ReferenceCPU.init
     = Raise (IndexError "list assignment index out of range")
  /\ ReferenceCPU.execute "lui" 99 0 None None ReferenceCPU.init
     = Raise (TypeError
                "unsupported operand type(s) for &: 'NoneType' and 'int'").
Proof.
  assert (H99 : ~ valid_reg 99) by (unfold valid_reg; lia).
  split; [|split; [|split]].
  - apply (execute_index_errors "lui" 1 32 None (Some 1) ReferenceCPU.init).
    + reflexivity.
    + unfold valid_reg. lia.
  - apply (proj2 (execute_index_errors "sw" 99 0 (Some 0) (Some 8)
                    ReferenceCPU.init eq_refl) 0 0 eq_refl eq_refl H99).
  - apply (proj2 (execute_index_errors "add" 99 0 (Some 0) None
                    ReferenceCPU.init eq_refl) 0 0 eq_refl eq_refl H99).
  - apply (proj2 (execute_index_errors "lui" 99 0 None None
                    ReferenceCPU.init eq_refl) 0 0 eq_refl eq_refl H99).
Defined.

(** ** The reference CPU: a store read back *)

(** X6.  A word stored by [sw] is what [lw] with the same base register
    and immediate loads next: the stored register, within 32 bits. *)
Theorem sw_then_lw (self : ReferenceCPU.cpu) (rd rd' rs1 rs2 : Z)
    (imm : option Z) (u1 u2 : Z) :
  wf self -> valid_reg rd ->
  ReferenceCPU.get_reg rs1 self = Ok u1 ->
  ReferenceCPU.get_reg rs2 self = Ok u2 ->
  exists s1 s2,
    ReferenceCPU.execute "sw" rd' rs1 (Some rs2) imm self = Ok s1
    /\ ReferenceCPU.execute "lw" rd rs1 None imm s1 = Ok s2
    /\ ReferenceCPU.get_reg rd s2 = Ok (u2 mod 2 ^ 32)
    /\ ReferenceCPU.mem s2 = ReferenceCPU.mem s1.
Proof.
  intros Hwf Hrd H1 H2.
  set (a := effective_address u1 imm).
  exists (ReferenceCPU.store_word a u2 self).
  destruct (execute_commit "lw" rd rs1 None imm
              (ReferenceCPU.store_word a u2 self) u1 0
              (ReferenceCPU.load_word a (ReferenceCPU.store_word a u2 self)))
    as (s2 & He & _ & Hm & Hg & _); auto.
  exists s2. split; [now apply execute_sw|]. split; [exact He|].
  split; [|exact Hm].
  rewrite Hg. f_equal.
  unfold ReferenceCPU.load_word, ReferenceCPU.store_word. simpl.
  rewrite lookup_insert_eq. simpl.
  unfold ReferenceCPU._to_unsigned_32. rewrite !land_mask32.
  apply Z.mod_mod. lia.
Qed.

Lemma sw_then_lw_witness :
  let self := {| ReferenceCPU.regs :=
                   <[2%nat := 0xCAFE]> (<[1%nat := 1000]> (replicate 32 0));
                 ReferenceCPU.mem := ∅ |} in
  exists s1 s2,
    ReferenceCPU.execute "sw" 0 1 (Some 2) (Some (-8)) self = Ok s1
    /\ ReferenceCPU.execute "lw" 7 1 None (Some (-8)) s1 = Ok s2
    /\ ReferenceCPU.get_reg 7 s2 = Ok 0xCAFE.
Proof.
  intros self.
  destruct (sw_then_lw self 7 0 1 2 (Some (-8)) 1000 0xCAFE)
    as (s1 & s2 & He1 & He2 & Hg & _).
  - reflexivity.
  - unfold valid_reg. lia.
  - reflexivity.
  - reflexivity.
  - exists s1, s2. split; [exact He1|]. split; [exact He2|exact Hg].
Defined.

(** ** The generators: constants, loops and the memory walk *)

Lemma execute_addi (self : ReferenceCPU.cpu) (rd rs1 imm a : Z) :
  wf self -> valid_reg rd ->
  ReferenceCPU.get_reg rs1 self = Ok a ->
  exists self',
    ReferenceCPU.execute "addi" rd rs1 None (Some imm) self = Ok self'
    /\ wf self'
    /\ ReferenceCPU.mem self' = ReferenceCPU.mem self
    /\ ReferenceCPU.get_reg rd self' = Ok ((a + imm) mod 2 ^ 32)
    /\ (forall idx, ~ same_cell idx rd ->
          ReferenceCPU.get_reg idx self' = ReferenceCPU.get_reg idx self).
Proof.
  intros Hwf Hrd H1.
  destruct (execute_commit "addi" rd rs1 None (Some imm) self a 0 (a + imm))
    as (s & He & Hwf' & Hm & Hg & Ho); auto.
  exists s. repeat split; try assumption.
  rewrite Hg. unfold ReferenceCPU._to_unsigned_32. now rewrite land_mask32.
Qed.

Lemma execute_lui (self : ReferenceCPU.cpu) (rd rs1 i a : Z) :
  wf self -> valid_reg rd ->
  ReferenceCPU.get_reg rs1 self = Ok a ->
  0 <= i < 2 ^ 20 ->
  exists self',
    ReferenceCPU.execute "lui" rd rs1 None (Some i) self = Ok self'
    /\ wf self'
    /\ ReferenceCPU.mem self' = ReferenceCPU.mem self
    /\ ReferenceCPU.get_reg rd self' = Ok (i * 4096)
    /\ (forall idx, ~ same_cell idx rd ->
          ReferenceCPU.get_reg idx self' = ReferenceCPU.get_reg idx self).
Proof.
  intros Hwf Hrd H1 Hi.
  destruct (execute_commit "lui" rd rs1 None (Some i) self a 0
              (Z.shiftl (Z.land i 0xFFFFF) 12))
    as (s & He & Hwf' & Hm & Hg & Ho); auto.
  exists s. repeat split; try assumption.
  rewrite Hg. f_equal. unfold ReferenceCPU._to_unsigned_32.
  change 0xFFFFF with (Z.ones 20).
  rewrite Z.land_ones, Z.shiftl_mul_pow2, land_mask32 by lia.
  change (2 ^ 12) with 4096. rewrite (Z.mod_small i) by exact Hi.
  apply Z.mod_small. change (2 ^ 32) with (2 ^ 20 * 4096). nia.
Qed.

Lemma py_index_nonneg (i : Z) :
  0 <= i < 32 -> py_index 32 i = Some (Z.to_nat i).
Proof.
  intros H. unfold py_index.
  destruct (Z.leb_spec 0 i); [|lia].
  destruct (Z.ltb_spec i (Z.of_nat 32)); [reflexivity|lia].
Qed.

Lemma same_cell_nonneg (i j : Z) :
  0 <= i < 32 -> 0 <= j < 32 -> i <> j -> ~ same_cell i j.
Proof.
  intros Hi Hj Hne. unfold same_cell.
  rewrite !py_index_nonneg by assumption. intros [= H]. lia.
Qed.

(** The split of a 32-bit value that [load_pattern] computes. *)
Lemma split_upper_lower (pat : Z) :
  let v := Z.land pat 0xFFFFFFFF in
  let hi := Z.land (Z.shiftr v 12) 0xFFFFF in
  let lo := Z.land v 0xFFF in
  v = pat mod 2 ^ 32 /\ v = hi * 4096 + lo
  /\ 0 <= hi < 2 ^ 20 /\ 0 <= lo < 4096
  /\ (Z.land lo 0x800 =? 0) = (lo <? 2048).
Proof.
  intros v hi lo.
  assert (Hv : v = pat mod 2 ^ 32) by apply land_mask32.
  assert (Hb : 0 <= v < 2 ^ 32) by (rewrite Hv; apply Z.mod_pos_bound; lia).
  assert (Hlo : lo = v mod 4096).
  { unfold lo. change 0xFFF with (Z.ones 12). now rewrite Z.land_ones by lia. }
  assert (Hhi : hi = v / 4096).
  { unfold hi. change 0xFFFFF with (Z.ones 20).
    rewrite Z.land_ones, Z.shiftr_div_pow2 by lia.
    change (2 ^ 12) with 4096. apply Z.mod_small.
    change (2 ^ 32) with 4294967296 in Hb. change (2 ^ 20) with 1048576.
    Z.div_mod_to_equations. lia. }
  assert (Hlb : 0 <= lo < 4096) by (rewrite Hlo; apply Z.mod_pos_bound; lia).
  split; [exact Hv|]. split; [|split; [|split; [exact Hlb|]]].
  - rewrite Hhi, Hlo. Z.div_mod_to_equations. lia.
  - rewrite Hhi. change (2 ^ 32) with 4294967296 in Hb.
    change (2 ^ 20) with 1048576. Z.div_mod_to_equations. lia.
  - change 0x800 with (2 ^ 11). apply land_top_bit_zero; simpl; lia.
Qed.

(** X7.  [load_pattern] leaves [pat mod 2^32] in register [(i % 31) + 1]
    for every integer [pat], whatever the CPU held before, and touches no
    other register and no memory.  The immediates it writes into the
    program fit their fields: the one of [lui] lies in [0, 2^20), the one
    of [addi] in [-2048, 2047], and [addi] is left out when it is 0. *)
Theorem load_pattern_loads_constant (i : nat) (pat : Z) (g : Generators.gen) :
  wf (Generators.sim g) ->
  let reg := Z.of_nat i mod 31 + 1 in
  exists g' upper lower,
    Generators.load_pattern i pat g = Ok g'
    /\ 0 <= upper < 2 ^ 20 /\ -2048 <= lower <= 2047
    /\ Generators.asm g'
       = (Generators.asm g
          ++ ("lui x" +:+ py_str reg +:+ ", " +:+ py_str upper)
          :: (if lower =? 0 then []
              else ["addi x" +:+ py_str reg +:+ ", x" +:+ py_str reg
                      +:+ ", " +:+ py_str lower]))%list
    /\ wf (Generators.sim g')
    /\ ReferenceCPU.mem (Generators.sim g')
       = ReferenceCPU.mem (Generators.sim g)
    /\ ReferenceCPU.get_reg reg (Generators.sim g') = Ok (pat mod 2 ^ 32)
    /\ (forall idx, ~ same_cell idx reg ->
          ReferenceCPU.get_reg idx (Generators.sim g')
          = ReferenceCPU.get_reg idx (Generators.sim g)).
Proof.
  intros Hwf reg.
  assert (Hreg : valid_reg reg).
  { unfold valid_reg, reg. Z.div_mod_to_equations. lia. }
  destruct (get_reg_total 0 (Generators.sim g) Hwf) as [x0 H0].
  { unfold valid_reg. lia. }
  pose proof (split_upper_lower pat) as Hs. cbv zeta in Hs.
  unfold Generators.load_pattern. cbv zeta. fold reg.
  set (v := Z.land pat 0xFFFFFFFF) in *.
  set (hi := Z.land (Z.shiftr v 12) 0xFFFFF) in *.
  set (lo := Z.land v 0xFFF) in *.
  destruct Hs as (Hv & Hsplit & Hhi & Hlo & Hbit).
  rewrite Hbit. change (2 ^ 20) with 1048576 in *.
  destruct (Z.ltb_spec lo 2048) as [Hlt|Hge]; simpl negb; cbv iota.
  - destruct (execute_lui (Generators.sim g) reg 0 hi x0 Hwf Hreg H0 Hhi)
      as (s1 & He1 & Hwf1 & Hm1 & Hg1 & Ho1).
    rewrite He1. change (bind (Ok s1) ?k) with (k s1). cbv beta.
    destruct (Z.eqb_spec lo 0) as [Hz|Hnz]; simpl negb; cbv iota.
    + exists {| Generators.sim := s1;
                Generators.asm :=
                  Generators.append (Generators.asm g)
                    ("lui x" +:+ py_str reg +:+ ", " +:+ py_str hi) |}, hi, lo.
      split; [reflexivity|]. split; [exact Hhi|]. split; [lia|].
      split; [rewrite Hz; reflexivity|]. simpl.
      split; [exact Hwf1|]. split; [exact Hm1|]. split; [|exact Ho1].
      rewrite Hg1. f_equal. lia.
    + destruct (execute_addi s1 reg reg lo (hi * 4096) Hwf1 Hreg Hg1)
        as (s2 & He2 & Hwf2 & Hm2 & Hg2 & Ho2).
      rewrite He2. change (bind (Ok s2) ?k) with (k s2). cbv beta.
      eexists _, hi, lo.
      split; [reflexivity|]. split; [exact Hhi|]. split; [lia|].
      destruct (Z.eqb_spec lo 0) as [?|_]; [contradiction|]. simpl.
      split; [unfold Generators.append; now rewrite <- app_assoc|].
      split; [exact Hwf2|]. split; [congruence|]. split.
      * rewrite Hg2. f_equal. rewrite <- Hsplit, Hv. apply Z.mod_mod. lia.
      * intros idx Hidx. rewrite (Ho2 idx Hidx). now apply Ho1.
  - set (up := Z.land (hi + 1) 1048575).
    assert (Hup : up = (hi + 1) mod 1048576).
    { unfold up. change 1048575 with (Z.ones 20).
      now rewrite Z.land_ones by lia. }
    assert (Hupb : 0 <= up < 1048576)
      by (rewrite Hup; apply Z.mod_pos_bound; lia).
    destruct (execute_lui (Generators.sim g) reg 0 up x0 Hwf Hreg H0 Hupb)
      as (s1 & He1 & Hwf1 & Hm1 & Hg1 & Ho1).
    rewrite He1. change (bind (Ok s1) ?k) with (k s1). cbv beta.
    destruct (Z.eqb_spec (lo - 4096) 0) as [?|_]; [lia|]. simpl negb. cbv iota.
    destruct (execute_addi s1 reg reg (lo - 4096) (up * 4096) Hwf1 Hreg Hg1)
      as (s2 & He2 & Hwf2 & Hm2 & Hg2 & Ho2).
    rewrite He2. change (bind (Ok s2) ?k) with (k s2). cbv beta.
    eexists _, up, (lo - 4096).
    split; [reflexivity|]. split; [exact Hupb|]. split; [lia|].
    destruct (Z.eqb_spec (lo - 4096) 0) as [?|_]; [lia|]. simpl.
    split; [unfold Generators.append; now rewrite <- app_assoc|].
    split; [exact Hwf2|]. split; [congruence|]. split.
    + rewrite Hg2. f_equal. rewrite <- Hv.
      assert (Hvb : 0 <= v < 2 ^ 32)
        by (rewrite Hv; apply Z.mod_pos_bound; lia).
      change (2 ^ 32) with 4294967296 in *.
      rewrite Hup. Z.div_mod_to_equations. lia.
    + intros idx Hidx. rewrite (Ho2 idx Hidx). now apply Ho1.
Qed.

Lemma load_pattern_loads_constant_witness :
  exists g',
    Generators.load_pattern 3 0xAAAAAAAA
      {| Generators.sim := ReferenceCPU.init; Generators.asm := [] |} = Ok g'
    /\ ReferenceCPU.get_reg 4 (Generators.sim g') = Ok 0xAAAAAAAA.
Proof.
  destruct (load_pattern_loads_constant 3 0xAAAAAAAA
              {| Generators.sim := ReferenceCPU.init; Generators.asm := [] |})
    as (g' & upper & lower & He & _ & _ & _ & _ & _ & Hg & _).
  - reflexivity.
  - exists g'. split; [exact He|exact Hg].
Defined.

(** The body of the simulated loop, [k] times: the accumulator gains
    [2 k], the counter loses [k]. *)
Lemma loop_body_repeated (k : nat) :
  forall (self : ReferenceCPU.cpu) (c a : Z),
    wf self ->
    ReferenceCPU.get_reg 5 self = Ok (c mod 2 ^ 32) ->
    ReferenceCPU.get_reg 6 self = Ok (a mod 2 ^ 32) ->
    exists self',
      Generators.repeat_body k
        (fun s =>
           let* s1 := ReferenceCPU.execute "addi" 6 6 None (Some 2) s in
           ReferenceCPU.execute "addi" 5 5 None (Some (-1)) s1)
        self = Ok self'
      /\ wf self'
      /\ ReferenceCPU.get_reg 5 self' = Ok ((c - Z.of_nat k) mod 2 ^ 32)
      /\ ReferenceCPU.get_reg 6 self' = Ok ((a + 2 * Z.of_nat k) mod 2 ^ 32).
Proof.
  induction k as [|k IH]; intros self c a Hwf H5 H6.
  - exists self. simpl. split; [reflexivity|]. split; [exact Hwf|].
    rewrite H5, H6. split; f_equal; f_equal; lia.
  - assert (V5 : valid_reg 5) by (unfold valid_reg; lia).
    assert (V6 : valid_reg 6) by (unfold valid_reg; lia).
    assert (N56 : ~ same_cell 5 6) by (apply same_cell_nonneg; lia).
    assert (N65 : ~ same_cell 6 5) by (apply same_cell_nonneg; lia).
    destruct (execute_addi self 6 6 2 _ Hwf V6 H6)
      as (s1 & He1 & Hwf1 & _ & Hg1 & Ho1).
    assert (H5' : ReferenceCPU.get_reg 5 s1 = Ok (c mod 2 ^ 32))
      by (rewrite (Ho1 5 N56); exact H5).
    destruct (execute_addi s1 5 5 (-1) _ Hwf1 V5 H5')
      as (s2 & He2 & Hwf2 & _ & Hg2 & Ho2).
    destruct (IH s2 (c - 1) (a + 2) Hwf2) as (s3 & He3 & Hwf3 & Hc & Ha).
    + rewrite Hg2, Zplus_mod_idemp_l.
      replace (c + -1) with (c - 1) by lia. reflexivity.
    + rewrite (Ho2 6 N65), Hg1, Zplus_mod_idemp_l. reflexivity.
    + exists s3. simpl Generators.repeat_body.
      rewrite He1. change (bind (Ok s1) ?f) with (f s1). cbv beta.
      rewrite He2. change (bind (Ok s2) ?f) with (f s2). cbv beta.
      split; [exact He3|]. split; [exact Hwf3|].
      rewrite Hc, Ha. split; f_equal; f_equal; lia.
Qed.

(** X8.  For every loop count [n >= 0] the calls of [gen_loops] leave 0
    in the counter register 5 and [2 n mod 2^32] in the accumulator
    register 6, so the two expected values of the generated test, the
    accumulator read from the CPU and the constant 0 for the counter,
    are both what the reference CPU holds. *)
Theorem gen_loops_expected_values (test_id n : Z) :
  0 <= n ->
  exists self t,
    Generators.gen_loops_sim n = Ok self
    /\ ReferenceCPU.get_reg 5 self = Ok 0
    /\ ReferenceCPU.get_reg 6 self = Ok ((2 * n) mod 2 ^ 32)
    /\ Generators.gen_loops_case test_id n = Ok t
    /\ Generators.checks t = [("x6", (2 * n) mod 2 ^ 32); ("x5", 0)].
Proof.
  intros Hn.
  assert (V5 : valid_reg 5) by (unfold valid_reg; lia).
  assert (V6 : valid_reg 6) by (unfold valid_reg; lia).
  destruct (execute_addi ReferenceCPU.init 5 0 n 0 eq_refl V5 eq_refl)
    as (s1 & He1 & Hwf1 & _ & Hg1 & Ho1).
  assert (H0 : ReferenceCPU.get_reg 0 s1 = Ok 0).
  { rewrite (Ho1 0); [reflexivity|apply same_cell_nonneg; lia]. }
  destruct (execute_addi s1 6 0 0 0 Hwf1 V6 H0)
    as (s2 & He2 & Hwf2 & _ & Hg2 & Ho2).
  destruct (loop_body_repeated (Z.to_nat n) s2 n 0 Hwf2)
    as (s3 & He3 & Hwf3 & Hc & Ha).
  { rewrite (Ho2 5); [exact Hg1|apply same_cell_nonneg; lia]. }
  { exact Hg2. }
  rewrite Z2Nat.id in Hc, Ha by exact Hn.
  replace (n - n) with 0 in Hc by lia.
  replace (0 + 2 * n) with (2 * n) in Ha by lia.
  assert (Hsim : Generators.gen_loops_sim n = Ok s3).
  { unfold Generators.gen_loops_sim. cbv zeta.
    rewrite He1. change (bind (Ok s1) ?f) with (f s1). cbv beta.
    rewrite He2. change (bind (Ok s2) ?f) with (f s2). cbv beta.
    exact He3. }
  exists s3. eexists.
  split; [exact Hsim|]. split; [exact Hc|]. split; [exact Ha|].
  unfold Generators.gen_loops_case. cbv zeta.
  rewrite Hsim. change (bind (Ok s3) ?f) with (f s3). cbv beta.
  rewrite Ha. split; reflexivity.
Qed.

Lemma gen_loops_expected_values_witness :
  exists t,
    Generators.gen_loops_case 0 7 = Ok t
    /\ Generators.checks t = [("x6", 14); ("x5", 0)].
Proof.
  destruct (gen_loops_expected_values 0 7) as (self & t & _ & _ & _ & Ht & Hc).
  - lia.
  - exists t. split; [exact Ht|exact Hc].
Defined.

Lemma walk_start_ok :
  exists w0, Generators.walk_start = Ok w0 /\ walk_ok w0.
Proof.
  eexists. split; [reflexivity|].
  unfold walk_ok. simpl.
  repeat (split; [first [reflexivity | lia]|]).
  apply map_Forall_empty.
Qed.

Lemma walk_step_ok (w : Generators.walk) (d : Generators.draw) :
  walk_ok w -> draw_ok d ->
  exists w', Generators.walk_step w d = Ok w' /\ walk_ok w'.
Proof.
  intros Hok Hd. pose proof Hok as (Hwf & H1 & H0 & Hp & H4 & Hmem).
  assert (V1 : valid_reg 1) by (unfold valid_reg; lia).
  assert (V2 : valid_reg 2) by (unfold valid_reg; lia).
  destruct d as [k|k val|k dest]; simpl in Hd;
    unfold Generators.walk_step; cbv zeta.
  - (* move *)
    destruct ((0 <=? Generators.current_ptr w + k * 4)
              && (Generators.current_ptr w + k * 4 <? 2000)) eqn:Hc.
    + apply andb_prop in Hc as [Hlo Hhi].
      apply Z.leb_le in Hlo. apply Z.ltb_lt in Hhi.
      destruct (execute_addi (Generators.w_sim w) 1 1 (k * 4) _ Hwf V1 H1)
        as (s1 & He & Hwf1 & Hm1 & Hg1 & Ho1).
      rewrite He. eexists. split; [reflexivity|].
      unfold walk_ok. simpl.
      split; [exact Hwf1|]. split.
      { rewrite Hg1. f_equal. apply Z.mod_small. lia. }
      split.
      { rewrite (Ho1 0); [exact H0|apply same_cell_nonneg; lia]. }
      split; [lia|]. split; [Z.div_mod_to_equations; lia|].
      rewrite Hm1. exact Hmem.
    + exists w. split; [reflexivity|exact Hok].
  - (* write *)
    set (addr := Z.land (Generators.current_ptr w + k * 4) 0xFFFFFFFF).
    destruct ((0 <=? addr) && (addr <? 2040)) eqn:Hc; simpl negb; cbv iota.
    + apply andb_prop in Hc as [Hlo Hhi].
      apply Z.leb_le in Hlo. apply Z.ltb_lt in Hhi.
      destruct (execute_addi (Generators.w_sim w) 2 0 val 0 Hwf V2 H0)
        as (s1 & He1 & Hwf1 & Hm1 & Hg1 & Ho1).
      rewrite He1. change (bind (Ok s1) ?f) with (f s1). cbv beta.
      assert (H1' : ReferenceCPU.get_reg 1 s1
                    = Ok (Generators.current_ptr w)).
      { rewrite (Ho1 1); [exact H1|apply same_cell_nonneg; lia]. }
      rewrite (execute_sw 0 1 (Some 2) (Some (k * 4)) s1
                 (Generators.current_ptr w) ((0 + val) mod 2 ^ 32) H1' Hg1).
      eexists. split; [reflexivity|].
      unfold walk_ok. simpl.
      split; [exact Hwf1|]. split; [exact H1'|]. split.
      { rewrite <- H0. apply Ho1. apply same_cell_nonneg; lia. }
      split; [exact Hp|]. split; [exact H4|].
      apply map_Forall_insert_2; [|rewrite Hm1; exact Hmem].
      change (effective_address (Generators.current_ptr w) (Some (k * 4)))
        with addr.
      split; [apply Z.mod_mul; lia|].
      split; [Z.div_mod_to_equations; lia|apply u32_mask].
    + exists w. split; [reflexivity|exact Hok].
  - (* read *)
    set (addr := Z.land (Generators.current_ptr w + k * 4) 0xFFFFFFFF).
    destruct ((0 <=? addr) && (addr <? 2040)) eqn:Hc; simpl negb; cbv iota.
    + assert (Vd : valid_reg dest) by (unfold valid_reg; lia).
      destruct (execute_commit "lw" dest 1 None (Some (k * 4))
                  (Generators.w_sim w) (Generators.current_ptr w) 0
                  (ReferenceCPU.load_word addr (Generators.w_sim w)))
        as (s1 & He & Hwf1 & Hm1 & _ & Ho1); auto.
      rewrite He. eexists. split; [reflexivity|].
      unfold walk_ok. simpl.
      split; [exact Hwf1|]. split.
      { rewrite (Ho1 1); [exact H1|apply same_cell_nonneg; lia]. }
      split.
      { rewrite (Ho1 0); [exact H0|apply same_cell_nonneg; lia]. }
      split; [exact Hp|]. split; [exact H4|].
      rewrite Hm1. exact Hmem.
    + exists w. split; [reflexivity|exact Hok].
Qed.

(** X9.  The memory walk never makes the reference CPU raise: whatever
    the turns draw within their ranges, after any number of turns
    register 1 holds the pointer the generator tracks, a multiple of 4 in
    [0, 2000), register 0 is still 0, and every memory cell written lies
    word-aligned in [0, 2040) and holds a 32-bit value. *)
Theorem memory_walk_stays_in_bounds (ds : list Generators.draw) :
  Forall draw_ok ds ->
  exists w0 w,
    Generators.walk_start = Ok w0
    /\ Generators.walk_steps w0 ds = Ok w
    /\ walk_ok w.
Proof.
  intros Hds.
  destruct walk_start_ok as (w0 & Hw0 & Hok0).
  exists w0.
  assert (H : forall w, walk_ok w ->
            exists w', Generators.walk_steps w ds = Ok w' /\ walk_ok w').
  { induction Hds as [|d ds Hd Hds IH]; intros w Hok.
    - exists w. split; [reflexivity|exact Hok].
    - destruct (walk_step_ok w d Hok Hd) as (w1 & He & Hok1).
      destruct (IH w1 Hok1) as (w2 & He2 & Hok2).
      exists w2. split; [|exact Hok2].
      simpl. rewrite He. exact He2. }
  destruct (H w0 Hok0) as (w & He & Hok).
  exists w. split; [exact Hw0|]. split; [exact He|exact Hok].
Qed.

Lemma memory_walk_stays_in_bounds_witness :
  exists w0 w,
    Generators.walk_start = Ok w0
    /\ Generators.walk_steps w0
         [Generators.Write 3 (-7); Generators.Move (-50);
          Generators.Read 53 4; Generators.Read (-100) 31;
          Generators.Write (-100) 5] = Ok w
    /\ walk_ok w.
Proof.
  apply memory_walk_stays_in_bounds.
  repeat constructor; simpl; lia.
Defined.

(** ** The assembler: fields *)

(** [to_bin] on a value of the field, for the proofs below. *)
Lemma to_bin_fits (v : Z) (bits : nat) :
  (1 <= bits)%nat ->
  - 2 ^ Z.of_nat bits <= v < 2 ^ Z.of_nat bits ->
  String.length (Assembler.to_bin v bits) = bits
  /\ all_bits (Assembler.to_bin v bits) = true
  /\ bin_value (Assembler.to_bin v bits) = v mod 2 ^ Z.of_nat bits.
Proof.
  intros Hb Hv. unfold Assembler.to_bin. rewrite Z.shiftl_1_l.
  assert (Hp : 0 < 2 ^ Z.of_nat bits) by (apply Z.pow_pos_nonneg; lia).
  destruct (Z.ltb_spec v 0) as [Hneg|Hpos].
  - destruct (format_0b_fits (2 ^ Z.of_nat bits + v) bits Hb)
      as (Hl & Ha & Hval); [lia|].
    split; [exact Hl|]. split; [exact Ha|]. rewrite Hval.
    apply (Z.mod_unique v (2 ^ Z.of_nat bits) (-1)); lia.
  - destruct (format_0b_fits v bits Hb) as (Hl & Ha & Hval); [lia|].
    split; [exact Hl|]. split; [exact Ha|]. rewrite Hval.
    symmetry. apply Z.mod_small. lia.
Qed.

Lemma regs_in_range :
  map_Forall (fun (_ : string) r => 0 <= r < 32) Assembler.regs.
Proof. apply (bool_decide_unpack _). vm_compute. exact I. Qed.

(** X10.  Every register name [parse_reg] accepts has a number in
    [0, 31], so its field is exactly 5 binary digits that denote it. *)
Theorem parse_reg_fits_field (s : string) (r : Z) :
  Assembler.parse_reg s = Ok r ->
  0 <= r < 32
  /\ String.length (Assembler.to_bin r 5) = 5%nat
  /\ all_bits (Assembler.to_bin r 5) = true
  /\ bin_value (Assembler.to_bin r 5) = r.
Proof.
  unfold Assembler.parse_reg.
  destruct (Assembler.regs !! _) as [r'|] eqn:Hl; [|discriminate].
  intros [= <-]. pose proof (regs_in_range _ _ Hl) as Hr. simpl in Hr.
  split; [exact Hr|].
  destruct (to_bin_fits r' 5) as (H1 & H2 & H3); [lia|simpl; lia|].
  split; [exact H1|]. split; [exact H2|].
  rewrite H3. apply Z.mod_small. simpl. lia.
Qed.

Lemma parse_reg_fits_field_witness :
  Assembler.parse_reg " t6" = Ok 31
  /\ Assembler.to_bin 31 5 = "11111"
  /\ bin_value (Assembler.to_bin 31 5) = 31.
Proof.
  destruct (parse_reg_fits_field " t6" 31) as (_ & _ & _ & Hv).
  - vm_compute. reflexivity.
  - split; [vm_compute; reflexivity|]. split; [reflexivity|exact Hv].
Defined.

Lemma size_nat_above (p : positive) :
  forall bits : nat,
    2 ^ Z.of_nat bits <= Z.pos p -> (bits < Pos.size_nat p)%nat.
Proof.
  induction p as [p IH|p IH|]; intros [|b] H; simpl; try lia;
    rewrite Nat2Z.inj_succ, Z.pow_succ_r in H by lia;
    try (apply -> Nat.succ_lt_mono; apply IH; lia).
  assert (0 < 2 ^ Z.of_nat b) by (apply Z.pow_pos_nonneg; lia). lia.
Qed.

(** X11.  [to_bin] yields a field of [bits] binary digits exactly for the
    values from [-2^bits] to [2^bits - 1]: a larger value comes out
    longer than the field, a smaller one with a minus sign.  Nothing is
    ever cut down to the field. *)
Theorem to_bin_field_iff (v : Z) (bits : nat) :
  (1 <= bits)%nat ->
  (String.length (Assembler.to_bin v bits) = bits
   /\ all_bits (Assembler.to_bin v bits) = true)
  <-> - 2 ^ Z.of_nat bits <= v < 2 ^ Z.of_nat bits.
Proof.
  intros Hb. split.
  - intros [Hl Ha].
    assert (Hp : 0 < 2 ^ Z.of_nat bits) by (apply Z.pow_pos_nonneg; lia).
    destruct (Z.lt_ge_cases v (- 2 ^ Z.of_nat bits)) as [Hlow|Hlow].
    + exfalso. revert Ha. unfold Assembler.to_bin, Assembler.format_0b.
      rewrite Z.shiftl_1_l.
      destruct (Z.ltb_spec v 0); [|lia].
      destruct (Z.ltb_spec (2 ^ Z.of_nat bits + v) 0); [|lia].
      rewrite app_cons. simpl. discriminate.
    + destruct (Z.lt_ge_cases v (2 ^ Z.of_nat bits)) as [Hhigh|Hhigh];
        [lia|].
      exfalso. revert Hl. unfold Assembler.to_bin, Assembler.format_0b.
      destruct (Z.ltb_spec v 0); [lia|].
      destruct v as [|p|p]; try lia. simpl Assembler.bin_digits.
      change (Z.pos p <? 0) with false. cbv iota.
      rewrite length_app, length_zeros, length_bin_pos.
      pose proof (size_nat_above p bits Hhigh). simpl. lia.
  - intros Hv. destruct (to_bin_fits v bits Hb Hv) as (Hl & Ha & _).
    split; assumption.
Qed.

Lemma to_bin_field_iff_witness :
  String.length (Assembler.to_bin 2047 12) = 12%nat
  /\ all_bits (Assembler.to_bin 2047 12) = true.
Proof.
  apply (to_bin_field_iff 2047 12); simpl; lia.
Defined.

(** ** The assembler: fields as two's-complement bits *)

Lemma imm_bit_cases (v : Z) (i : nat) :
  imm_bit v i = String (if Z.testbit v (Z.of_nat i) then "1" else "0")%char "".
Proof. unfold imm_bit. now destruct (Z.testbit v (Z.of_nat i)). Qed.

Lemma length_imm_bits (v : Z) (lo n : nat) :
  String.length (imm_bits v lo n) = n.
Proof.
  induction n as [|n IH]; [reflexivity|].
  simpl imm_bits. rewrite imm_bit_cases, app_cons, app_nil. simpl.
  now rewrite IH.
Qed.

Lemma all_bits_imm_bits (v : Z) (lo n : nat) :
  all_bits (imm_bits v lo n) = true.
Proof.
  induction n as [|n IH]; [reflexivity|].
  simpl imm_bits. rewrite imm_bit_cases, app_cons, app_nil. simpl.
  rewrite IH. now destruct (Z.testbit v (Z.of_nat (lo + n))).
Qed.

Lemma bin_value_imm_bits (v : Z) (lo n : nat) :
  bin_value (imm_bits v lo n) = (v / 2 ^ Z.of_nat lo) mod 2 ^ Z.of_nat n.
Proof.
  induction n as [|n IH].
  - simpl. now rewrite Z.mod_1_r.
  - simpl imm_bits. rewrite imm_bit_cases, app_cons, app_nil.
    simpl bin_value. rewrite IH, length_imm_bits.
    assert (Hlo : 0 < 2 ^ Z.of_nat lo) by (apply Z.pow_pos_nonneg; lia).
    assert (Hn : 0 < 2 ^ Z.of_nat n) by (apply Z.pow_pos_nonneg; lia).
    rewrite (Nat2Z.inj_succ n), Z.pow_succ_r by lia.
    rewrite (Z.mul_comm 2), Z.rem_mul_r by lia.
    rewrite Z.div_div, <- Z.pow_add_r, <- Nat2Z.inj_add by lia.
    rewrite <- Z.testbit_spec' by lia.
    destruct (Z.testbit v (Z.of_nat (lo + n))); simpl Z.b2z;
      unfold bit_value; simpl; lia.
Qed.

Lemma bin_value_bound (s : string) :
  all_bits s = true -> 0 <= bin_value s < 2 ^ Z.of_nat (String.length s).
Proof.
  induction s as [|c s IH]; [simpl; lia|].
  intros H. simpl in H. apply andb_prop in H as [Hc Hs]. specialize (IH Hs).
  change (String.length (String c s)) with (S (String.length s)).
  rewrite Nat2Z.inj_succ, Z.pow_succ_r by lia.
  change (bin_value (String c s))
    with (bit_value c * 2 ^ Z.of_nat (String.length s) + bin_value s).
  unfold bit_value. destruct (Ascii.eqb c "1"); lia.
Qed.

(** Two bit strings of one length that denote one number are equal. *)
Lemma bits_unique (s : string) :
  forall t,
    all_bits s = true -> all_bits t = true ->
    String.length s = String.length t ->
    bin_value s = bin_value t -> s = t.
Proof.
  induction s as [|c s IH]; intros [|d t] Hs Ht Hl Hv;
    try discriminate; [reflexivity|].
  simpl in Hs, Ht, Hl, Hv.
  apply andb_prop in Hs as [Hc Hs]. apply andb_prop in Ht as [Hd Ht].
  injection Hl as Hl.
  pose proof (bin_value_bound s Hs) as Bs.
  pose proof (bin_value_bound t Ht) as Bt.
  rewrite <- Hl in Hv, Bt.
  assert (Hcd : c = d /\ bin_value s = bin_value t).
  { apply orb_prop in Hc as [Hc|Hc]; apply orb_prop in Hd as [Hd|Hd];
      apply Ascii.eqb_eq in Hc, Hd; subst c d;
      unfold bit_value in Hv; simpl in Hv; split; try reflexivity; lia. }
  destruct Hcd as [-> Hv']. f_equal. now apply IH.
Qed.

(** X12.  On the values of the field, [to_bin(v, bits)] is the two's
    complement of [v]: bit [bits - 1] of [v] first, bit 0 last.  Read back
    as a signed number of [bits] bits it gives [v] when
    [-2^(bits-1) <= v < 2^(bits-1)], and [v - 2^bits] for a larger [v]:
    on such a value the encoder does not raise, the field just reads as
    a negative number. *)
Theorem to_bin_twos_complement (v : Z) (bits : nat) :
  (1 <= bits)%nat ->
  - 2 ^ Z.of_nat bits <= v < 2 ^ Z.of_nat bits ->
  Assembler.to_bin v bits = imm_bits v 0 bits
  /\ (- 2 ^ (Z.of_nat bits - 1) <= v < 2 ^ (Z.of_nat bits - 1) ->
      signed_value (Assembler.to_bin v bits) = v)
  /\ (2 ^ (Z.of_nat bits - 1) <= v ->
      signed_value (Assembler.to_bin v bits) = v - 2 ^ Z.of_nat bits).
Proof.
  intros Hb Hv.
  destruct (to_bin_fits v bits Hb Hv) as (Hl & Ha & Hval).
  split.
  - apply bits_unique.
    + exact Ha.
    + apply all_bits_imm_bits.
    + now rewrite Hl, length_imm_bits.
    + rewrite Hval, bin_value_imm_bits. simpl (2 ^ Z.of_nat 0).
      now rewrite Z.div_1_r.
  - unfold signed_value. rewrite Hl, Hval.
    assert (Hpow : 2 ^ Z.of_nat bits = 2 * 2 ^ (Z.of_nat bits - 1)).
    { rewrite <- Z.pow_succ_r by lia. f_equal. lia. }
    assert (Hp : 0 < 2 ^ (Z.of_nat bits - 1))
      by (apply Z.pow_pos_nonneg; lia).
    revert Hp Hv. rewrite Hpow.
    generalize (2 ^ (Z.of_nat bits - 1)). intros h Hp Hv.
    destruct (Z.lt_ge_cases v 0) as [Hneg|Hpos].
    + assert (Hm : v mod (2 * h) = v + 2 * h).
      { symmetry. apply (Z.mod_unique v (2 * h) (-1)); lia. }
      rewrite Hm.
      split; intros Hr; destruct (Z.ltb_spec (v + 2 * h) h); lia.
    + rewrite Z.mod_small by lia.
      split; intros Hr; destruct (Z.ltb_spec v h); lia.
Qed.

Lemma to_bin_twos_complement_witness :
  Assembler.to_bin (-1) 12 = "111111111111"
  /\ signed_value (Assembler.to_bin (-1) 12) = -1
  /\ Assembler.to_bin 4095 12 = "111111111111".
Proof.
  destruct (to_bin_twos_complement (-1) 12) as (_ & Hs & _).
  - lia.
  - simpl. lia.
  - split; [reflexivity|]. split; [|reflexivity].
    apply Hs. simpl. lia.
Defined.

(** ** The assembler: how a line is cut into mnemonic and operands *)

Lemma app_nil_r (s : string) : s +:+ "" = s.
Proof.
  induction s as [|c s IH]; [reflexivity|]. now rewrite app_cons, IH.
Qed.

Lemma app_assoc (a b c : string) : (a +:+ b) +:+ c = a +:+ (b +:+ c).
Proof.
  induction a as [|x a IH]; [reflexivity|]. now rewrite !app_cons, IH.
Qed.

Lemma lacks_weaken (p q : ascii -> bool) (s : string) :
  (forall c, q c = true -> p c = true) ->
  lacks p s = true -> lacks q s = true.
Proof.
  intros Hpq. induction s as [|c s IH]; simpl; [reflexivity|].
  intros H. apply andb_prop in H as [Hc Hs]. rewrite (IH Hs), andb_true_r.
  destruct (q c) eqn:Hq; [|reflexivity].
  rewrite (Hpq c Hq) in Hc. discriminate.
Qed.

Lemma plain_no_space (s : string) :
  plain s = true -> lacks Assembler.isspace s = true.
Proof. apply lacks_weaken. intros c ->. reflexivity. Qed.

Lemma plain_no_comma (s : string) :
  plain s = true -> lacks (fun c => Ascii.eqb c ",") s = true.
Proof. apply lacks_weaken. intros c ->. apply orb_true_r. Qed.

(** The pieces [re.split] returns, joined again, are the line without
    its white space. *)
Lemma join_re_split_ws (s : string) :
  forall b, Assembler.join (Assembler.re_split_ws s b) = squeeze s.
Proof.
  induction s as [|c s IH]; intros b; [reflexivity|].
  simpl. destruct (Assembler.isspace c).
  - destruct b; [apply IH|]. unfold Assembler.join. simpl.
    rewrite app_nil. apply IH.
  - specialize (IH false).
    destruct (Assembler.re_split_ws s false) as [|h t].
    + unfold Assembler.join in *. simpl in *. rewrite app_nil_r.
      now rewrite <- IH.
    + unfold Assembler.join in *. simpl in *.
      now rewrite app_cons, IH.
Qed.

Lemma re_split_ws_mnemonic (m rest : string) :
  lacks Assembler.isspace m = true ->
  Assembler.re_split_ws (m +:+ " " +:+ rest) false
  = m :: Assembler.re_split_ws rest true.
Proof.
  induction m as [|c m IH]; intros H.
  - rewrite app_nil. reflexivity.
  - simpl in H. apply andb_prop in H as [Hc Hm].
    rewrite app_cons. simpl.
    destruct (Assembler.isspace c); [discriminate|].
    now rewrite (IH Hm).
Qed.

Lemma squeeze_app (a b : string) :
  squeeze (a +:+ b) = squeeze a +:+ squeeze b.
Proof.
  induction a as [|c a IH]; [reflexivity|].
  rewrite app_cons. simpl. destruct (Assembler.isspace c);
    [exact IH|now rewrite app_cons, IH].
Qed.

Lemma squeeze_lacks (s : string) :
  lacks Assembler.isspace s = true -> squeeze s = s.
Proof.
  induction s as [|c s IH]; simpl; [reflexivity|].
  intros H. apply andb_prop in H as [Hc Hs].
  destruct (Assembler.isspace c); [discriminate|]. now rewrite IH.
Qed.

Lemma split_lacks (sep : ascii) (s : string) :
  lacks (fun c => Ascii.eqb c sep) s = true -> Assembler.split sep s = [s].
Proof.
  induction s as [|c s IH]; simpl; [reflexivity|].
  intros H. apply andb_prop in H as [Hc Hs].
  destruct (Ascii.eqb c sep); [discriminate|]. now rewrite (IH Hs).
Qed.

Lemma split_app_sep (sep : ascii) (a t : string) :
  lacks (fun c => Ascii.eqb c sep) a = true ->
  Assembler.split sep (a +:+ String sep t) = a :: Assembler.split sep t.
Proof.
  induction a as [|c a IH]; intros H.
  - rewrite app_nil. simpl. now rewrite Ascii.eqb_refl.
  - simpl in H. apply andb_prop in H as [Hc Ha].
    rewrite app_cons. simpl.
    destruct (Ascii.eqb c sep); [discriminate|]. now rewrite (IH Ha).
Qed.

Lemma rev_onto_twice (s : string) :
  forall a b,
    Assembler.rev_onto (Assembler.rev_onto s a) b
    = Assembler.rev_onto a (s +:+ b).
Proof.
  induction s as [|c s IH]; intros a b; [reflexivity|].
  simpl. rewrite IH. reflexivity.
Qed.

Lemma lacks_rev_onto (p : ascii -> bool) (s : string) :
  forall acc,
    lacks p s = true -> lacks p acc = true ->
    lacks p (Assembler.rev_onto s acc) = true.
Proof.
  induction s as [|c s IH]; intros acc Hs Hacc; [exact Hacc|].
  simpl in Hs. apply andb_prop in Hs as [Hc Hs]. simpl.
  apply IH; [exact Hs|]. simpl. now rewrite Hc, Hacc.
Qed.

Lemma lstrip_lacks (sp : ascii -> bool) (s : string) :
  lacks sp s = true -> Assembler.lstrip_with sp s = s.
Proof.
  destruct s as [|c s]; simpl; [reflexivity|].
  intros H. apply andb_prop in H as [Hc _].
  now destruct (sp c).
Qed.

(** Stripping a string that has no white space changes nothing. *)
Lemma strip_lacks (sp : ascii -> bool) (s : string) :
  lacks sp s = true -> Assembler.strip_with sp s = s.
Proof.
  intros H. unfold Assembler.strip_with, Assembler.rstrip_with.
  rewrite (lstrip_lacks sp s H).
  rewrite (lstrip_lacks sp (Assembler.rev_onto s ""))
    by (now apply lacks_rev_onto).
  rewrite rev_onto_twice. simpl. apply app_nil_r.
Qed.

Lemma split_operands (args : list string) :
  forallb plain args = true -> args <> [] ->
  Assembler.split "," (squeeze (operands_text args)) = args.
Proof.
  induction args as [|a rest IH]; intros H Hne; [contradiction|].
  simpl in H. apply andb_prop in H as [Ha Hrest].
  destruct rest as [|b rest].
  - simpl. rewrite (squeeze_lacks a (plain_no_space a Ha)).
    apply split_lacks. now apply plain_no_comma.
  - change (operands_text (a :: b :: rest))
      with (a +:+ ", " +:+ operands_text (b :: rest)).
    rewrite !squeeze_app, (squeeze_lacks a (plain_no_space a Ha)).
    change (squeeze ", ") with ",".
    change ("," +:+ squeeze (operands_text (b :: rest)))
      with (String "," (squeeze (operands_text (b :: rest)))).
    rewrite split_app_sep by (now apply plain_no_comma).
    f_equal. apply IH; [exact Hrest|discriminate].
Qed.

Lemma instruction_text_tokens_aux (m : string) (args : list string) :
  plain m = true -> forallb plain args = true -> args <> [] ->
  Assembler.item (Assembler.re_split_ws (instruction_text m args) false) 0
  = Ok m
  /\ operands_of (instruction_text m args) = args.
Proof.
  intros Hm Hargs Hne. unfold instruction_text, operands_of.
  rewrite (re_split_ws_mnemonic m _ (plain_no_space m Hm)).
  split; [reflexivity|].
  simpl tail. rewrite join_re_split_ws, split_operands by assumption.
  clear Hne. induction args as [|a rest IH]; [reflexivity|].
  simpl in Hargs. apply andb_prop in Hargs as [Ha Hrest].
  rewrite fmap_cons, (IH Hrest). f_equal.
  apply strip_lacks. now apply plain_no_space.
Qed.

(** X13.  A line in the form the generators write, [op a, b, c] with a
    mnemonic and operands free of white space and commas, is cut by
    pass 2 into exactly that mnemonic and those operands. *)
Theorem instruction_text_tokens (m : string) (args : list string) :
  plain m = true -> forallb plain args = true -> args <> [] ->
  Assembler.item (Assembler.re_split_ws (instruction_text m args) false) 0
  = Ok m
  /\ operands_of (instruction_text m args) = args.
Proof.
  intros Hm Hargs Hne. unfold instruction_text, operands_of.
  rewrite (re_split_ws_mnemonic m _ (plain_no_space m Hm)).
  split; [reflexivity|].
  simpl tail. rewrite join_re_split_ws, split_operands by assumption.
  clear Hne. induction args as [|a rest IH]; [reflexivity|].
  simpl in Hargs. apply andb_prop in Hargs as [Ha Hrest].
  rewrite fmap_cons, (IH Hrest). f_equal.
  apply strip_lacks. now apply plain_no_space.
Qed.

Lemma instruction_text_tokens_witness :
  instruction_text "sw" ["x2"; "-8(x1)"] = "sw x2, -8(x1)"
  /\ Assembler.item (Assembler.re_split_ws "sw x2, -8(x1)" false) 0 = Ok "sw"
  /\ operands_of "sw x2, -8(x1)" = ["x2"; "-8(x1)"].
Proof.
  split; [reflexivity|].
  apply (instruction_text_tokens "sw" ["x2"; "-8(x1)"]).
  - reflexivity.
  - reflexivity.
  - discriminate.
Defined.

(** ** The assembler: the words of the formats *)

Lemma bind_Ok {A B} (x : A) (k : A -> res B) : bind (Ok x) k = k x.
Proof. reflexivity. Qed.

Lemma to_bin_bits (v : Z) (bits : nat) :
  (1 <= bits)%nat ->
  - 2 ^ Z.of_nat bits <= v < 2 ^ Z.of_nat bits ->
  Assembler.to_bin v bits = imm_bits v 0 bits.
Proof.
  intros Hb Hv. destruct (to_bin_fits v bits Hb Hv) as (Hl & Ha & Hval).
  apply bits_unique.
  - exact Ha.
  - apply all_bits_imm_bits.
  - now rewrite Hl, length_imm_bits.
  - rewrite Hval, bin_value_imm_bits. simpl (2 ^ Z.of_nat 0).
    now rewrite Z.div_1_r.
Qed.

Lemma parse_reg_bits (a : string) (r : Z) :
  Assembler.parse_reg a = Ok r ->
  0 <= r < 32 /\ Assembler.to_bin r 5 = reg_field r.
Proof.
  unfold Assembler.parse_reg.
  destruct (Assembler.regs !! _) as [r'|] eqn:Hl; [|discriminate].
  intros [= <-]. pose proof (regs_in_range _ _ Hl) as Hr. simpl in Hr.
  split; [exact Hr|]. apply to_bin_bits; simpl; lia.
Qed.

Lemma bit_field_reg (r : Z) : bit_field 5 (reg_field r).
Proof. split; [apply length_imm_bits|apply all_bits_imm_bits]. Qed.

Lemma bit_field_imm (v : Z) (lo n : nat) : bit_field n (imm_bits v lo n).
Proof. split; [apply length_imm_bits|apply all_bits_imm_bits]. Qed.

Lemma bit_field_app (n k : nat) (s t : string) :
  bit_field n s -> bit_field k t -> bit_field (n + k) (s +:+ t).
Proof.
  intros [Hl Ha] [Hl' Ha']. split.
  - now rewrite length_app, Hl, Hl'.
  - now rewrite all_bits_app, Ha, Ha'.
Qed.

(** The fields of the instruction table have the widths of the formats. *)
Lemma opcodes_fields (m : string) (op : Assembler.descriptor) :
  Assembler.lookup_key m Assembler.opcodes = Some op ->
  (forall x, Assembler.field op "opcode" = Ok x -> bit_field 7 x)
  /\ (forall x, Assembler.field op "funct3" = Ok x -> bit_field 3 x)
  /\ (forall x, Assembler.field op "funct7" = Ok x -> bit_field 7 x).
Proof.
  unfold Assembler.opcodes, Assembler.lookup_key.
  repeat match goal with
         | |- context [if (?s =? m)%string then _ else _] =>
             destruct (s =? m)%string
         end;
    intros [= <-]; (split; [|split]);
    intros y Hy; vm_compute in Hy;
    first [discriminate Hy | injection Hy as <-; split; reflexivity].
Qed.

Lemma take_app_length (n : nat) (s t : string) :
  String.length s = n -> Assembler.take n (s +:+ t) = s.
Proof.
  revert n. induction s as [|c s IH]; intros n Hn; simpl in Hn; subst n.
  - now destruct t.
  - rewrite app_cons. simpl. now rewrite IH.
Qed.

Lemma drop_app_length (n : nat) (s t : string) :
  String.length s = n -> Assembler.drop n (s +:+ t) = t.
Proof.
  revert n. induction s as [|c s IH]; intros n Hn; simpl in Hn; subst n.
  - now destruct t.
  - rewrite app_cons. simpl. now apply IH.
Qed.

Lemma drop_app_plus (k n : nat) (s t : string) :
  String.length s = k ->
  Assembler.drop (k + n) (s +:+ t) = Assembler.drop n t.
Proof.
  revert k. induction s as [|c s IH]; intros k Hk; simpl in Hk; subst k.
  - reflexivity.
  - rewrite app_cons. simpl. now apply IH.
Qed.

(** X14.  An R-type line [op rd, rs1, rs2] encodes to
    funct7 | rs2 | rs1 | funct3 | rd | opcode: 32 binary digits, from
    which the three register numbers are read back at bits 24..20,
    19..15 and 11..7. *)
Theorem r_type_word (labels : gmap string Z) (pc : Z) (m : string)
    (op : Assembler.descriptor) (opcode funct3 funct7 a0 a1 a2 : string)
    (rd rs1 rs2 : Z) :
  plain m = true ->
  Assembler.lookup_key m Assembler.opcodes = Some op ->
  Assembler.field op "type" = Ok "R" ->
  Assembler.field op "opcode" = Ok opcode ->
  Assembler.field op "funct3" = Ok funct3 ->
  Assembler.field op "funct7" = Ok funct7 ->
  forallb plain [a0; a1; a2] = true ->
  Assembler.parse_reg a0 = Ok rd ->
  Assembler.parse_reg a1 = Ok rs1 ->
  Assembler.parse_reg a2 = Ok rs2 ->
  let w := r_type_layout funct7 rs2 rs1 funct3 rd opcode in
  Assembler.encode labels pc (instruction_text m [a0; a1; a2]) = Ok w
  /\ bit_field 32 w
  /\ bin_value (Assembler.slice 7 12 w) = rs2
  /\ bin_value (Assembler.slice 12 17 w) = rs1
  /\ bin_value (Assembler.slice 20 25 w) = rd.
Proof.
  intros Hm Hop Hty Hopc Hf3 Hf7 Hargs H0 H1 H2 w.
  destruct (instruction_text_tokens_aux m [a0; a1; a2] Hm Hargs)
    as [Htok Hops]; [discriminate|].
  destruct (opcodes_fields m op Hop) as (Bopc & Bf3 & Bf7).
  specialize (Bopc _ Hopc). specialize (Bf3 _ Hf3). specialize (Bf7 _ Hf7).
  destruct (parse_reg_bits a0 rd H0) as [R0 T0].
  destruct (parse_reg_bits a1 rs1 H1) as [R1 T1].
  destruct (parse_reg_bits a2 rs2 H2) as [R2 T2].
  assert (Hreg : forall r, 0 <= r < 32 -> bin_value (reg_field r) = r).
  { intros r Hr. unfold reg_field. rewrite bin_value_imm_bits.
    simpl (2 ^ Z.of_nat 0). rewrite Z.div_1_r. apply Z.mod_small.
    simpl. lia. }
  split; [|split; [|split; [|split]]].
  - unfold Assembler.encode. cbv zeta. unfold operands_of in Hops.
    rewrite Htok, bind_Ok, Hops, Hop, Hty, bind_Ok. cbv beta.
    rewrite Hopc, bind_Ok. cbv beta.
    change ("R" =? "R")%string with true. cbv iota.
    change (Assembler.item [a0; a1; a2] 0) with (Ok a0).
    change (Assembler.item [a0; a1; a2] 1) with (Ok a1).
    change (Assembler.item [a0; a1; a2] 2) with (Ok a2).
    repeat (first [rewrite bind_Ok | rewrite H0 | rewrite H1 | rewrite H2
                   | rewrite Hf3 | rewrite Hf7]; cbv beta).
    rewrite T0, T1, T2. reflexivity.
  - unfold w, r_type_layout.
    change 32%nat with (7 + (5 + (5 + (3 + (5 + 7)))))%nat.
    repeat apply bit_field_app; auto using bit_field_reg.
  - unfold w, r_type_layout, Assembler.slice.
    rewrite (drop_app_length 7) by apply Bf7.
    rewrite (take_app_length (12 - 7)) by apply length_imm_bits.
    now apply Hreg.
  - unfold w, r_type_layout, Assembler.slice.
    change (Assembler.drop 12) with (Assembler.drop (7 + 5)).
    rewrite (drop_app_plus 7) by apply Bf7.
    rewrite (drop_app_length 5) by apply length_imm_bits.
    rewrite (take_app_length (17 - 12)) by apply length_imm_bits.
    now apply Hreg.
  - unfold w, r_type_layout, Assembler.slice.
    change (Assembler.drop 20) with (Assembler.drop (7 + (5 + (5 + 3)))).
    rewrite (drop_app_plus 7) by apply Bf7.
    rewrite !(drop_app_plus 5) by apply length_imm_bits.
    rewrite (drop_app_length 3) by apply Bf3.
    rewrite (take_app_length (25 - 20)) by apply length_imm_bits.
    now apply Hreg.
Qed.

Lemma r_type_word_witness :
  Assembler.encode ∅ 0 "sub x4, x2, x1"
  = Ok "01000000000100010000001000110011"
  /\ bin_value (Assembler.slice 20 25 "01000000000100010000001000110011") = 4.
Proof.
  destruct (r_type_word ∅ 0 "sub"
              [("type", "R"); ("opcode", "0110011"); ("funct3", "000");
               ("funct7", "0100000")]
              "0110011" "000" "0100000" "x4" "x2" "x1" 4 2 1)
    as (He & _ & _ & _ & Hd); try (vm_compute; reflexivity).
  split; [exact He|exact Hd].
Defined.

Lemma imm_bits_split (v : Z) (lo j k : nat) :
  imm_bits v lo (j + k) = imm_bits v (lo + k) j +:+ imm_bits v lo k.
Proof.
  induction j as [|j IH]; [reflexivity|].
  change (imm_bits v lo (S j + k))
    with (imm_bit v (lo + (j + k)) +:+ imm_bits v lo (j + k)).
  change (imm_bits v (lo + k) (S j))
    with (imm_bit v (lo + k + j) +:+ imm_bits v (lo + k) j).
  rewrite IH, app_assoc.
  replace (lo + (j + k))%nat with (lo + k + j)%nat by lia. reflexivity.
Qed.

Lemma signed_imm_bits (v : Z) (n : nat) :
  (1 <= n)%nat ->
  - 2 ^ (Z.of_nat n - 1) <= v < 2 ^ (Z.of_nat n - 1) ->
  signed_value (imm_bits v 0 n) = v.
Proof.
  intros Hn Hv. unfold signed_value.
  rewrite length_imm_bits, bin_value_imm_bits.
  simpl (2 ^ Z.of_nat 0). rewrite Z.div_1_r.
  assert (Hpow : 2 ^ Z.of_nat n = 2 * 2 ^ (Z.of_nat n - 1)).
  { rewrite <- Z.pow_succ_r by lia. f_equal. lia. }
  revert Hv. rewrite Hpow. generalize (2 ^ (Z.of_nat n - 1)). intros h Hv.
  destruct (Z.lt_ge_cases v 0) as [Hneg|Hpos].
  - assert (Hm : v mod (2 * h) = v + 2 * h).
    { symmetry. apply (Z.mod_unique v (2 * h) (-1)); lia. }
    rewrite Hm. destruct (Z.ltb_spec (v + 2 * h) h); lia.
  - rewrite Z.mod_small by lia. destruct (Z.ltb_spec v h); lia.
Qed.

(** X15.  An I-type line [op rd, rs1, imm] ([addi], [jalr]) whose
    immediate lies in [-4096, 4095] encodes to
    imm[11:0] | rs1 | funct3 | rd | opcode, 32 binary digits; when the
    immediate lies in [-2048, 2047] the first 12 digits read back as
    that immediate. *)
Theorem i_type_word (labels : gmap string Z) (pc : Z) (m : string)
    (op : Assembler.descriptor) (opcode funct3 a0 a1 a2 : string)
    (rd rs1 imm : Z) :
  plain m = true ->
  Assembler.lookup_key m Assembler.opcodes = Some op ->
  Assembler.field op "type" = Ok "I" ->
  Assembler.field op "opcode" = Ok opcode ->
  Assembler.field op "funct3" = Ok funct3 ->
  forallb plain [a0; a1; a2] = true ->
  Assembler.parse_reg a0 = Ok rd ->
  Assembler.parse_reg a1 = Ok rs1 ->
  Assembler.parse_imm a2 labels pc = Ok imm ->
  -4096 <= imm < 4096 ->
  let w := i_type_layout imm rs1 funct3 rd opcode in
  Assembler.encode labels pc (instruction_text m [a0; a1; a2]) = Ok w
  /\ bit_field 32 w
  /\ (-2048 <= imm < 2048 -> signed_value (Assembler.slice 0 12 w) = imm).
Proof.
  intros Hm Hop Hty Hopc Hf3 Hargs H0 H1 H2 Himm w.
  destruct (instruction_text_tokens_aux m [a0; a1; a2] Hm Hargs)
    as [Htok Hops]; [discriminate|].
  destruct (opcodes_fields m op Hop) as (Bopc & Bf3 & _).
  specialize (Bopc _ Hopc). specialize (Bf3 _ Hf3).
  destruct (parse_reg_bits a0 rd H0) as [R0 T0].
  destruct (parse_reg_bits a1 rs1 H1) as [R1 T1].
  split; [|split].
  - unfold Assembler.encode. cbv zeta. unfold operands_of in Hops.
    rewrite Htok, bind_Ok, Hops, Hop, Hty, bind_Ok. cbv beta.
    rewrite Hopc, bind_Ok. cbv beta.
    change ("I" =? "R")%string with false.
    change ("I" =? "I")%string with true. cbv iota.
    change (Assembler.item [a0; a1; a2] 0) with (Ok a0).
    change (Assembler.item [a0; a1; a2] 1) with (Ok a1).
    change (Assembler.item [a0; a1; a2] 2) with (Ok a2).
    repeat (first [rewrite bind_Ok | rewrite H0 | rewrite H1 | rewrite H2
                   | rewrite Hf3]; cbv beta).
    rewrite T0, T1, (to_bin_bits imm 12) by (simpl; lia). reflexivity.
  - unfold w, i_type_layout.
    change 32%nat with (12 + (5 + (3 + (5 + 7))))%nat.
    repeat apply bit_field_app;
      auto using bit_field_reg, bit_field_imm.
  - intros Hs. unfold w, i_type_layout, Assembler.slice.
    change (Assembler.drop 0 ?x) with x.
    rewrite (take_app_length (12 - 0)) by apply length_imm_bits.
    apply signed_imm_bits; simpl; lia.
Qed.

Lemma i_type_word_witness :
  Assembler.encode ∅ 0 "addi x10, x0, -1"
  = Ok "11111111111100000000010100010011"
  /\ signed_value
       (Assembler.slice 0 12 "11111111111100000000010100010011") = -1.
Proof.
  destruct (i_type_word ∅ 0 "addi"
              [("type", "I"); ("opcode", "0010011"); ("funct3", "000")]
              "0010011" "000" "x10" "x0" "-1" 10 0 (-1))
    as (He & _ & Hd); try (vm_compute; reflexivity); try lia.
  split; [exact He|]. apply Hd. lia.
Defined.

(** X16.  [lui rd, imm] with [imm] in [-2^20, 2^20) encodes to
    imm[19:0] | rd | opcode, 32 binary digits: the operand is the upper
    field as it stands, the encoder shifts nothing. *)
Theorem u_type_word (labels : gmap string Z) (pc : Z) (m : string)
    (op : Assembler.descriptor) (opcode a0 a1 : string) (rd imm : Z) :
  plain m = true ->
  Assembler.lookup_key m Assembler.opcodes = Some op ->
  Assembler.field op "type" = Ok "U" ->
  Assembler.field op "opcode" = Ok opcode ->
  forallb plain [a0; a1] = true ->
  Assembler.parse_reg a0 = Ok rd ->
  Assembler.parse_imm a1 labels pc = Ok imm ->
  - 2 ^ 20 <= imm < 2 ^ 20 ->
  let w := u_type_layout imm rd opcode in
  Assembler.encode labels pc (instruction_text m [a0; a1]) = Ok w
  /\ bit_field 32 w
  /\ (0 <= imm -> bin_value (Assembler.slice 0 20 w) = imm).
Proof.
  intros Hm Hop Hty Hopc Hargs H0 H1 Himm w.
  destruct (instruction_text_tokens_aux m [a0; a1] Hm Hargs)
    as [Htok Hops]; [discriminate|].
  destruct (opcodes_fields m op Hop) as (Bopc & _ & _).
  specialize (Bopc _ Hopc).
  destruct (parse_reg_bits a0 rd H0) as [R0 T0].
  split; [|split].
  - unfold Assembler.encode. cbv zeta. unfold operands_of in Hops.
    rewrite Htok, bind_Ok, Hops, Hop, Hty, bind_Ok. cbv beta.
    rewrite Hopc, bind_Ok. cbv beta.
    change ("U" =? "R")%string with false.
    change ("U" =? "I")%string with false.
    change ("U" =? "I_load")%string with false.
    change ("U" =? "S")%string with false.
    change ("U" =? "B")%string with false.
    change ("U" =? "U")%string with true. cbv iota.
    change (Assembler.item [a0; a1] 0) with (Ok a0).
    change (Assembler.item [a0; a1] 1) with (Ok a1).
    repeat (first [rewrite bind_Ok | rewrite H0 | rewrite H1]; cbv beta).
    rewrite T0, (to_bin_bits imm 20) by (simpl; lia). reflexivity.
  - unfold w, u_type_layout.
    change 32%nat with (20 + (5 + 7))%nat.
    repeat apply bit_field_app;
      auto using bit_field_reg, bit_field_imm.
  - intros Hs. unfold w, u_type_layout, Assembler.slice.
    change (Assembler.drop 0 ?x) with x.
    rewrite (take_app_length (20 - 0)) by apply length_imm_bits.
    rewrite bin_value_imm_bits. simpl (2 ^ Z.of_nat 0).
    rewrite Z.div_1_r. apply Z.mod_small. simpl. lia.
Qed.

Lemma u_type_word_witness :
  Assembler.encode ∅ 0 "lui x1, 0x12345"
  = Ok "00010010001101000101000010110111"
  /\ bin_value (Assembler.slice 0 20 "00010010001101000101000010110111")
     = 0x12345.
Proof.
  destruct (u_type_word ∅ 0 "lui" [("type", "U"); ("opcode", "0110111")]
              "0110111" "x1" "0x12345" 1 0x12345)
    as (He & _ & Hd); try (vm_compute; reflexivity); try (simpl; lia).
  split; [exact He|]. apply Hd. lia.
Defined.

(** ** The assembler: memory operands *)

Lemma contains_app_sep (c : ascii) (a t : string) :
  Assembler.contains c (a +:+ String c t) = true.
Proof.
  induction a as [|d a IH].
  - rewrite app_nil. simpl. now rewrite Ascii.eqb_refl.
  - rewrite app_cons. simpl. destruct (Ascii.eqb d c); [reflexivity|exact IH].
Qed.

Lemma endswith_app_last (c : ascii) (s : string) :
  Assembler.endswith c (s +:+ String c "") = true.
Proof.
  induction s as [|d s IH].
  - rewrite app_nil. simpl. apply Ascii.eqb_refl.
  - rewrite app_cons.
    destruct (s +:+ String c "") as [|e r] eqn:E.
    + destruct s; discriminate E.
    + change (Assembler.endswith c (String d (String e r)))
        with (Assembler.endswith c (String e r)).
      exact IH.
Qed.

Lemma drop_last_app_last (c : ascii) (s : string) :
  Assembler.drop_last (s +:+ String c "") = s.
Proof.
  induction s as [|d s IH].
  - reflexivity.
  - rewrite app_cons.
    destruct (s +:+ String c "") as [|e r] eqn:E.
    + destruct s; discriminate E.
    + change (Assembler.drop_last (String d (String e r)))
        with (String d (Assembler.drop_last (String e r))).
      now rewrite IH.
Qed.

(** A well-formed operand [imm(reg)] is taken apart into its two parts. *)
Lemma memory_operand_parts (imm_part reg_part : string)
    (labels : gmap string Z) (pc : Z) :
  no_paren imm_part = true -> no_paren reg_part = true ->
  Assembler.memory_operand (memory_text imm_part reg_part) labels pc
  = let* imm := Assembler.parse_imm imm_part labels pc in
    let* rs1 := Assembler.parse_reg reg_part in
    Ok (imm, rs1).
Proof.
  intros Hi Hr.
  assert (Hshape : memory_text imm_part reg_part
                   = (imm_part +:+ String "(" reg_part) +:+ String ")" "").
  { unfold memory_text. rewrite app_assoc. reflexivity. }
  assert (Hc : Assembler.contains "(" (memory_text imm_part reg_part) = true).
  { unfold memory_text.
    change (imm_part +:+ "(" +:+ reg_part +:+ ")")
      with (imm_part +:+ String "(" (reg_part +:+ ")")).
    apply contains_app_sep. }
  assert (He : Assembler.endswith ")" (memory_text imm_part reg_part) = true).
  { rewrite Hshape. apply endswith_app_last. }
  assert (Hd : Assembler.drop_last (memory_text imm_part reg_part)
               = imm_part +:+ String "(" reg_part).
  { rewrite Hshape. apply drop_last_app_last. }
  unfold Assembler.memory_operand.
  rewrite Hc, He, Hd. simpl andb. cbv iota.
  rewrite (split_app_sep "(" imm_part reg_part Hi).
  rewrite (split_lacks "(" reg_part Hr). reflexivity.
Qed.

(** X17.  [lw rd, imm(rs1)] with [imm] in [-4096, 4095] encodes to
    imm[11:0] | rs1 | funct3 | rd | opcode, and [sw rs2, imm(rs1)] to
    imm[11:5] | rs2 | rs1 | funct3 | imm[4:0] | opcode: 32 binary digits
    each. *)
Theorem load_store_words (labels : gmap string Z) (pc : Z)
    (a0 imm_part reg_part : string) (r0 rs1 imm : Z) :
  forallb plain [a0; imm_part; reg_part] = true ->
  no_paren imm_part = true -> no_paren reg_part = true ->
  Assembler.parse_reg a0 = Ok r0 ->
  Assembler.parse_imm imm_part labels pc = Ok imm ->
  Assembler.parse_reg reg_part = Ok rs1 ->
  -4096 <= imm < 4096 ->
  Assembler.encode labels pc
    (instruction_text "lw" [a0; memory_text imm_part reg_part])
  = Ok (i_type_layout imm rs1 "010" r0 "0000011")
  /\ bit_field 32 (i_type_layout imm rs1 "010" r0 "0000011")
  /\ Assembler.encode labels pc
       (instruction_text "sw" [a0; memory_text imm_part reg_part])
     = Ok (s_type_layout imm r0 rs1 "010" "0100011")
  /\ bit_field 32 (s_type_layout imm r0 rs1 "010" "0100011").
Proof.
  intros Hargs Hpi Hpr H0 Hi Hr Himm.
  simpl in Hargs.
  apply andb_prop in Hargs as [P0 Hargs].
  apply andb_prop in Hargs as [Pi Hargs].
  apply andb_prop in Hargs as [Pr _].
  assert (Pm : plain (memory_text imm_part reg_part) = true).
  { unfold plain, memory_text in *.
    assert (La : forall a b, lacks (fun c => Assembler.isspace c || Ascii.eqb c ",") a = true ->
                 lacks (fun c => Assembler.isspace c || Ascii.eqb c ",") b = true ->
                 lacks (fun c => Assembler.isspace c || Ascii.eqb c ",") (a +:+ b) = true).
    { intros a b Ha Hb. induction a as [|c a IH]; [exact Hb|].
      rewrite app_cons. simpl in *. apply andb_prop in Ha as [Hc Ha].
      now rewrite Hc, IH. }
    repeat apply La; auto. }
  assert (Hargs2 : forallb plain [a0; memory_text imm_part reg_part] = true).
  { simpl. now rewrite P0, Pm. }
  destruct (parse_reg_bits a0 r0 H0) as [R0 T0].
  destruct (parse_reg_bits reg_part rs1 Hr) as [R1 T1].
  pose proof (memory_operand_parts imm_part reg_part labels pc Hpi Hpr) as Hmem.
  rewrite Hi, bind_Ok, Hr, bind_Ok in Hmem.
  split; [|split; [|split]].
  - destruct (instruction_text_tokens_aux "lw"
                [a0; memory_text imm_part reg_part] eq_refl Hargs2)
      as [Htok Hops]; [discriminate|].
    unfold Assembler.encode. cbv zeta. unfold operands_of in Hops.
    rewrite Htok, bind_Ok, Hops.
    change (Assembler.lookup_key "lw" Assembler.opcodes)
      with (Some [("type", "I_load"); ("opcode", "0000011");
                  ("funct3", "010")]).
    cbv iota.
    change (Assembler.field _ "type") with (Ok "I_load").
    rewrite bind_Ok. cbv beta.
    change (Assembler.field _ "opcode") with (Ok "0000011").
    rewrite bind_Ok. cbv beta.
    change ("I_load" =? "R")%string with false.
    change ("I_load" =? "I")%string with false.
    change ("I_load" =? "I_load")%string with true. cbv iota.
    change (Assembler.item [a0; memory_text imm_part reg_part] 0)
      with (Ok a0).
    change (Assembler.item [a0; memory_text imm_part reg_part] 1)
      with (Ok (memory_text imm_part reg_part)).
    repeat (first [rewrite bind_Ok | rewrite H0 | rewrite Hmem]; cbv beta).
    change (Assembler.field _ "funct3") with (Ok "010").
    rewrite bind_Ok. cbv beta. simpl fst. simpl snd.
    rewrite T0, T1, (to_bin_bits imm 12) by (simpl; lia). reflexivity.
  - unfold i_type_layout.
    change 32%nat with (12 + (5 + (3 + (5 + 7))))%nat.
    repeat apply bit_field_app;
      auto using bit_field_reg, bit_field_imm; split; reflexivity.
  - destruct (instruction_text_tokens_aux "sw"
                [a0; memory_text imm_part reg_part] eq_refl Hargs2)
      as [Htok Hops]; [discriminate|].
    unfold Assembler.encode. cbv zeta. unfold operands_of in Hops.
    rewrite Htok, bind_Ok, Hops.
    change (Assembler.lookup_key "sw" Assembler.opcodes)
      with (Some [("type", "S"); ("opcode", "0100011"); ("funct3", "010")]).
    cbv iota.
    change (Assembler.field _ "type") with (Ok "S").
    rewrite bind_Ok. cbv beta.
    change (Assembler.field _ "opcode") with (Ok "0100011").
    rewrite bind_Ok. cbv beta.
    change ("S" =? "R")%string with false.
    change ("S" =? "I")%string with false.
    change ("S" =? "I_load")%string with false.
    change ("S" =? "S")%string with true. cbv iota.
    change (Assembler.item [a0; memory_text imm_part reg_part] 0)
      with (Ok a0).
    change (Assembler.item [a0; memory_text imm_part reg_part] 1)
      with (Ok (memory_text imm_part reg_part)).
    repeat (first [rewrite bind_Ok | rewrite H0 | rewrite Hmem]; cbv beta).
    change (Assembler.field _ "funct3") with (Ok "010").
    rewrite bind_Ok. cbv beta. simpl fst. simpl snd.
    rewrite T0, T1, (to_bin_bits imm 12) by (simpl; lia).
    change 12%nat with (7 + 5)%nat. rewrite imm_bits_split.
    rewrite (take_app_length 7), (drop_app_length 7)
      by apply length_imm_bits.
    reflexivity.
  - unfold s_type_layout.
    change 32%nat with (7 + (5 + (5 + (3 + (5 + 7)))))%nat.
    repeat apply bit_field_app;
      auto using bit_field_reg, bit_field_imm; split; reflexivity.
Qed.

Lemma load_store_words_witness :
  Assembler.encode ∅ 0 "lw x4, 212(x1)"
  = Ok "00001101010000001010001000000011"
  /\ Assembler.encode ∅ 0 "sw x4, 212(x1)"
     = Ok "00001100010000001010101000100011".
Proof.
  destruct (load_store_words ∅ 0 "x4" "212" "x1" 4 1 212)
    as (Hl & _ & Hs & _); try (vm_compute; reflexivity); try lia.
  split; [exact Hl|exact Hs].
Defined.

(** ** The assembler: branches and jumps *)

Lemma char_at_app (a : string) :
  forall (n : nat) (b t : string),
    String.length a = n -> String.length b = 1%nat ->
    Assembler.char_at (a +:+ b +:+ t) n = Ok b.
Proof.
  induction a as [|d a IH]; intros n b t Hn Hb; simpl in Hn; subst n.
  - rewrite app_nil. destruct b as [|c [|]]; try discriminate Hb.
    reflexivity.
  - rewrite app_cons. unfold Assembler.char_at. simpl String.get.
    exact (IH (String.length a) b t eq_refl Hb).
Qed.

Lemma char_at_head (b t : string) :
  String.length b = 1%nat -> Assembler.char_at (b +:+ t) 0 = Ok b.
Proof. intros Hb. exact (char_at_app "" 0 b t eq_refl Hb). Qed.

(** Bits 1 and up of a number do not depend on its bit 0. *)
Lemma imm_bits_above_bit_0 (v : Z) (lo n : nat) :
  (1 <= lo)%nat -> imm_bits (2 * (v / 2)) lo n = imm_bits v lo n.
Proof.
  intros Hlo. induction n as [|n IH]; [reflexivity|].
  simpl imm_bits. rewrite IH. f_equal. unfold imm_bit.
  replace (2 * (v / 2)) with (Z.shiftl (Z.shiftr v 1) 1).
  - rewrite Z.shiftl_spec, Z.shiftr_spec by lia.
    now replace (Z.of_nat (lo + n) - 1 + 1) with (Z.of_nat (lo + n)) by lia.
  - rewrite Z.shiftl_mul_pow2, Z.shiftr_div_pow2 by lia.
    change (2 ^ 1) with 2. lia.
Qed.

(** X18.  A branch [op rs1, rs2, target] whose displacement lies in
    [-8192, 8191] encodes to
    imm[12] | imm[10:5] | rs2 | rs1 | funct3 | imm[4:1] | imm[11] | opcode,
    32 binary digits.  Bit 0 of the displacement is in no field: an odd
    displacement encodes like the even one below it, without an error. *)
Theorem b_type_word (labels : gmap string Z) (pc : Z) (m : string)
    (op : Assembler.descriptor) (opcode funct3 a0 a1 a2 : string)
    (rs1 rs2 imm : Z) :
  plain m = true ->
  Assembler.lookup_key m Assembler.opcodes = Some op ->
  Assembler.field op "type" = Ok "B" ->
  Assembler.field op "opcode" = Ok opcode ->
  Assembler.field op "funct3" = Ok funct3 ->
  forallb plain [a0; a1; a2] = true ->
  Assembler.parse_reg a0 = Ok rs1 ->
  Assembler.parse_reg a1 = Ok rs2 ->
  Assembler.parse_imm a2 labels pc = Ok imm ->
  -8192 <= imm < 8192 ->
  let w := b_type_layout imm rs2 rs1 funct3 opcode in
  Assembler.encode labels pc (instruction_text m [a0; a1; a2]) = Ok w
  /\ bit_field 32 w
  /\ w = b_type_layout (2 * (imm / 2)) rs2 rs1 funct3 opcode.
Proof.
  intros Hm Hop Hty Hopc Hf3 Hargs H0 H1 H2 Himm w.
  destruct (instruction_text_tokens_aux m [a0; a1; a2] Hm Hargs)
    as [Htok Hops]; [discriminate|].
  destruct (opcodes_fields m op Hop) as (Bopc & Bf3 & _).
  specialize (Bopc _ Hopc). specialize (Bf3 _ Hf3).
  destruct (parse_reg_bits a0 rs1 H0) as [R0 T0].
  destruct (parse_reg_bits a1 rs2 H1) as [R1 T1].
  split; [|split].
  - unfold Assembler.encode. cbv zeta. unfold operands_of in Hops.
    rewrite Htok, bind_Ok, Hops, Hop, Hty, bind_Ok. cbv beta.
    rewrite Hopc, bind_Ok. cbv beta.
    change ("B" =? "R")%string with false.
    change ("B" =? "I")%string with false.
    change ("B" =? "I_load")%string with false.
    change ("B" =? "S")%string with false.
    change ("B" =? "B")%string with true. cbv iota.
    change (Assembler.item [a0; a1; a2] 0) with (Ok a0).
    change (Assembler.item [a0; a1; a2] 1) with (Ok a1).
    change (Assembler.item [a0; a1; a2] 2) with (Ok a2).
    repeat (first [rewrite bind_Ok | rewrite H0 | rewrite H1 | rewrite H2
                   | rewrite Hf3]; cbv beta).
    rewrite T0, T1, (to_bin_bits imm 13) by (simpl; lia).
    pose proof (imm_bits_split imm 0 1 12) as S1. cbn [Nat.add] in S1.
    pose proof (imm_bits_split imm 0 1 11) as S2. cbn [Nat.add] in S2.
    pose proof (imm_bits_split imm 0 6 5) as S3. cbn [Nat.add] in S3.
    pose proof (imm_bits_split imm 0 4 1) as S4. cbn [Nat.add] in S4.
    rewrite S1, S2, S3, S4.
    rewrite (char_at_head (imm_bits imm 12 1)), bind_Ok
      by apply length_imm_bits.
    cbv beta.
    rewrite (char_at_app (imm_bits imm 12 1) 1 (imm_bits imm 11 1)), bind_Ok
      by apply length_imm_bits.
    cbv beta. unfold Assembler.slice.
    change (Assembler.drop 2) with (Assembler.drop (1 + 1)).
    change (Assembler.drop 8) with (Assembler.drop (1 + (1 + 6))).
    rewrite !(drop_app_plus 1) by apply length_imm_bits.
    rewrite (drop_app_length 6) by apply length_imm_bits.
    change (Assembler.drop 0 ?x) with x.
    rewrite (take_app_length (8 - 2)), (take_app_length (12 - 8))
      by apply length_imm_bits.
    unfold w, b_type_layout, reg_field. rewrite ?app_assoc. reflexivity.
  - unfold w, b_type_layout.
    change 32%nat with (1 + (6 + (5 + (5 + (3 + (4 + (1 + 7)))))))%nat.
    repeat apply bit_field_app;
      auto using bit_field_reg, bit_field_imm.
  - unfold w, b_type_layout.
    now rewrite !imm_bits_above_bit_0 by lia.
Qed.

Lemma b_type_word_witness :
  Assembler.encode {[ "skip_0" := 24 ]} 16 "blt x3, x7, skip_0"
  = Ok "00000000011100011100010001100011".
Proof.
  destruct (b_type_word {[ "skip_0" := 24 ]} 16 "blt"
              [("type", "B"); ("opcode", "1100011"); ("funct3", "100")]
              "1100011" "100" "x3" "x7" "skip_0" 3 7 8)
    as (He & _ & _);
    [first [vm_compute; reflexivity | lia] .. | exact He].
Defined.

(** X19.  [jal rd, target] whose displacement lies in [-2^21, 2^21)
    encodes to imm[20] | imm[10:1] | imm[11] | imm[19:12] | rd | opcode,
    32 binary digits; bit 0 of the displacement is in no field. *)
Theorem j_type_word (labels : gmap string Z) (pc : Z) (m : string)
    (op : Assembler.descriptor) (opcode a0 a1 : string) (rd imm : Z) :
  plain m = true ->
  Assembler.lookup_key m Assembler.opcodes = Some op ->
  Assembler.field op "type" = Ok "J" ->
  Assembler.field op "opcode" = Ok opcode ->
  forallb plain [a0; a1] = true ->
  Assembler.parse_reg a0 = Ok rd ->
  Assembler.parse_imm a1 labels pc = Ok imm ->
  - 2 ^ 21 <= imm < 2 ^ 21 ->
  let w := j_type_layout imm rd opcode in
  Assembler.encode labels pc (instruction_text m [a0; a1]) = Ok w
  /\ bit_field 32 w
  /\ w = j_type_layout (2 * (imm / 2)) rd opcode.
Proof.
  intros Hm Hop Hty Hopc Hargs H0 H1 Himm w.
  destruct (instruction_text_tokens_aux m [a0; a1] Hm Hargs)
    as [Htok Hops]; [discriminate|].
  destruct (opcodes_fields m op Hop) as (Bopc & _ & _).
  specialize (Bopc _ Hopc).
  destruct (parse_reg_bits a0 rd H0) as [R0 T0].
  split; [|split].
  - unfold Assembler.encode. cbv zeta. unfold operands_of in Hops.
    rewrite Htok, bind_Ok, Hops, Hop, Hty, bind_Ok. cbv beta.
    rewrite Hopc, bind_Ok. cbv beta.
    change ("J" =? "R")%string with false.
    change ("J" =? "I")%string with false.
    change ("J" =? "I_load")%string with false.
    change ("J" =? "S")%string with false.
    change ("J" =? "B")%string with false.
    change ("J" =? "U")%string with false.
    change ("J" =? "J")%string with true. cbv iota.
    change (Assembler.item [a0; a1] 0) with (Ok a0).
    change (Assembler.item [a0; a1] 1) with (Ok a1).
    repeat (first [rewrite bind_Ok | rewrite H0 | rewrite H1]; cbv beta).
    rewrite T0, (to_bin_bits imm 21) by (simpl; lia).
    pose proof (imm_bits_split imm 0 1 20) as S1. cbn [Nat.add] in S1.
    pose proof (imm_bits_split imm 0 8 12) as S2. cbn [Nat.add] in S2.
    pose proof (imm_bits_split imm 0 1 11) as S3. cbn [Nat.add] in S3.
    pose proof (imm_bits_split imm 0 10 1) as S4. cbn [Nat.add] in S4.
    rewrite S1, S2, S3, S4.
    rewrite (char_at_head (imm_bits imm 20 1)), bind_Ok
      by apply length_imm_bits.
    cbv beta.
    rewrite <- (app_assoc (imm_bits imm 20 1) (imm_bits imm 12 8)).
    rewrite (char_at_app (imm_bits imm 20 1 +:+ imm_bits imm 12 8) 9
               (imm_bits imm 11 1)), bind_Ok
      by (rewrite ?length_app; rewrite ?length_imm_bits; reflexivity).
    cbv beta. rewrite app_assoc. unfold Assembler.slice.
    change (Assembler.drop 10) with (Assembler.drop (1 + (8 + 1))).
    rewrite (drop_app_length 1) by apply length_imm_bits.
    rewrite (drop_app_plus 1), (drop_app_plus 8)
      by apply length_imm_bits.
    rewrite (drop_app_length 1) by apply length_imm_bits.
    rewrite (take_app_length (9 - 1)), (take_app_length (20 - 10))
      by apply length_imm_bits.
    unfold w, j_type_layout, reg_field. rewrite ?app_assoc. reflexivity.
  - unfold w, j_type_layout.
    change 32%nat with (1 + (10 + (1 + (8 + (5 + 7)))))%nat.
    repeat apply bit_field_app;
      auto using bit_field_reg, bit_field_imm.
  - unfold w, j_type_layout.
    now rewrite !imm_bits_above_bit_0 by lia.
Qed.

Lemma j_type_word_witness :
  Assembler.encode {[ "end" := 0 ]} 8 "jal x0, end"
  = Ok "11111111100111111111000001101111".
Proof.
  destruct (j_type_word {[ "end" := 0 ]} 8 "jal"
              [("type", "J"); ("opcode", "1101111")]
              "1101111" "x0" "end" 0 (-8))
    as (He & _ & _);
    [first [vm_compute; reflexivity | simpl; lia] .. | exact He].
Defined.

(** ** The assembler: what pass 1 keeps *)

(** One line of pass 1 leaves the state as it is, or records a label, or
    queues a non-empty text, or does both. *)
Lemma pass1_line_cases (st : Assembler.pass1) (line : string) :
  exists mid st',
    Assembler.pass1_line st line = Ok st'
    /\ (mid = st \/ exists n, mid = Assembler.set_label n st)
    /\ (st' = mid \/ exists l, l <> "" /\ st' = Assembler.queue l mid).
Proof.
  unfold Assembler.pass1_line.
  destruct (split_cons "#" line) as (h & t & ->). simpl.
  destruct (String.eqb_spec (Assembler.strip h) "") as [E|E].
  { exists st, st. eauto. }
  destruct (Assembler.endswith ":" (Assembler.strip h)).
  { eexists _, _. split; [reflexivity|]. eauto. }
  destruct (Assembler.contains ":" (Assembler.strip h)) eqn:Hc.
  - destruct (split_contains _ _ Hc) as (h1 & h2 & t' & ->). simpl.
    destruct (String.eqb_spec (Assembler.strip h2) "") as [E2|E2].
    + eexists _, _. split; [reflexivity|]. eauto.
    + eexists _, _. split; [reflexivity|]. split; [right; eauto|].
      right. eauto.
  - exists st. eexists. split; [reflexivity|]. split; [auto|].
    right. eauto.
Qed.

Lemma pass1_ok_set_label (n : string) (st : Assembler.pass1) :
  pass1_ok st -> pass1_ok (Assembler.set_label n st).
Proof.
  intros (Hpc & Hq & Hl). unfold pass1_ok. simpl.
  split; [exact Hpc|]. split; [exact Hq|].
  apply map_Forall_insert_2; [|exact Hl].
  rewrite Hpc. split; [lia|]. rewrite Z.mul_comm. apply Z.mod_mul. lia.
Qed.

Lemma pass1_ok_queue (l : string) (st : Assembler.pass1) :
  l <> "" -> pass1_ok st -> pass1_ok (Assembler.queue l st).
Proof.
  intros Hne (Hpc & Hq & Hl). unfold pass1_ok. simpl.
  split; [rewrite List.length_app; simpl; lia|]. split.
  - intros i a l' Hi.
    apply lookup_app_Some in Hi as [Hi|[Hge Hi]]; [now apply Hq|].
    destruct (i - length (Assembler.instructions st))%nat as [|k] eqn:Ek;
      [|destruct k; discriminate Hi].
    injection Hi as <- <-. split; [|exact Hne]. rewrite Hpc. f_equal. lia.
  - apply (map_Forall_impl _ _ _ Hl). intros k t [Ht H4]. split; [lia|exact H4].
Qed.

(** X20.  After pass 1 the queued lines sit at the addresses
    0, 4, 8, ... in program order, none of them empty; the address
    counter is four times their number; and every label of the table
    points at a multiple of 4 between 0 and the end of the program. *)
Theorem pass1_addresses (lines : list string) (st : Assembler.pass1) :
  Assembler.pass1_lines Assembler.pass1_init lines = Ok st ->
  pass1_ok st
  /\ (length (Assembler.instructions st) <= length lines)%nat.
Proof.
  assert (H : forall s s',
             pass1_ok s -> Assembler.pass1_lines s lines = Ok s' ->
             pass1_ok s'
             /\ (length (Assembler.instructions s')
                 <= length (Assembler.instructions s) + length lines)%nat).
  { induction lines as [|line lines IH]; simpl; intros s s' Hs Hrun.
    - injection Hrun as <-. split; [exact Hs|lia].
    - destruct (pass1_line_cases s line) as (mid & s1 & He & Hmid & Hs1).
      rewrite He in Hrun. simpl in Hrun.
      assert (Hmid_ok : pass1_ok mid
                        /\ Assembler.instructions mid
                           = Assembler.instructions s).
      { destruct Hmid as [->|(n & ->)]; [auto|].
        split; [now apply pass1_ok_set_label|reflexivity]. }
      destruct Hmid_ok as [Hmok Hmi].
      assert (Hs1_ok : pass1_ok s1
                       /\ (length (Assembler.instructions s1)
                           <= S (length (Assembler.instructions s)))%nat).
      { destruct Hs1 as [->|(l & Hne & ->)].
        - split; [exact Hmok|rewrite Hmi; lia].
        - split; [now apply pass1_ok_queue|].
          simpl. rewrite List.length_app, Hmi. simpl. lia. }
      destruct Hs1_ok as [Hok1 Hlen1].
      destruct (IH s1 s' Hok1 Hrun) as [Hok' Hlen'].
      split; [exact Hok'|lia]. }
  intros Hrun. apply (H Assembler.pass1_init st); [|exact Hrun].
  unfold pass1_ok. simpl. split; [reflexivity|].
  split; [intros i a l Hi; discriminate Hi|apply map_Forall_empty].
Qed.

Lemma pass1_addresses_witness :
  exists st,
    Assembler.pass1_lines Assembler.pass1_init loop_sum = Ok st
    /\ Assembler.pc st = 24
    /\ pass1_ok st.
Proof.
  eexists. split; [vm_compute; reflexivity|]. split; [reflexivity|].
  apply (pass1_addresses loop_sum). vm_compute. reflexivity.
Defined.

(** ** The assembler: comments and blank lines *)

Lemma pass1_line_code (st : Assembler.pass1) (l l' : string) :
  code_of l = code_of l' ->
  Assembler.pass1_line st l = Assembler.pass1_line st l'.
Proof.
  unfold code_of, Assembler.pass1_line.
  destruct (split_cons "#" l) as (h & t & ->).
  destruct (split_cons "#" l') as (h' & t' & ->).
  simpl. intros ->. reflexivity.
Qed.

Lemma pass1_lines_code (lines : list string) :
  forall lines' st,
    Forall2 (fun l l' => code_of l = code_of l') lines lines' ->
    Assembler.pass1_lines st lines = Assembler.pass1_lines st lines'.
Proof.
  induction lines as [|l lines IH]; intros lines' st H;
    inversion H as [|? l' ? lines'' Hl Hrest]; subst; [reflexivity|].
  simpl. rewrite (pass1_line_code st l l' Hl).
  destruct (Assembler.pass1_line st l') as [e|s1]; [reflexivity|].
  simpl. now apply IH.
Qed.

(** X21.  The output depends on a line only through its text before the
    comment sign, stripped: two programs whose lines agree on that
    assemble alike, and a blank or comment-only line can be dropped or
    added anywhere. *)
Theorem comments_and_blank_lines (lines lines' pre post : list string)
    (blank : string) :
  Forall2 (fun l l' => code_of l = code_of l') lines lines' ->
  code_of blank = "" ->
  Assembler.assemble lines = Assembler.assemble lines'
  /\ Assembler.assemble (pre ++ blank :: post)
     = Assembler.assemble (pre ++ post).
Proof.
  intros H Hb. split.
  - unfold Assembler.assemble. now rewrite (pass1_lines_code lines lines').
  - unfold Assembler.assemble. rewrite !pass1_lines_app.
    destruct (Assembler.pass1_lines Assembler.pass1_init pre) as [e|s1];
      [reflexivity|].
    simpl.
    assert (Hl : Assembler.pass1_line s1 blank = Ok s1).
    { unfold Assembler.pass1_line. unfold code_of in Hb.
      destruct (split_cons "#" blank) as (h & t & E). rewrite E in *.
      simpl in *. rewrite Hb. reflexivity. }
    rewrite Hl. reflexivity.
Qed.

Lemma comments_and_blank_lines_witness :
  Assembler.assemble ["addi x1, x0, 10"; ""]
  = Assembler.assemble ["  addi x1, x0, 10   # ten"; "# only a comment"]
  /\ Assembler.assemble (["addi x1, x0, 10"] ++ "  # nothing here" :: [""])
     = Assembler.assemble (["addi x1, x0, 10"] ++ [""]).
Proof.
  apply (comments_and_blank_lines
           ["addi x1, x0, 10"; ""]
           ["  addi x1, x0, 10   # ten"; "# only a comment"]
           ["addi x1, x0, 10"] [""] "  # nothing here").
  - repeat constructor.
  - reflexivity.
Defined.

(** ** The generators and the assembler: numbers as text *)

Ltac digit_step :=
  change (Ascii.eqb _ "_") with false; cbv iota;
  match goal with
  | |- context [Assembler.digit_value ?c] =>
      let v := eval vm_compute in (Assembler.digit_value c) in
      change (Assembler.digit_value c) with v
  end; cbv iota beta;
  match goal with
  | |- context [?a <? 10] => change (a <? 10) with true
  end; cbv iota.

Lemma digits_of_uint (d : Decimal.uint) (acc : positive) :
  Assembler.digits 10 (NilEmpty.string_of_uint d) false (Z.pos acc)
  = Some (Z.pos (Pos.of_uint_acc d acc)).
Proof.
  revert acc. induction d; intros acc; [reflexivity|..];
    cbn [NilEmpty.string_of_uint Assembler.digits Pos.of_uint_acc];
    digit_step;
    match goal with
    | |- Assembler.digits 10 _ false ?x
         = Some (Z.pos (Pos.of_uint_acc _ ?a)) =>
        replace x with (Z.pos a) by lia; apply IHd
    end.
Qed.

Lemma nzhead_leading (d : Decimal.uint) :
  Decimal.nzhead d = Decimal.Nil \/ leading (Decimal.nzhead d) = true.
Proof. induction d; simpl; auto. Qed.

Lemma to_uint_leading (p : positive) : leading (Pos.to_uint p) = true.
Proof.
  pose proof (DecimalPos.Unsigned.to_of (Pos.to_uint p)) as H.
  rewrite DecimalPos.Unsigned.of_to in H. simpl in H.
  pose proof (Unsigned.to_uint_nonzero p) as Hz.
  rewrite H in Hz |- *. unfold Decimal.unorm in *.
  destruct (nzhead_leading (Pos.to_uint p)) as [E|E].
  - rewrite E in Hz. now contradiction Hz.
  - destruct (Decimal.nzhead (Pos.to_uint p)); try discriminate E; reflexivity.
Qed.

Lemma digit_count_nonneg (s : string) : 0 <= Assembler.digit_count s.
Proof.
  induction s as [|c s IH]; simpl; [lia|].
  destruct (Ascii.eqb c "_"); lia.
Qed.

(** The digits read after [acc]: the value lies between [acc] and
    [acc + 1], each followed by as many zeros as there are digits. *)
Lemma of_uint_acc_bounds (l : Decimal.uint) :
  forall acc : positive,
    Z.pos acc * 10 ^ Assembler.digit_count (NilEmpty.string_of_uint l)
    <= Z.pos (Pos.of_uint_acc l acc)
    < (Z.pos acc + 1)
      * 10 ^ Assembler.digit_count (NilEmpty.string_of_uint l).
Proof.
  induction l; intros acc;
    cbn [NilEmpty.string_of_uint Assembler.digit_count Pos.of_uint_acc];
    [simpl; lia|..];
    change (Ascii.eqb _ "_") with false; cbv iota;
    pose proof (digit_count_nonneg (NilEmpty.string_of_uint l)) as Hn;
    rewrite Z.pow_add_r by lia; change (10 ^ 1) with 10;
    assert (Hp : 0 < 10 ^ Assembler.digit_count (NilEmpty.string_of_uint l))
      by (apply Z.pow_pos_nonneg; lia);
    match goal with
    | |- _ <= Z.pos (Pos.of_uint_acc l ?a) < _ =>
        specialize (IHl a); revert IHl Hp;
        generalize (10 ^ Assembler.digit_count (NilEmpty.string_of_uint l));
        generalize (Z.pos (Pos.of_uint_acc l a))
    end;
    intros v P IH HP; nia.
Qed.

(** A number of [n] digits without a leading zero lies in
    [10^(n-1), 10^n). *)
Lemma to_uint_digits (p : positive) :
  10 ^ (Assembler.digit_count (NilEmpty.string_of_uint (Pos.to_uint p)) - 1)
  <= Z.pos p
  < 10 ^ Assembler.digit_count (NilEmpty.string_of_uint (Pos.to_uint p)).
Proof.
  pose proof (to_uint_leading p) as Hl.
  pose proof (DecimalPos.Unsigned.of_to p) as Hv.
  destruct (Pos.to_uint p) as [|l|l|l|l|l|l|l|l|l|l]; try discriminate Hl;
    cbn [Pos.of_uint] in Hv; injection Hv as Hv; rewrite <- Hv;
    cbn [NilEmpty.string_of_uint Assembler.digit_count];
    change (Ascii.eqb _ "_") with false; cbv iota;
    pose proof (digit_count_nonneg (NilEmpty.string_of_uint l)) as Hn;
    rewrite Z.pow_add_r by lia; change (10 ^ 1) with 10;
    replace (1 + Assembler.digit_count (NilEmpty.string_of_uint l) - 1)
      with (Assembler.digit_count (NilEmpty.string_of_uint l)) by lia;
    assert (Hp : 0 < 10 ^ Assembler.digit_count (NilEmpty.string_of_uint l))
      by (apply Z.pow_pos_nonneg; lia);
    match goal with
    | |- _ <= Z.pos (Pos.of_uint_acc l ?a) < _ =>
        pose proof (of_uint_acc_bounds l a) as Hb; revert Hb Hp;
        generalize (10 ^ Assembler.digit_count (NilEmpty.string_of_uint l));
        generalize (Z.pos (Pos.of_uint_acc l a))
    end;
    intros v P Hb HP; nia.
Qed.

Lemma limit_pos : 0 < 10 ^ 4300.
Proof. apply Z.pow_pos_nonneg; [reflexivity|discriminate]. Qed.

(** The digit limit, as a bound on the number. *)
Lemma digit_limit (p : positive) :
  (4300
   <? Assembler.digit_count (NilEmpty.string_of_uint (Pos.to_uint p)))
  = negb (Z.pos p <? 10 ^ 4300).
Proof.
  pose proof (to_uint_digits p) as [Hlo Hhi].
  revert Hlo Hhi.
  generalize (Assembler.digit_count (NilEmpty.string_of_uint (Pos.to_uint p))).
  intros n Hlo Hhi.
  assert (Hup : 4300 < n -> 10 ^ 4300 <= 10 ^ (n - 1))
    by (clear; intros Hn; apply Z.pow_le_mono_r; lia).
  assert (Hdown : n <= 4300 -> 10 ^ n <= 10 ^ 4300).
  { clear. intros Hn. destruct (Z.le_gt_cases 0 n) as [Hn0|Hn0].
    - apply Z.pow_le_mono_r; lia.
    - rewrite (Z.pow_neg_r 10 n) by lia. apply Z.lt_le_incl, limit_pos. }
  revert Hlo Hhi Hup Hdown.
  generalize (10 ^ 4300), (10 ^ (n - 1)), (10 ^ n).
  intros L A B Hlo Hhi Hup Hdown.
  destruct (Z.ltb_spec 4300 n) as [Hn|Hn];
    destruct (Z.ltb_spec (Z.pos p) L) as [Hp|Hp];
    try reflexivity; exfalso; lia.
Qed.

Lemma unsigned_literal_of_uint (d : Decimal.uint) :
  leading d = true ->
  Assembler.unsigned_literal (NilZero.string_of_uint d)
  = if 4300 <? Assembler.digit_count (NilEmpty.string_of_uint d) then None
    else Some (Z.of_N (Pos.of_uint d)).
Proof.
  destruct d; try discriminate; intros _;
    cbn [NilZero.string_of_uint NilEmpty.string_of_uint
         Assembler.unsigned_literal];
    unfold Assembler.decimal_literal;
    destruct (4300 <? _); try reflexivity;
    cbn [Assembler.digits Pos.of_uint];
    digit_step; apply digits_of_uint.
Qed.

Lemma all_digits_of_uint (d : Decimal.uint) :
  all_digits (NilEmpty.string_of_uint d) = true.
Proof. induction d; simpl; auto. Qed.

Lemma decimal_text_py_str (z : Z) : decimal_text (py_str z) = true.
Proof.
  destruct z as [|p|p]; [reflexivity|..]; unfold py_str; simpl;
    pose proof (to_uint_leading p) as H;
    pose proof (all_digits_of_uint (Pos.to_uint p)) as Ha;
    destruct (Pos.to_uint p); try discriminate H; exact Ha.
Qed.

Lemma lacks_all_digits (p : ascii -> bool) (s : string) :
  (forall c, is_digit c = true -> p c = false) ->
  all_digits s = true -> lacks p s = true.
Proof.
  intros Hp. induction s as [|c s IH]; simpl; [reflexivity|].
  intros H. apply andb_prop in H as [Hc Hs].
  now rewrite (Hp c Hc), (IH Hs).
Qed.

Lemma lacks_decimal_text (p : ascii -> bool) (s : string) :
  (forall c, is_digit c = true -> p c = false) -> p "-"%char = false ->
  decimal_text s = true -> lacks p s = true.
Proof.
  intros Hp Hm. destruct s as [|c s]; [reflexivity|].
  destruct (Ascii.eqb_spec c "-") as [->|Hc].
  - simpl. intros H. now rewrite Hm, (lacks_all_digits p s Hp H).
  - intros H. apply (lacks_all_digits p _ Hp).
    revert H. unfold decimal_text.
    destruct c as [[] [] [] [] [] [] [] []]; try exact (fun H => H).
    now contradiction Hc.
Qed.

Lemma digit_cases (p : ascii -> bool) :
  forallb (fun c => negb (p c))
    ["0"; "1"; "2"; "3"; "4"; "5"; "6"; "7"; "8"; "9"]%char = true ->
  forall c, is_digit c = true -> p c = false.
Proof.
  intros H c Hc.
  destruct c as [[] [] [] [] [] [] [] []]; try discriminate Hc;
    simpl in H; repeat (apply andb_prop in H as [? H]);
    now apply negb_true_iff.
Qed.

Lemma plain_decimal_text (s : string) : decimal_text s = true -> plain s = true.
Proof. apply lacks_decimal_text; [now apply digit_cases|reflexivity]. Qed.

Lemma remove_lacks (c : ascii) (s : string) :
  lacks (fun d => Ascii.eqb d c) s = true -> Assembler.remove c s = s.
Proof.
  induction s as [|d s IH]; simpl; [reflexivity|].
  intros H. apply andb_prop in H as [Hd Hs].
  destruct (Ascii.eqb d c); [discriminate|]. now rewrite IH.
Qed.

(** [int(s, 0)] on the decimal text of an integer: the integer, as long
    as the text has at most 4300 digits. *)
Lemma int0_decimal (z : Z) :
  Assembler.int0 (py_str z)
  = if Z.abs z <? 10 ^ 4300 then Some z else None.
Proof.
  unfold Assembler.int0.
  rewrite (strip_lacks Assembler.c_isspace)
    by (apply lacks_decimal_text;
        [now apply digit_cases|reflexivity|apply decimal_text_py_str]).
  destruct z as [|p|p].
  - pose proof limit_pos as Hpos.
    destruct (Z.ltb_spec (Z.abs 0) (10 ^ 4300)) as [_|H]; [reflexivity|].
    exfalso. revert H Hpos. generalize (10 ^ 4300). simpl. lia.
  - unfold py_str. cbn [Z.to_int NilZero.string_of_int].
    pose proof (to_uint_leading p) as Hl.
    pose proof (unsigned_literal_of_uint _ Hl) as Hu.
    rewrite DecimalPos.Unsigned.of_to, digit_limit in Hu.
    assert (E : match NilZero.string_of_uint (Pos.to_uint p) with
                | String "+" r => Assembler.unsigned_literal r
                | String "-" r => Z.opp <$> Assembler.unsigned_literal r
                | r => Assembler.unsigned_literal r
                end
                = Assembler.unsigned_literal
                    (NilZero.string_of_uint (Pos.to_uint p)))
      by (destruct (Pos.to_uint p); try discriminate Hl; reflexivity).
    rewrite E, Hu. change (Z.abs (Z.pos p)) with (Z.pos p).
    now destruct (Z.pos p <? 10 ^ 4300).
  - unfold py_str. cbn [Z.to_int NilZero.string_of_int].
    pose proof (to_uint_leading p) as Hl.
    pose proof (unsigned_literal_of_uint _ Hl) as Hu.
    rewrite DecimalPos.Unsigned.of_to, digit_limit in Hu.
    rewrite Hu. change (Z.abs (Z.neg p)) with (Z.pos p).
    now destruct (Z.pos p <? 10 ^ 4300).
Qed.

Lemma int0_py_str (z : Z) :
  Z.abs z < 10 ^ 4300 -> Assembler.int0 (py_str z) = Some z.
Proof.
  intros H. rewrite int0_decimal.
  destruct (Z.ltb_spec (Z.abs z) (10 ^ 4300)) as [_|H']; [reflexivity|].
  exfalso. revert H H'. generalize (10 ^ 4300). lia.
Qed.

(** The values the generators write are far below the limit. *)
Lemma below_limit (z : Z) : -4096 <= z <= 4096 -> Z.abs z < 10 ^ 4300.
Proof.
  intros H. assert (H4 : 10 ^ 4 <= 10 ^ 4300) by (apply Z.pow_le_mono_r; lia).
  change (10 ^ 4) with 10000 in H4.
  revert H4. generalize (10 ^ 4300). lia.
Qed.

Lemma py_str_inj (a b : Z) : py_str a = py_str b -> a = b.
Proof.
  unfold py_str. intros E. apply DecimalZ.to_int_inj.
  assert (H : forall z, NilZero.int_of_string
                          (NilZero.string_of_int (Z.to_int z))
                        = Some (Z.to_int z)).
  { intros z. apply NilZero.isi; destruct z as [|p|p]; simpl;
      try discriminate; intros E'; injection E' as E';
      now apply (Unsigned.to_uint_nonnil p). }
  pose proof (H a) as Ha. rewrite E, H in Ha. now injection Ha.
Qed.

Lemma clean_token (s : string) :
  plain s = true -> Assembler.remove "," (Assembler.strip s) = s.
Proof.
  intros H. unfold Assembler.strip.
  rewrite (strip_lacks _ s (plain_no_space s H)).
  apply remove_lacks, plain_no_comma, H.
Qed.

(** X22.  The decimal text of an integer of at most 4300 digits, which is
    what an f-string writes for it, is read back by [int(s, 0)] as that
    integer; longer decimal text is refused.  As an immediate the text
    yields the integer too, or the invalid-immediate error beyond the
    limit, unless a label is spelled like the number, which then takes
    precedence and yields its distance from the instruction. *)
Theorem py_str_read_back (z : Z) (labels : gmap string Z) (pc : Z) :
  Assembler.int0 (py_str z) = (if Z.abs z <? 10 ^ 4300 then Some z else None)
  /\ Assembler.parse_imm (py_str z) labels pc
     = match labels !! py_str z with
       | Some target => Ok (target - pc)
       | None =>
           if Z.abs z <? 10 ^ 4300 then Ok z
           else Raise (ValueError ("Invalid immediate: " +:+ py_str z))
       end.
Proof.
  split; [apply int0_decimal|].
  unfold Assembler.parse_imm.
  rewrite (clean_token (py_str z))
    by apply plain_decimal_text, decimal_text_py_str.
  destruct (labels !! py_str z); [reflexivity|].
  rewrite int0_decimal. now destruct (Z.abs z <? 10 ^ 4300).
Qed.

Lemma regs_keys :
  map_Forall (fun (k : string) r =>
                (existsb (String.eqb k) abi_names
                 || (k =? "x" +:+ py_str r)%string) = true)
    Assembler.regs.
Proof. apply (bool_decide_unpack _). vm_compute. exact I. Qed.

Lemma x_names_in_range (r : Z) :
  0 <= r < 32 -> Assembler.regs !! ("x" +:+ py_str r) = Some r.
Proof.
  intros Hr.
  assert (H : exists n, (n < 32)%nat /\ r = Z.of_nat n).
  { exists (Z.to_nat r). lia. }
  destruct H as (n & Hn & ->).
  do 32 (destruct n as [|n]; [vm_compute; reflexivity|]). lia.
Qed.

Lemma x_names_only_in_range (r v : Z) :
  Assembler.regs !! ("x" +:+ py_str r) = Some v -> v = r /\ 0 <= r < 32.
Proof.
  intros E.
  pose proof (regs_in_range _ _ E) as Hv. simpl in Hv.
  pose proof (regs_keys _ _ E) as Hk. cbv beta in Hk.
  change ("x" +:+ py_str r) with (String "x" (py_str r)) in Hk.
  change ("x" +:+ py_str v) with (String "x" (py_str v)) in Hk.
  apply orb_prop in Hk as [Hk|Hk]; [simpl in Hk; discriminate Hk|].
  apply String.eqb_eq in Hk. injection Hk as Hk.
  apply py_str_inj in Hk. subst v. split; [reflexivity|lia].
Qed.

(** X23.  The name [x<r>] an f-string writes for a register number [r]
    is accepted exactly for [0 <= r < 32], and then denotes [r]; every
    other number raises the unknown-register error. *)
Theorem x_register_names (r : Z) :
  Assembler.parse_reg ("x" +:+ py_str r)
  = if (0 <=? r) && (r <? 32) then Ok r
    else Raise (ValueError ("Unknown register: x" +:+ py_str r)).
Proof.
  assert (Hp : plain ("x" +:+ py_str r) = true).
  { change ("x" +:+ py_str r) with (String "x" (py_str r)).
    pose proof (plain_decimal_text _ (decimal_text_py_str r)) as H.
    unfold plain in *. simpl. exact H. }
  unfold Assembler.parse_reg. rewrite (clean_token _ Hp).
  destruct (Assembler.regs !! _) as [v|] eqn:E.
  - destruct (x_names_only_in_range r v E) as [-> Hr].
    destruct (Z.leb_spec 0 r); [|lia]. destruct (Z.ltb_spec r 32); [|lia].
    reflexivity.
  - destruct (Z.leb_spec 0 r); [|reflexivity].
    destruct (Z.ltb_spec r 32); [|reflexivity].
    rewrite x_names_in_range in E by lia. discriminate E.
Qed.

(** ** The generators and the assembler: whole lines *)

Lemma lacks_app (p : ascii -> bool) (a b : string) :
  lacks p (a +:+ b) = lacks p a && lacks p b.
Proof.
  induction a as [|c a IH]; [reflexivity|].
  rewrite app_cons. simpl. rewrite IH. apply andb_assoc.
Qed.

Lemma token_nonempty (s : string) : token s = true -> s <> "".
Proof.
  unfold token. intros H. apply andb_prop in H as [H _].
  intros ->. discriminate H.
Qed.

Lemma token_lacks (q : ascii -> bool) (s : string) :
  (forall c, q c = true ->
             (Assembler.isspace c || Ascii.eqb c "," || Ascii.eqb c "#"
              || Ascii.eqb c ":") = true) ->
  token s = true -> lacks q s = true.
Proof.
  intros Hq H. unfold token in H. apply andb_prop in H as [_ H].
  revert H. now apply lacks_weaken.
Qed.

Lemma token_plain (s : string) : token s = true -> plain s = true.
Proof.
  apply token_lacks. intros c H. apply orb_prop in H as [->| ->];
    [reflexivity|]. now rewrite orb_true_r.
Qed.

Lemma token_no_space (s : string) :
  token s = true -> lacks Assembler.isspace s = true.
Proof. apply token_lacks. intros c ->. reflexivity. Qed.

Lemma token_no_hash (s : string) :
  token s = true -> lacks (fun c => Ascii.eqb c "#") s = true.
Proof. apply token_lacks. intros c ->. now rewrite !orb_true_r. Qed.

Lemma token_no_colon (s : string) :
  token s = true -> lacks (fun c => Ascii.eqb c ":") s = true.
Proof. apply token_lacks. intros c ->. now rewrite !orb_true_r. Qed.

Lemma forallb_token_plain (args : list string) :
  forallb token args = true -> forallb plain args = true.
Proof.
  induction args as [|a args IH]; simpl; [reflexivity|].
  intros H. apply andb_prop in H as [Ha Hr].
  now rewrite (token_plain a Ha), IH.
Qed.

Lemma last_ok_app (sp : ascii -> bool) (a b : string) :
  b <> "" -> last_ok sp (a +:+ b) = last_ok sp b.
Proof.
  intros Hb. induction a as [|c a IH]; [reflexivity|].
  rewrite app_cons. destruct (a +:+ b) as [|d r] eqn:E.
  - destruct a; [rewrite app_nil in E; contradiction|discriminate E].
  - exact IH.
Qed.

Lemma last_ok_lacks (sp : ascii -> bool) (s : string) :
  lacks sp s = true -> last_ok sp s = true.
Proof.
  induction s as [|c s IH]; [reflexivity|].
  simpl lacks. intros H. apply andb_prop in H as [Hc Hs].
  destruct s as [|d s]; [exact Hc|]. now apply IH.
Qed.

Lemma rev_onto_head (sp : ascii -> bool) (s : string) :
  forall acc,
    s <> "" -> last_ok sp s = true ->
    head_ok sp (Assembler.rev_onto s acc) = true.
Proof.
  induction s as [|c s IH]; intros acc Hne Hl; [contradiction|].
  destruct s as [|d s]; [exact Hl|].
  change (Assembler.rev_onto (String c (String d s)) acc)
    with (Assembler.rev_onto (String d s) (String c acc)).
  apply IH; [discriminate|exact Hl].
Qed.

Lemma lstrip_head (sp : ascii -> bool) (s : string) :
  head_ok sp s = true -> Assembler.lstrip_with sp s = s.
Proof.
  destruct s as [|c s]; [reflexivity|]. simpl.
  now destruct (sp c).
Qed.

Lemma strip_ends (sp : ascii -> bool) (s : string) :
  head_ok sp s = true -> last_ok sp s = true ->
  Assembler.strip_with sp s = s.
Proof.
  intros Hh Hl. unfold Assembler.strip_with, Assembler.rstrip_with.
  rewrite (lstrip_head sp s Hh).
  destruct s as [|c s]; [reflexivity|].
  rewrite (lstrip_head sp (Assembler.rev_onto (String c s) ""))
    by (apply rev_onto_head; [discriminate|exact Hl]).
  rewrite rev_onto_twice. simpl Assembler.rev_onto. apply app_nil_r.
Qed.

Lemma contains_lacks (c : ascii) (s : string) :
  lacks (fun d => Ascii.eqb d c) s = true -> Assembler.contains c s = false.
Proof.
  induction s as [|d s IH]; [reflexivity|].
  simpl. intros H. apply andb_prop in H as [Hd Hs].
  destruct (Ascii.eqb d c); [discriminate|]. now apply IH.
Qed.

Lemma endswith_lacks (c : ascii) (s : string) :
  lacks (fun d => Ascii.eqb d c) s = true -> Assembler.endswith c s = false.
Proof.
  induction s as [|d s IH]; [reflexivity|].
  simpl lacks. intros H. apply andb_prop in H as [Hd Hs].
  destruct s as [|e s].
  - simpl. now destruct (Ascii.eqb d c).
  - now apply IH.
Qed.

(** Pass 1 queues a clean line as it stands. *)
Lemma pass1_line_queued (st : Assembler.pass1) (l : string) :
  clean_line l ->
  Assembler.pass1_line st l = Ok (Assembler.queue l st).
Proof.
  intros (Hne & Hh & Hl & Hhash & Hcolon).
  unfold Assembler.pass1_line.
  rewrite (split_lacks "#" l Hhash).
  change (Assembler.item [l] 0) with (Ok l). rewrite bind_Ok.
  unfold Assembler.strip. rewrite (strip_ends _ l Hh Hl).
  destruct (String.eqb_spec l "") as [E|_]; [contradiction|].
  now rewrite (endswith_lacks ":" l Hcolon), (contains_lacks ":" l Hcolon).
Qed.

Lemma operands_text_lacks (p : ascii -> bool) (args : list string) :
  p " "%char = false -> p ","%char = false ->
  forallb (lacks p) args = true -> lacks p (operands_text args) = true.
Proof.
  intros Hs Hc. induction args as [|a rest IH]; [reflexivity|].
  simpl forallb. intros H. apply andb_prop in H as [Ha Hr].
  destruct rest as [|b rest]; [exact Ha|].
  change (operands_text (a :: b :: rest))
    with (a +:+ ", " +:+ operands_text (b :: rest)).
  rewrite !lacks_app, Ha, (IH Hr). simpl. now rewrite Hc, Hs.
Qed.

Lemma operands_text_last (args : list string) :
  forallb token args = true -> args <> [] ->
  operands_text args <> ""
  /\ last_ok Assembler.isspace (operands_text args) = true.
Proof.
  induction args as [|a rest IH]; intros H Hne; [contradiction|].
  simpl in H. apply andb_prop in H as [Ha Hr].
  destruct rest as [|b rest].
  - split; [now apply token_nonempty|].
    apply last_ok_lacks, token_no_space, Ha.
  - destruct (IH Hr) as [Hn Hl]; [discriminate|].
    change (operands_text (a :: b :: rest))
      with (a +:+ ", " +:+ operands_text (b :: rest)).
    split.
    + pose proof (token_nonempty a Ha) as Hna.
      destruct a; [contradiction|discriminate].
    + rewrite last_ok_app by discriminate.
      now rewrite (last_ok_app _ ", " _ Hn).
Qed.

Lemma forallb_token_lacks (q : ascii -> bool) (args : list string) :
  (forall s, token s = true -> lacks q s = true) ->
  forallb token args = true -> forallb (lacks q) args = true.
Proof.
  intros Hq. induction args as [|a args IH]; simpl; [reflexivity|].
  intros H. apply andb_prop in H as [Ha Hr]. now rewrite (Hq a Ha), IH.
Qed.

(** A mnemonic and operands that are tokens make a clean line. *)
Lemma instruction_text_clean (m : string) (args : list string) :
  token m = true -> forallb token args = true -> args <> [] ->
  clean_line (instruction_text m args).
Proof.
  intros Hm Hargs Hne.
  destruct (operands_text_last args Hargs Hne) as [Hn Hl].
  pose proof (token_nonempty m Hm) as Hmn.
  unfold clean_line, instruction_text. repeat split.
  - destruct m; [contradiction|discriminate].
  - pose proof (token_no_space m Hm) as Hs.
    destruct m as [|c m]; [contradiction|].
    simpl in Hs. apply andb_prop in Hs as [Hc _]. exact Hc.
  - rewrite last_ok_app by discriminate.
    now rewrite (last_ok_app _ " " _ Hn).
  - rewrite !lacks_app, (token_no_hash m Hm).
    rewrite operands_text_lacks; try reflexivity.
    now apply forallb_token_lacks, Hargs; apply token_no_hash.
  - rewrite !lacks_app, (token_no_colon m Hm).
    rewrite operands_text_lacks; try reflexivity.
    now apply forallb_token_lacks, Hargs; apply token_no_colon.
Qed.

Lemma py_str_nonempty (z : Z) : py_str z <> "".
Proof.
  intros E. assert (H : py_str z = py_str 0 -> False).
  { intros E0. apply py_str_inj in E0. subst z. discriminate E. }
  destruct z as [|p|p]; [discriminate E| |discriminate E].
  unfold py_str in E. cbn [Z.to_int NilZero.string_of_int] in E.
  pose proof (to_uint_leading p) as Hl.
  destruct (Pos.to_uint p); try discriminate Hl; discriminate E.
Qed.

Lemma token_py_str (z : Z) : token (py_str z) = true.
Proof.
  unfold token. apply andb_true_intro. split.
  - destruct (String.eqb_spec (py_str z) "") as [E|_]; [|reflexivity].
    now destruct (py_str_nonempty z).
  - apply lacks_decimal_text;
      [now apply digit_cases|reflexivity|apply decimal_text_py_str].
Qed.

Lemma token_x (r : Z) : token ("x" +:+ py_str r) = true.
Proof.
  pose proof (token_py_str r) as H. unfold token in *.
  apply andb_prop in H as [_ H].
  change ("x" +:+ py_str r) with (String "x" (py_str r)).
  simpl. exact H.
Qed.

Lemma parse_reg_x (r : Z) :
  0 <= r < 32 -> Assembler.parse_reg ("x" +:+ py_str r) = Ok r.
Proof.
  intros Hr. unfold Assembler.parse_reg.
  rewrite (clean_token _ (token_plain _ (token_x r))).
  now rewrite (x_names_in_range r Hr).
Qed.

Lemma parse_imm_py_str (z : Z) (labels : gmap string Z) (pc : Z) :
  Z.abs z < 10 ^ 4300 ->
  labels !! py_str z = None ->
  Assembler.parse_imm (py_str z) labels pc = Ok z.
Proof.
  intros Hz Hl. unfold Assembler.parse_imm.
  rewrite (clean_token _ (token_plain _ (token_py_str z))).
  now rewrite Hl, (int0_py_str z Hz).
Qed.

Lemma no_paren_py_str (z : Z) : no_paren (py_str z) = true.
Proof.
  apply lacks_decimal_text;
    [now apply digit_cases|reflexivity|apply decimal_text_py_str].
Qed.

Lemma no_paren_x (r : Z) : no_paren ("x" +:+ py_str r) = true.
Proof.
  change ("x" +:+ py_str r) with (String "x" (py_str r)).
  unfold no_paren. simpl. apply no_paren_py_str.
Qed.

Lemma token_memory_text (a b : string) :
  token a = true -> token b = true -> token (memory_text a b) = true.
Proof.
  intros Ha Hb. pose proof (token_nonempty a Ha) as Hn.
  unfold token in *. apply andb_prop in Ha as [_ Ha].
  apply andb_prop in Hb as [_ Hb].
  apply andb_true_intro. split.
  - unfold memory_text. destruct a; [contradiction|reflexivity].
  - unfold memory_text. now rewrite !lacks_app, Ha, Hb.
Qed.


Lemma encode_addi (labels : gmap string Z) (pc : Z) (a0 a1 a2 : string)
    (rd rs1 imm : Z) :
  forallb plain [a0; a1; a2] = true ->
  Assembler.parse_reg a0 = Ok rd ->
  Assembler.parse_reg a1 = Ok rs1 ->
  Assembler.parse_imm a2 labels pc = Ok imm ->
  -4096 <= imm < 4096 ->
  Assembler.encode labels pc (instruction_text "addi" [a0; a1; a2])
  = Ok (i_type_layout imm rs1 "000" rd "0010011").
Proof.
  intros Hargs H0 H1 H2 Himm.
  destruct (instruction_text_tokens_aux "addi" [a0; a1; a2] eq_refl Hargs)
    as [Htok Hops]; [discriminate|].
  destruct (parse_reg_bits a0 rd H0) as [R0 T0].
  destruct (parse_reg_bits a1 rs1 H1) as [R1 T1].
  unfold Assembler.encode. cbv zeta. unfold operands_of in Hops.
  rewrite Htok, bind_Ok, Hops.
  change (Assembler.lookup_key "addi" Assembler.opcodes)
    with (Some [("type", "I"); ("opcode", "0010011"); ("funct3", "000")]).
  cbv iota.
  change (Assembler.field _ "type") with (Ok "I").
  rewrite bind_Ok. cbv beta.
  change (Assembler.field _ "opcode") with (Ok "0010011").
  rewrite bind_Ok. cbv beta.
  change ("I" =? "R")%string with false.
  change ("I" =? "I")%string with true. cbv iota.
  change (Assembler.item [a0; a1; a2] 0) with (Ok a0).
  change (Assembler.item [a0; a1; a2] 1) with (Ok a1).
  change (Assembler.item [a0; a1; a2] 2) with (Ok a2).
  repeat (first [rewrite bind_Ok | rewrite H0 | rewrite H1 | rewrite H2];
          cbv beta).
  change (Assembler.field _ "funct3") with (Ok "000").
  rewrite bind_Ok. cbv beta.
  rewrite T0, T1, (to_bin_bits imm 12) by (simpl; lia). reflexivity.
Qed.

Lemma addi_text_shape (rd rs1 imm : Z) :
  addi_text rd rs1 imm
  = instruction_text "addi" ["x" +:+ py_str rd; "x" +:+ py_str rs1; py_str imm].
Proof. reflexivity. Qed.

Lemma reg_field_value (r : Z) : 0 <= r < 32 -> bin_value (reg_field r) = r.
Proof.
  intros Hr. unfold reg_field. rewrite bin_value_imm_bits.
  simpl (2 ^ Z.of_nat 0). rewrite Z.div_1_r. apply Z.mod_small.
  simpl. lia.
Qed.

Lemma addi_text_clean (rd rs1 imm : Z) : clean_line (addi_text rd rs1 imm).
Proof.
  rewrite addi_text_shape. apply instruction_text_clean;
    [reflexivity| |discriminate].
  simpl. now rewrite !token_x, token_py_str.
Qed.

Lemma encode_addi_text (labels : gmap string Z) (pc rd rs1 imm : Z) :
  0 <= rd < 32 -> 0 <= rs1 < 32 -> -4096 <= imm < 4096 ->
  labels !! py_str imm = None ->
  Assembler.encode labels pc (addi_text rd rs1 imm)
  = Ok (i_type_layout imm rs1 "000" rd "0010011").
Proof.
  intros Hrd Hrs1 Himm Hl. rewrite addi_text_shape. apply encode_addi.
  - simpl. now rewrite !(token_plain _ (token_x _)),
      (token_plain _ (token_py_str imm)).
  - now apply parse_reg_x.
  - now apply parse_reg_x.
  - apply parse_imm_py_str; [apply below_limit; lia|exact Hl].
  - exact Himm.
Qed.

(** X24.  The line [addi x<rd>, x<rs1>, <imm>] the generators write for
    register numbers in 0..31 and a 12-bit immediate encodes, wherever no
    label is spelled like the immediate, to the I-type word whose fields
    read back as that immediate and those two registers: the numbers the
    reference CPU was called with. *)
Theorem generated_addi_word (labels : gmap string Z) (pc rd rs1 imm : Z) :
  0 <= rd < 32 -> 0 <= rs1 < 32 -> -2048 <= imm < 2048 ->
  labels !! py_str imm = None ->
  let w := i_type_layout imm rs1 "000" rd "0010011" in
  Assembler.encode labels pc (addi_text rd rs1 imm) = Ok w
  /\ signed_value (Assembler.slice 0 12 w) = imm
  /\ bin_value (Assembler.slice 12 17 w) = rs1
  /\ bin_value (Assembler.slice 20 25 w) = rd.
Proof.
  intros Hrd Hrs1 Himm Hl w. split; [|split; [|split]].
  - apply encode_addi_text; [exact Hrd|exact Hrs1|lia|exact Hl].
  - unfold w, i_type_layout, Assembler.slice.
    change (Assembler.drop 0 ?x) with x.
    rewrite (take_app_length (12 - 0)) by apply length_imm_bits.
    apply signed_imm_bits; simpl; lia.
  - unfold w, i_type_layout, Assembler.slice.
    rewrite (drop_app_length 12) by apply length_imm_bits.
    rewrite (take_app_length (17 - 12)) by apply length_imm_bits.
    now apply reg_field_value.
  - unfold w, i_type_layout, Assembler.slice.
    change (Assembler.drop 20) with (Assembler.drop (12 + (5 + 3))).
    rewrite (drop_app_plus 12) by apply length_imm_bits.
    rewrite (drop_app_plus 5) by apply length_imm_bits.
    rewrite (drop_app_length 3) by reflexivity.
    rewrite (take_app_length (25 - 20)) by apply length_imm_bits.
    now apply reg_field_value.
Qed.

Lemma generated_addi_word_witness :
  addi_text 10 0 (-1) = "addi x10, x0, -1"
  /\ Assembler.encode ∅ 0 "addi x10, x0, -1"
     = Ok "11111111111100000000010100010011"
  /\ signed_value
       (Assembler.slice 0 12 "11111111111100000000010100010011") = -1.
Proof.
  destruct (generated_addi_word ∅ 0 10 0 (-1)) as (He & Hi & _);
    [lia|lia|lia|reflexivity|].
  split; [reflexivity|]. split; [exact He|exact Hi].
Defined.

(** ** The generators and the assembler: whole programs *)

Lemma plain_memory_text (a b : string) :
  plain a = true -> plain b = true -> plain (memory_text a b) = true.
Proof.
  intros Ha Hb. unfold plain, memory_text in *.
  now rewrite !lacks_app, Ha, Hb.
Qed.

Lemma encode_lw (labels : gmap string Z) (pc : Z)
    (a0 imm_part reg_part : string) (rd rs1 imm : Z) :
  forallb plain [a0; imm_part; reg_part] = true ->
  no_paren imm_part = true -> no_paren reg_part = true ->
  Assembler.parse_reg a0 = Ok rd ->
  Assembler.parse_imm imm_part labels pc = Ok imm ->
  Assembler.parse_reg reg_part = Ok rs1 ->
  -4096 <= imm < 4096 ->
  Assembler.encode labels pc
    (instruction_text "lw" [a0; memory_text imm_part reg_part])
  = Ok (i_type_layout imm rs1 "010" rd "0000011").
Proof.
  intros Hargs Hpi Hpr H0 Hi Hr Himm.
  simpl in Hargs.
  apply andb_prop in Hargs as [P0 Hargs].
  apply andb_prop in Hargs as [Pi Hargs].
  apply andb_prop in Hargs as [Pr _].
  assert (Hargs2 : forallb plain [a0; memory_text imm_part reg_part] = true).
  { simpl. now rewrite P0, (plain_memory_text _ _ Pi Pr). }
  destruct (parse_reg_bits a0 rd H0) as [R0 T0].
  destruct (parse_reg_bits reg_part rs1 Hr) as [R1 T1].
  pose proof (memory_operand_parts imm_part reg_part labels pc Hpi Hpr) as Hmem.
  rewrite Hi, bind_Ok, Hr, bind_Ok in Hmem.
  destruct (instruction_text_tokens_aux "lw"
              [a0; memory_text imm_part reg_part] eq_refl Hargs2)
    as [Htok Hops]; [discriminate|].
  unfold Assembler.encode. cbv zeta. unfold operands_of in Hops.
  rewrite Htok, bind_Ok, Hops.
  change (Assembler.lookup_key "lw" Assembler.opcodes)
    with (Some [("type", "I_load"); ("opcode", "0000011");
                ("funct3", "010")]).
  cbv iota.
  change (Assembler.field _ "type") with (Ok "I_load").
  rewrite bind_Ok. cbv beta.
  change (Assembler.field _ "opcode") with (Ok "0000011").
  rewrite bind_Ok. cbv beta.
  change ("I_load" =? "R")%string with false.
  change ("I_load" =? "I")%string with false.
  change ("I_load" =? "I_load")%string with true. cbv iota.
  change (Assembler.item [a0; memory_text imm_part reg_part] 0)
    with (Ok a0).
  change (Assembler.item [a0; memory_text imm_part reg_part] 1)
    with (Ok (memory_text imm_part reg_part)).
  repeat (first [rewrite bind_Ok | rewrite H0 | rewrite Hmem]; cbv beta).
  change (Assembler.field _ "funct3") with (Ok "010").
  rewrite bind_Ok. cbv beta. simpl fst. simpl snd.
  rewrite T0, T1, (to_bin_bits imm 12) by (simpl; lia). reflexivity.
Qed.

Lemma encode_sw (labels : gmap string Z) (pc : Z)
    (a0 imm_part reg_part : string) (rs2 rs1 imm : Z) :
  forallb plain [a0; imm_part; reg_part] = true ->
  no_paren imm_part = true -> no_paren reg_part = true ->
  Assembler.parse_reg a0 = Ok rs2 ->
  Assembler.parse_imm imm_part labels pc = Ok imm ->
  Assembler.parse_reg reg_part = Ok rs1 ->
  -4096 <= imm < 4096 ->
  Assembler.encode labels pc
    (instruction_text "sw" [a0; memory_text imm_part reg_part])
  = Ok (s_type_layout imm rs2 rs1 "010" "0100011").
Proof.
  intros Hargs Hpi Hpr H0 Hi Hr Himm.
  simpl in Hargs.
  apply andb_prop in Hargs as [P0 Hargs].
  apply andb_prop in Hargs as [Pi Hargs].
  apply andb_prop in Hargs as [Pr _].
  assert (Hargs2 : forallb plain [a0; memory_text imm_part reg_part] = true).
  { simpl. now rewrite P0, (plain_memory_text _ _ Pi Pr). }
  destruct (parse_reg_bits a0 rs2 H0) as [R0 T0].
  destruct (parse_reg_bits reg_part rs1 Hr) as [R1 T1].
  pose proof (memory_operand_parts imm_part reg_part labels pc Hpi Hpr) as Hmem.
  rewrite Hi, bind_Ok, Hr, bind_Ok in Hmem.
  destruct (instruction_text_tokens_aux "sw"
              [a0; memory_text imm_part reg_part] eq_refl Hargs2)
    as [Htok Hops]; [discriminate|].
  unfold Assembler.encode. cbv zeta. unfold operands_of in Hops.
  rewrite Htok, bind_Ok, Hops.
  change (Assembler.lookup_key "sw" Assembler.opcodes)
    with (Some [("type", "S"); ("opcode", "0100011"); ("funct3", "010")]).
  cbv iota.
  change (Assembler.field _ "type") with (Ok "S").
  rewrite bind_Ok. cbv beta.
  change (Assembler.field _ "opcode") with (Ok "0100011").
  rewrite bind_Ok. cbv beta.
  change ("S" =? "R")%string with false.
  change ("S" =? "I")%string with false.
  change ("S" =? "I_load")%string with false.
  change ("S" =? "S")%string with true. cbv iota.
  change (Assembler.item [a0; memory_text imm_part reg_part] 0)
    with (Ok a0).
  change (Assembler.item [a0; memory_text imm_part reg_part] 1)
    with (Ok (memory_text imm_part reg_part)).
  repeat (first [rewrite bind_Ok | rewrite H0 | rewrite Hmem]; cbv beta).
  change (Assembler.field _ "funct3") with (Ok "010").
  rewrite bind_Ok. cbv beta. simpl fst. simpl snd.
  rewrite T0, T1, (to_bin_bits imm 12) by (simpl; lia).
  change 12%nat with (7 + 5)%nat. rewrite imm_bits_split.
  rewrite (take_app_length 7), (drop_app_length 7)
    by apply length_imm_bits.
  reflexivity.
Qed.

Lemma bit_field_i_type (imm rs1 rd : Z) (funct3 opcode : string) :
  bit_field 3 funct3 -> bit_field 7 opcode ->
  bit_field 32 (i_type_layout imm rs1 funct3 rd opcode).
Proof.
  intros H3 H7. unfold i_type_layout.
  change 32%nat with (12 + (5 + (3 + (5 + 7))))%nat.
  repeat apply bit_field_app; auto using bit_field_reg, bit_field_imm.
Qed.

Lemma bit_field_s_type (imm rs2 rs1 : Z) (funct3 opcode : string) :
  bit_field 3 funct3 -> bit_field 7 opcode ->
  bit_field 32 (s_type_layout imm rs2 rs1 funct3 opcode).
Proof.
  intros H3 H7. unfold s_type_layout.
  change 32%nat with (7 + (5 + (5 + (3 + (5 + 7)))))%nat.
  repeat apply bit_field_app; auto using bit_field_reg, bit_field_imm.
Qed.

Lemma sw_text_shape (rs2 imm rs1 : Z) :
  sw_text rs2 imm rs1
  = instruction_text "sw"
      ["x" +:+ py_str rs2; memory_text (py_str imm) ("x" +:+ py_str rs1)].
Proof. reflexivity. Qed.

Lemma lw_text_shape (rd imm rs1 : Z) :
  lw_text rd imm rs1
  = instruction_text "lw"
      ["x" +:+ py_str rd; memory_text (py_str imm) ("x" +:+ py_str rs1)].
Proof. reflexivity. Qed.

(** Every line of the memory walk assembles on its own. *)
Lemma walk_line_assembles (l : string) : walk_line l -> assembles_alone l.
Proof.
  intros (a & b & imm & Ha & Hb & Himm & [->|[->| ->]]).
  - split.
    + apply addi_text_clean.
    + intros pc. eexists. split.
      * apply encode_addi_text; [exact Ha|exact Hb|lia|apply lookup_empty].
      * apply bit_field_i_type; split; reflexivity.
  - split.
    + rewrite sw_text_shape. apply instruction_text_clean;
        [reflexivity| |discriminate].
      simpl. now rewrite token_x, token_memory_text
        by (apply token_py_str || apply token_x).
    + intros pc. eexists. split.
      * rewrite sw_text_shape. apply encode_sw.
        -- simpl. now rewrite !(token_plain _ (token_x _)),
             (token_plain _ (token_py_str imm)).
        -- apply no_paren_py_str.
        -- apply no_paren_x.
        -- now apply parse_reg_x.
        -- apply parse_imm_py_str; [apply below_limit; lia|apply lookup_empty].
        -- now apply parse_reg_x.
        -- lia.
      * apply bit_field_s_type; split; reflexivity.
  - split.
    + rewrite lw_text_shape. apply instruction_text_clean;
        [reflexivity| |discriminate].
      simpl. now rewrite token_x, token_memory_text
        by (apply token_py_str || apply token_x).
    + intros pc. eexists. split.
      * rewrite lw_text_shape. apply encode_lw.
        -- simpl. now rewrite !(token_plain _ (token_x _)),
             (token_plain _ (token_py_str imm)).
        -- apply no_paren_py_str.
        -- apply no_paren_x.
        -- now apply parse_reg_x.
        -- apply parse_imm_py_str; [apply below_limit; lia|apply lookup_empty].
        -- now apply parse_reg_x.
        -- lia.
      * apply bit_field_i_type; split; reflexivity.
Qed.

(** Pass 1 on lines that are all clean: no label, every line queued. *)
Lemma pass1_lines_clean (lines : list string) :
  Forall clean_line lines ->
  forall st, exists st' instrs,
    Assembler.pass1_lines st lines = Ok st'
    /\ Assembler.labels st' = Assembler.labels st
    /\ Assembler.instructions st' = (Assembler.instructions st ++ instrs)%list
    /\ instrs.*2 = lines.
Proof.
  induction 1 as [|l lines Hl _ IH]; intros st.
  - exists st, []. simpl. now rewrite List.app_nil_r.
  - destruct (IH (Assembler.queue l st)) as (st' & instrs & He & Hlab & Hi & Hs).
    exists st', ((Assembler.pc st, l) :: instrs).
    split; [simpl; now rewrite (pass1_line_queued st l Hl), bind_Ok, He|].
    split; [exact Hlab|].
    split; [|now rewrite fmap_cons, Hs].
    rewrite Hi. simpl. now rewrite <- List.app_assoc.
Qed.

Lemma pass2_encodes (labels : gmap string Z) (instrs : list (Z * string)) :
  Forall (fun l => forall pc, exists w,
            Assembler.encode labels pc l = Ok w /\ bit_field 32 w)
    (instrs.*2) ->
  exists words,
    Assembler.pass2 labels instrs = Ok words
    /\ length words = length instrs
    /\ Forall (bit_field 32) words.
Proof.
  induction instrs as [|[pc l] instrs IH]; intros H.
  - exists []. repeat split. constructor.
  - rewrite fmap_cons in H. apply Forall_cons in H as [Hl Hr].
    cbn [snd] in Hl.
    destruct (Hl pc) as (w & Hw & Hb).
    destruct (IH Hr) as (words & Hp & Hlen & Hall).
    exists (w :: words). simpl. rewrite Hw, bind_Ok, Hp, bind_Ok.
    split; [reflexivity|]. split; [now rewrite Hlen|now constructor].
Qed.

(** A program of lines that assemble on their own assembles: one word of
    32 binary digits per line. *)
Lemma assemble_alone (lines : list string) :
  Forall assembles_alone lines ->
  exists words,
    Assembler.assemble lines = Ok words
    /\ length words = length lines
    /\ Forall (bit_field 32) words.
Proof.
  intros H.
  assert (Hc : Forall clean_line lines)
    by (eapply Forall_impl; [exact H|]; now intros l [Hl _]).
  destruct (pass1_lines_clean lines Hc Assembler.pass1_init)
    as (st & instrs & He & Hlab & Hi & Hs).
  simpl in Hlab, Hi. subst instrs.
  destruct (pass2_encodes ∅ (Assembler.instructions st)) as (words & Hp & Hlen & Hall).
  { rewrite Hs. eapply Forall_impl; [exact H|]. now intros l [_ Hl]. }
  exists words. unfold Assembler.assemble. rewrite He, bind_Ok, Hlab, Hp.
  split; [reflexivity|]. split; [|exact Hall].
  rewrite Hlen, <- Hs. now rewrite length_fmap.
Qed.

Lemma walk_start_lines (w0 : Generators.walk) :
  Generators.walk_start = Ok w0 -> Forall walk_line (Generators.w_asm w0).
Proof.
  unfold Generators.walk_start. cbv zeta.
  match goal with
  | |- bind ?m _ = _ -> _ => destruct m as [e|s1]
  end; cbv beta iota delta [bind]; unfold Ok; intros H;
    [discriminate H|].
  injection H as <-. simpl. constructor; [|constructor].
  exists 1, 0, 1000. repeat split; try lia. left. reflexivity.
Qed.

Ltac walk_bind H :=
  match type of H with
  | bind ?m ?k = _ =>
      let s := fresh "s" in
      destruct m as [?|s];
      [cbv beta iota delta [bind] in H; unfold Ok in H; discriminate H
      |change (bind (inr s) k) with (k s) in H; cbv beta in H]
  end.

Lemma walk_step_lines (w w' : Generators.walk) (d : Generators.draw) :
  draw_ok d ->
  Generators.walk_step w d = Ok w' ->
  Forall walk_line (Generators.w_asm w) ->
  Forall walk_line (Generators.w_asm w').
Proof.
  intros Hd Hstep Hall. unfold Generators.walk_step in Hstep.
  destruct d as [k|k val|k dest]; simpl in Hd; cbv zeta in Hstep.
  - destruct (_ && _) in Hstep.
    + walk_bind Hstep. unfold Ok in Hstep. injection Hstep as <-.
      simpl. unfold Generators.append. apply Forall_app. split; [exact Hall|].
      constructor; [|constructor].
      exists 1, 1, (k * 4). repeat split; try lia. left. reflexivity.
    + unfold Ok in Hstep. injection Hstep as <-. exact Hall.
  - destruct (negb _) in Hstep.
    + unfold Ok in Hstep. injection Hstep as <-. exact Hall.
    + walk_bind Hstep. walk_bind Hstep.
      unfold Ok in Hstep. injection Hstep as <-.
      simpl. unfold Generators.append.
      apply Forall_app. split; [apply Forall_app; split; [exact Hall|]|].
      * constructor; [|constructor].
        exists 2, 0, val. repeat split; try lia. left. reflexivity.
      * constructor; [|constructor].
        exists 2, 1, (k * 4). repeat split; try lia. right. left. reflexivity.
  - destruct (negb _) in Hstep.
    + unfold Ok in Hstep. injection Hstep as <-. exact Hall.
    + walk_bind Hstep. unfold Ok in Hstep. injection Hstep as <-.
      simpl. unfold Generators.append. apply Forall_app. split; [exact Hall|].
      constructor; [|constructor].
      exists dest, 1, (k * 4). repeat split; try lia. right. right. reflexivity.
Qed.

(** X25.  Every program the memory walk writes assembles: whatever
    the draws within their ranges, the generator returns and [assemble]
    returns one word of 32 binary digits for each line of the program. *)
Theorem memory_walk_program_assembles (ds : list Generators.draw) :
  Forall draw_ok ds ->
  exists w0 w words,
    Generators.walk_start = Ok w0
    /\ Generators.walk_steps w0 ds = Ok w
    /\ Assembler.assemble (Generators.w_asm w) = Ok words
    /\ length words = length (Generators.w_asm w)
    /\ Forall (bit_field 32) words.
Proof.
  intros Hds.
  destruct walk_start_ok as (w0 & Hw0 & Hok0).
  pose proof (walk_start_lines w0 Hw0) as Hl0.
  exists w0.
  assert (H : forall w, walk_ok w -> Forall walk_line (Generators.w_asm w) ->
            exists w', Generators.walk_steps w ds = Ok w'
                       /\ Forall walk_line (Generators.w_asm w')).
  { induction Hds as [|d ds Hd Hds IH]; intros w Hok Hl.
    - exists w. split; [reflexivity|exact Hl].
    - destruct (walk_step_ok w d Hok Hd) as (w1 & He & Hok1).
      pose proof (walk_step_lines w w1 d Hd He Hl) as Hl1.
      destruct (IH w1 Hok1 Hl1) as (w' & Hs & Hl').
      exists w'. simpl. rewrite He, bind_Ok. split; [exact Hs|exact Hl']. }
  destruct (H w0 Hok0 Hl0) as (w & Hs & Hl).
  destruct (assemble_alone (Generators.w_asm w)) as (words & Ha & Hlen & Hall).
  { eapply Forall_impl; [exact Hl|]. apply walk_line_assembles. }
  exists w, words. auto.
Qed.

Lemma memory_walk_program_assembles_witness :
  exists w0 w words,
    Generators.walk_start = Ok w0
    /\ Generators.walk_steps w0
         [Generators.Write 1 (-5); Generators.Read 1 3; Generators.Move (-2)]
       = Ok w
    /\ Assembler.assemble (Generators.w_asm w) = Ok words
    /\ length words = length (Generators.w_asm w)
    /\ Forall (bit_field 32) words.
Proof.
  apply (memory_walk_program_assembles
           [Generators.Write 1 (-5); Generators.Read 1 3;
            Generators.Move (-2)]).
  repeat constructor; simpl; lia.
Defined.

Lemma closed_lines_clean :
  clean_line "addi x6, x0, 0" /\ clean_line "addi x6, x6, 2"
  /\ clean_line "addi x5, x5, -1" /\ clean_line "bne x5, x0, loop_start".
Proof. repeat split; try reflexivity; discriminate. Qed.

Lemma pass1_line_loop_start (st : Assembler.pass1) :
  Assembler.pass1_line st "loop_start:"
  = Ok (Assembler.set_label "loop_start" st).
Proof. reflexivity. Qed.

Lemma py_str_no_label (z : Z) (name : string) :
  decimal_text name = false -> name <> py_str z.
Proof.
  intros H E. rewrite E, decimal_text_py_str in H. discriminate H.
Qed.

(** X26.  The program of a loop test with a 12-bit loop count assembles
    to five words: the four [addi] with their immediates, and the [bne]
    whose displacement is -8, back over two instructions to the label
    [loop_start] declared between the second and the third one. *)
Theorem gen_loops_program_assembles (test_id n : Z) (t : Generators.test) :
  Generators.gen_loops_case test_id n = Ok t ->
  -2048 <= n < 2048 ->
  Assembler.assemble (Generators.program t)
  = Ok [i_type_layout n 0 "000" 5 "0010011";
        i_type_layout 0 0 "000" 6 "0010011";
        i_type_layout 2 6 "000" 6 "0010011";
        i_type_layout (-1) 5 "000" 5 "0010011";
        b_type_layout (-8) 0 5 "001" "1100011"].
Proof.
  intros Ht Hn. unfold Generators.gen_loops_case in Ht. cbv zeta in Ht.
  walk_bind Ht. walk_bind Ht. unfold Ok in Ht. injection Ht as <-.
  cbn [Generators.program].
  change ("addi x" +:+ py_str 5 +:+ ", x0, " +:+ py_str n)
    with (addi_text 5 0 n).
  change ("addi x" +:+ py_str 6 +:+ ", x0, 0") with "addi x6, x0, 0".
  change ("addi x" +:+ py_str 6 +:+ ", x" +:+ py_str 6 +:+ ", 2")
    with "addi x6, x6, 2".
  change ("addi x" +:+ py_str 5 +:+ ", x" +:+ py_str 5 +:+ ", -1")
    with "addi x5, x5, -1".
  change ("bne x" +:+ py_str 5 +:+ ", x0, loop_start")
    with "bne x5, x0, loop_start".
  destruct closed_lines_clean as (C1 & C3 & C4 & C5).
  pose proof (addi_text_clean 5 0 n) as C0.
  assert (Hp1 : Assembler.pass1_lines Assembler.pass1_init
                  [addi_text 5 0 n; "addi x6, x0, 0"; "loop_start:";
                   "addi x6, x6, 2"; "addi x5, x5, -1";
                   "bne x5, x0, loop_start"]
                = Ok {| Assembler.labels := <["loop_start" := 8]> ∅;
                        Assembler.pc := 20;
                        Assembler.instructions :=
                          [(0, addi_text 5 0 n); (4, "addi x6, x0, 0");
                           (8, "addi x6, x6, 2"); (12, "addi x5, x5, -1");
                           (16, "bne x5, x0, loop_start")] |}).
  { cbn [Assembler.pass1_lines].
    rewrite (pass1_line_queued _ _ C0), bind_Ok.
    rewrite (pass1_line_queued _ _ C1), bind_Ok.
    rewrite pass1_line_loop_start, bind_Ok.
    rewrite (pass1_line_queued _ _ C3), bind_Ok.
    rewrite (pass1_line_queued _ _ C4), bind_Ok.
    rewrite (pass1_line_queued _ _ C5), bind_Ok.
    reflexivity. }
  unfold Assembler.assemble. rewrite Hp1, bind_Ok.
  cbn [Assembler.labels Assembler.instructions Assembler.pass2].
  assert (E0 : Assembler.encode (<["loop_start" := 8]> ∅) 0 (addi_text 5 0 n)
               = Ok (i_type_layout n 0 "000" 5 "0010011")).
  { apply encode_addi_text; try lia.
    rewrite lookup_insert_ne; [apply lookup_empty|].
    now apply py_str_no_label. }
  rewrite E0, bind_Ok.
  assert (E1 : Assembler.encode (<["loop_start" := 8]> ∅) 4 "addi x6, x0, 0"
               = Ok (i_type_layout 0 0 "000" 6 "0010011"))
    by (vm_compute; reflexivity).
  assert (E3 : Assembler.encode (<["loop_start" := 8]> ∅) 8 "addi x6, x6, 2"
               = Ok (i_type_layout 2 6 "000" 6 "0010011"))
    by (vm_compute; reflexivity).
  assert (E4 : Assembler.encode (<["loop_start" := 8]> ∅) 12 "addi x5, x5, -1"
               = Ok (i_type_layout (-1) 5 "000" 5 "0010011"))
    by (vm_compute; reflexivity).
  assert (E5 : Assembler.encode (<["loop_start" := 8]> ∅) 16
                 "bne x5, x0, loop_start"
               = Ok (b_type_layout (-8) 0 5 "001" "1100011"))
    by (vm_compute; reflexivity).
  rewrite E1, bind_Ok, E3, bind_Ok, E4, bind_Ok, E5, bind_Ok.
  reflexivity.
Qed.

Lemma gen_loops_program_assembles_witness :
  exists t,
    Generators.gen_loops_case 0 7 = Ok t
    /\ Assembler.assemble (Generators.program t)
       = Ok ["00000000011100000000001010010011";
             "00000000000000000000001100010011";
             "00000000001000110000001100010011";
             "11111111111100101000001010010011";
             "11111110000000101001110011100011"].
Proof.
  eexists. split; [vm_compute; reflexivity|].
  apply (gen_loops_program_assembles 0 7); [vm_compute; reflexivity|lia].
Defined.

(** ** The assembler: lines as they are read from a file *)

Lemma rev_onto_app (a b : string) :
  forall acc,
    Assembler.rev_onto (a +:+ b) acc
    = Assembler.rev_onto b (Assembler.rev_onto a acc).
Proof.
  induction a as [|c a IH]; intros acc; [reflexivity|].
  rewrite app_cons. simpl. apply IH.
Qed.

Lemma lstrip_app_space (sp : ascii -> bool) (s : string) (c : ascii) :
  sp c = true ->
  Assembler.lstrip_with sp (s +:+ String c "")
  = match Assembler.lstrip_with sp s with
    | EmptyString => EmptyString
    | t => t +:+ String c ""
    end.
Proof.
  intros Hc. induction s as [|d s IH].
  - rewrite app_nil. simpl. now rewrite Hc.
  - rewrite app_cons. simpl. destruct (sp d); [exact IH|].
    now rewrite app_cons.
Qed.

Lemma rstrip_app_space (sp : ascii -> bool) (t : string) (c : ascii) :
  sp c = true ->
  Assembler.rstrip_with sp (t +:+ String c "") = Assembler.rstrip_with sp t.
Proof.
  intros Hc. unfold Assembler.rstrip_with.
  rewrite rev_onto_app. simpl. now rewrite Hc.
Qed.

Lemma strip_app_space (sp : ascii -> bool) (s : string) (c : ascii) :
  sp c = true ->
  Assembler.strip_with sp (s +:+ String c "") = Assembler.strip_with sp s.
Proof.
  intros Hc. unfold Assembler.strip_with.
  rewrite (lstrip_app_space sp s c Hc).
  destruct (Assembler.lstrip_with sp s) as [|d t]; [reflexivity|].
  now apply rstrip_app_space.
Qed.

Lemma split_head_app (sep c : ascii) (s : string) :
  Ascii.eqb c sep = false ->
  hd "" (Assembler.split sep (s +:+ String c ""))
  = if Assembler.contains sep s then hd "" (Assembler.split sep s)
    else hd "" (Assembler.split sep s) +:+ String c "".
Proof.
  intros Hc. induction s as [|d s IH].
  - rewrite app_nil. simpl. now rewrite Hc.
  - rewrite app_cons. simpl. destruct (Ascii.eqb d sep); [reflexivity|].
    destruct (split_cons sep (s +:+ String c "")) as (h & t & E).
    destruct (split_cons sep s) as (h' & t' & E').
    rewrite E, E' in *. simpl in *. rewrite IH.
    now destruct (Assembler.contains sep s).
Qed.

Lemma code_of_app_space (l : string) (c : ascii) :
  Assembler.isspace c = true ->
  code_of (l +:+ String c "") = code_of l.
Proof.
  intros Hc. unfold code_of.
  assert (Hne : Ascii.eqb c "#" = false).
  { destruct (Ascii.eqb_spec c "#") as [->|]; [discriminate Hc|reflexivity]. }
  rewrite (split_head_app "#" c l Hne).
  destruct (Assembler.contains "#" l); [reflexivity|].
  unfold Assembler.strip. now apply strip_app_space.
Qed.

(** X27.  Lines that end in a white-space character, as [readlines]
    leaves them with their newline, assemble like the bare lines. *)
Theorem trailing_newline_ignored (lines : list string) (c : ascii) :
  Assembler.isspace c = true ->
  Assembler.assemble ((fun l => l +:+ String c "") <$> lines)
  = Assembler.assemble lines.
Proof.
  intros Hc. unfold Assembler.assemble.
  rewrite (pass1_lines_code ((fun l => l +:+ String c "") <$> lines) lines);
    [reflexivity|].
  induction lines as [|l lines IH]; [constructor|].
  rewrite fmap_cons. constructor; [|exact IH].
  now apply code_of_app_space.
Qed.

Lemma trailing_newline_ignored_witness :
  Assembler.assemble ["addi x1, x0, 5" +:+ String "010" ""]
  = Assembler.assemble ["addi x1, x0, 5"].
Proof.
  apply (trailing_newline_ignored ["addi x1, x0, 5"] "010"%char).
  reflexivity.
Defined.

